(** * Rule checks on text extracted from public-catering documents

    A shallow embedding of [app_cloud_min.py]: the date extractor
    ([find_dates]), the month interval ([month_diff]), the two document
    checkers and their dispatch table, together with the fragments of
    Python they run on: [str] as a sequence of code points, [re] with
    its backtracking order, [datetime.date], [int], binary64 floats and
    the exceptions these can raise.  The text extraction, the reporting
    script and the extraction loop of [app_basic.py] follow the
    checkers. *)

From Stdlib Require Import String Ascii Bool ZArith QArith Lia.
From Stdlib Require Import Floats.SpecFloat.
From Stdlib Require Import List.
Import ListNotations.
Local Open Scope Z_scope.

Set Implicit Arguments.

(* ================================================================== *)
(** * Python strings *)

(** A Python [str] is a sequence of Unicode code points. *)
Definition str := list Z.

Module Utf8.

(** The source file is UTF-8; literals are written as Rocq strings (byte
    strings) and decoded to code points. *)
Fixpoint bytes_of (s : string) : list Z :=
  match s with
  | EmptyString => []
  | String a s' => Z.of_N (N_of_ascii a) :: bytes_of s'
  end.

Definition cont (acc b : Z) : Z := Z.lor (Z.shiftl acc 6) (Z.land b 0x3F).

Fixpoint decode (bs : list Z) : str :=
  match bs with
  | [] => []
  | b0 :: t0 =>
    if b0 <? 0x80 then b0 :: decode t0
    else
      match t0 with
      | [] => []
      | b1 :: t1 =>
        if b0 <? 0xE0 then cont (Z.land b0 0x1F) b1 :: decode t1
        else
          match t1 with
          | [] => []
          | b2 :: t2 =>
            if b0 <? 0xF0 then cont (cont (Z.land b0 0x0F) b1) b2 :: decode t2
            else
              match t2 with
              | [] => []
              | b3 :: t3 =>
                cont (cont (cont (Z.land b0 0x07) b1) b2) b3 :: decode t3
              end
          end
      end
  end.

End Utf8.

(** [u "..."] is the Python string literal ["..."]. *)
Definition u (s : string) : str := Utf8.decode (Utf8.bytes_of s).

Fixpoint str_eqb (a b : str) : bool :=
  match a, b with
  | [], [] => true
  | x :: a', y :: b' => (x =? y) && str_eqb a' b'
  | _, _ => false
  end.

(** [p in s] on strings: [p] occurs in [s] as a contiguous run of code
    points. *)
Fixpoint startswith (s p : str) : bool :=
  match p, s with
  | [], _ => true
  | a :: p', b :: s' => (a =? b) && startswith s' p'
  | _ :: _, [] => false
  end.

Fixpoint contains (p s : str) : bool :=
  startswith s p ||
  match s with
  | [] => false
  | _ :: s' => contains p s'
  end.

(** ** Unicode character data (Unicode 14.0, as shipped with CPython 3.11) *)

(** Code points of the digit zero of every decimal-digit script (general
    category Nd); the nine code points after each are its digits 1-9. *)
Definition decimal_zeros : list Z :=
  [ 0x30; 0x660; 0x6F0; 0x7C0; 0x966; 0x9E6; 0xA66; 0xAE6; 0xB66; 0xBE6;
    0xC66; 0xCE6; 0xD66; 0xDE6; 0xE50; 0xED0; 0xF20; 0x1040; 0x1090;
    0x17E0; 0x1810; 0x1946; 0x19D0; 0x1A80; 0x1A90; 0x1B50; 0x1BB0;
    0x1C40; 0x1C50; 0xA620; 0xA8D0; 0xA900; 0xA9D0; 0xA9F0; 0xAA50;
    0xABF0; 0xFF10; 0x104A0; 0x10D30; 0x11066; 0x110F0; 0x11136;
    0x111D0; 0x112F0; 0x11450; 0x114D0; 0x11650; 0x116C0; 0x11730;
    0x118E0; 0x11950; 0x11C50; 0x11D50; 0x11DA0; 0x16A60; 0x16AC0;
    0x16B50; 0x1D7CE; 0x1D7D8; 0x1D7E2; 0x1D7EC; 0x1D7F6; 0x1E140;
    0x1E2F0; 0x1E950; 0x1FBF0 ].

(** The decimal value of a code point, when it is a decimal digit. *)
Definition decimal_value (c : Z) : option Z :=
  match find (fun z => (z <=? c) && (c <? z + 10)) decimal_zeros with
  | Some z => Some (c - z)
  | None => None
  end.

(** [\d] of a [str] pattern, [str.isdecimal] on one character. *)
Definition isdecimal (c : Z) : bool :=
  match decimal_value c with Some _ => true | None => false end.

(** [\s] of a [str] pattern, [str.isspace] on one character. *)
Definition isspace (c : Z) : bool :=
  ((0x9 <=? c) && (c <=? 0xD)) || ((0x1C <=? c) && (c <=? 0x20))
  || (c =? 0x85) || (c =? 0xA0) || (c =? 0x1680)
  || ((0x2000 <=? c) && (c <=? 0x200A))
  || (c =? 0x2028) || (c =? 0x2029) || (c =? 0x202F) || (c =? 0x205F)
  || (c =? 0x3000).

(* ================================================================== *)
(** * Exceptions *)

Inductive exn :=
| ValueError
| TypeError
| KeyError (key : str).

Inductive result (A : Type) :=
| Ok (a : A)
| Raise (e : exn).
Arguments Ok {A} a.
Arguments Raise {A} e.

Definition bind {A B} (c : result A) (f : A -> result B) : result B :=
  match c with
  | Ok a => f a
  | Raise e => Raise e
  end.

Declare Scope py_scope.
Delimit Scope py_scope with py.
Notation "x <- c ;; k" := (bind c (fun x => k))
  (at level 61, c at next level, right associativity) : py_scope.
Local Open Scope py_scope.

(** [try: c  except Exception: h] *)
Definition try_except {A} (c : result A) (h : A) : A :=
  match c with
  | Ok a => a
  | Raise _ => h
  end.

(** A dict with insertion order; [dict_get d k] is [d[k]]. *)
Definition dict (V : Type) := list (str * V).

Fixpoint dict_get {V} (d : dict V) (k : str) : result V :=
  match d with
  | [] => Raise (KeyError k)
  | (k', v) :: d' => if str_eqb k' k then Ok v else dict_get d' k
  end.

Definition keys {V} (d : dict V) : list str := map fst d.

(* ================================================================== *)
(** * int() *)

(** [int(s)] on a string of decimal digits.  The groups handed to [int]
    by [find_dates] are matched by digit classes only, so the other
    spellings [int] accepts (sign, underscores, surrounding blanks) do not
    reach it; here they raise. *)
Fixpoint int_digits (acc : Z) (s : str) : result Z :=
  match s with
  | [] => Ok acc
  | c :: s' =>
    match decimal_value c with
    | Some v => int_digits (10 * acc + v) s'
    | None => Raise ValueError
    end
  end.

Definition py_int (s : str) : result Z :=
  match s with
  | [] => Raise ValueError
  | _ => int_digits 0 s
  end.

(** Decimal rendering of a non-negative integer. *)
Fixpoint dec_digits (fuel : nat) (n : Z) (acc : str) : str :=
  match fuel with
  | O => acc
  | S f =>
    let acc' := (48 + n mod 10) :: acc in
    if n <? 10 then acc' else dec_digits f (n / 10) acc'
  end.

Definition str_of_int (n : Z) : str :=
  dec_digits (S (Z.to_nat (Z.log2 n))) n [].

(** [%0wd] for a non-negative integer. *)
Definition zero_pad (w : nat) (n : Z) : str :=
  let s := str_of_int n in
  repeat 48 (w - length s) ++ s.

(* ================================================================== *)
(** * datetime.date *)

Record date := mkdate { year : Z; month : Z; day : Z }.

Definition is_leap (y : Z) : bool :=
  (y mod 4 =? 0) && (negb (y mod 100 =? 0) || (y mod 400 =? 0)).

Definition days_in_month (y m : Z) : Z :=
  if m =? 2 then (if is_leap y then 29 else 28)
  else if (m =? 4) || (m =? 6) || (m =? 9) || (m =? 11) then 30
  else 31.

Definition valid_date (y m d : Z) : bool :=
  (1 <=? y) && (y <=? 9999) && (1 <=? m) && (m <=? 12)
  && (1 <=? d) && (d <=? days_in_month y m).

(** [dt.date(y, m, d)]: raises ValueError outside the Gregorian calendar
    of years 1..9999. *)
Definition date_new (y m d : Z) : result date :=
  if valid_date y m d then Ok (mkdate y m d) else Raise ValueError.

Definition date_compare (a b : date) : comparison :=
  match year a ?= year b with
  | Eq => match month a ?= month b with
          | Eq => day a ?= day b
          | c => c
          end
  | c => c
  end.

(** [a <= b] and [a > b] on dates. *)
Definition date_le (a b : date) : bool :=
  match date_compare a b with Gt => false | _ => true end.

Definition date_gt (a b : date) : bool :=
  match date_compare a b with Gt => true | _ => false end.

(** [max(l)]: the first greatest item; ValueError on an empty list. *)
Fixpoint max_from (best : date) (l : list date) : date :=
  match l with
  | [] => best
  | d :: l' => max_from (if date_gt d best then d else best) l'
  end.

Definition py_max (l : list date) : result date :=
  match l with
  | [] => Raise ValueError
  | d :: l' => Ok (max_from d l')
  end.

(** [str(d)]: ISO format. *)
Definition date_str (d : date) : str :=
  zero_pad 4 (year d) ++ u "-" ++ zero_pad 2 (month d) ++ u "-"
  ++ zero_pad 2 (day d).

(* ================================================================== *)
(** * Floats *)

(** Python's [float] is IEEE 754 binary64, with round-to-nearest-even;
    [spec_float] at precision 53 is that format. *)
Module Float.

Definition float := spec_float.
Definition prec : Z := 53.
Definition emax : Z := 1024.

(** [float(z)], also the implicit conversion of [int + float] and
    [int / float]. *)
Definition of_int (z : Z) : float := binary_normalize prec emax z 0 false.
Definition add : float -> float -> float := SFadd prec emax.
Definition div : float -> float -> float := SFdiv prec emax.
Definition leb : float -> float -> bool := SFleb.

(** The literals [0.1] (0x1.999999999999ap-4) and [30.0]. *)
Definition lit_0_1 : float := S754_finite false 0x1999999999999A (-56).
Definition lit_30_0 : float := S754_finite false 0x1E000000000000 (-48).

(** The exact value of a finite float. *)
Definition to_Q (f : float) : Q :=
  match f with
  | S754_finite s m e =>
    (inject_Z (cond_Zopp s (Zpos m)) * Qpower (2 # 1) e)%Q
  | _ => 0%Q
  end.

Definition round_half_even (num den : Z) : Z :=
  let q := num / den in
  match 2 * (num mod den) ?= den with
  | Lt => q
  | Gt => q + 1
  | Eq => if Z.even q then q else q + 1
  end.

(** [format(f, ".1f")]: the exact value rounded half-even to one decimal. *)
Definition format_1f (f : float) : str :=
  match f with
  | S754_nan => u "nan"
  | S754_infinity s => (if s then u "-" else []) ++ u "inf"
  | S754_zero s => (if s then u "-" else []) ++ u "0.0"
  | S754_finite s m e =>
    let t := if 0 <=? e then 10 * Zpos m * 2 ^ e
             else round_half_even (10 * Zpos m) (2 ^ (- e)) in
    (if s then u "-" else []) ++ str_of_int (t / 10) ++ u "."
    ++ str_of_int (t mod 10)
  end.

End Float.

(* ================================================================== *)
(** * Regular expressions *)

Module Re.

(** Members of a character set. *)
Inductive citem :=
| One (c : Z)              (* a literal character *)
| Range (lo hi : Z)        (* lo-hi *)
| Digit                    (* \d *)
| Space.                   (* \s *)

(** The fragment of the pattern language the program uses.  The only
    starred expression in its patterns is a character class. *)
Inductive regex :=
| Eps
| Lit (c : Z)
| Set_ (cs : list citem)
| Cat (r1 r2 : regex)
| Alt (r1 r2 : regex)
| Opt (r : regex)              (* r?, greedy *)
| Star (cs : list citem)       (* [cs]*, greedy *)
| Rep (n : nat) (r : regex)    (* r{n} *)
| Grp (r : regex).             (* capturing group *)

Definition citem_mem (i : citem) (c : Z) : bool :=
  match i with
  | One a => c =? a
  | Range lo hi => (lo <=? c) && (c <=? hi)
  | Digit => isdecimal c
  | Space => isspace c
  end.

Definition set_mem (cs : list citem) (c : Z) : bool :=
  existsb (fun i => citem_mem i c) cs.

(** A matcher state: the groups closed so far (in closing order, which in
    the program's patterns is their numbering), the number of characters
    read since the match began, and the text still to read. *)
Record mstate := { caps : list str; pos : nat; todo : str }.

(** Remainders after a greedy run of class characters, longest run first,
    each with the number of characters read. *)
Fixpoint star_tails (cs : list citem) (n : nat) (s : str) : list (nat * str) :=
  match s with
  | [] => [(n, [])]
  | c :: s' => (if set_mem cs c then star_tails cs (S n) s' else []) ++ [(n, s)]
  end.

Definition step (ok : Z -> bool) (st : mstate) : list mstate :=
  match todo st with
  | a :: s' =>
    if ok a then [{| caps := caps st; pos := S (pos st); todo := s' |}] else []
  | [] => []
  end.

(** All ways to match [r] at the head of the text, in the order the
    backtracking matcher tries them; the matcher returns the first. *)
Fixpoint run (r : regex) (st : mstate) : list mstate :=
  match r with
  | Eps => [st]
  | Lit c => step (fun a => a =? c) st
  | Set_ cs => step (set_mem cs) st
  | Cat r1 r2 => flat_map (run r2) (run r1 st)
  | Alt r1 r2 => run r1 st ++ run r2 st
  | Opt r1 => run r1 st ++ [st]
  | Star cs =>
    map (fun t => {| caps := caps st; pos := fst t; todo := snd t |})
        (star_tails cs (pos st) (todo st))
  | Rep n r1 => Nat.iter n (fun sts => flat_map (run r1) sts) [st]
  | Grp r1 =>
    map (fun st' =>
           {| caps := caps st' ++ [firstn (pos st' - pos st) (todo st)];
              pos := pos st'; todo := todo st' |})
        (run r1 st)
  end.

(** A match object: [m.group(0)], [m.groups()], and the text after the
    match. *)
Record match_obj := { group0 : str; groups : list str; rest : str }.

(** Matching anchored at the head of [s]. *)
Definition match_at (r : regex) (s : str) : option match_obj :=
  match run r {| caps := []; pos := 0; todo := s |} with
  | [] => None
  | st :: _ =>
    Some {| group0 := firstn (pos st) s; groups := caps st; rest := todo st |}
  end.

(** [re.search(r, s)]: the match at the leftmost position that has one. *)
Fixpoint search (r : regex) (s : str) : option match_obj :=
  match match_at r s with
  | Some m => Some m
  | None =>
    match s with
    | [] => None
    | _ :: s' => search r s'
    end
  end.

(** [re.finditer(r, s)]: leftmost matches, left to right, each search
    resuming where the previous match ended.  After an empty match the scan
    moves on one character; no pattern of the program matches the empty
    string. *)
Fixpoint finditer_from (fuel : nat) (r : regex) (s : str) : list match_obj :=
  match fuel with
  | O => []
  | S fuel' =>
    match match_at r s with
    | Some m =>
      m :: match group0 m, s with
           | [], [] => []
           | [], _ :: s' => finditer_from fuel' r s'
           | _ :: _, _ => finditer_from fuel' r (rest m)
           end
    | None =>
      match s with
      | [] => []
      | _ :: s' => finditer_from fuel' r s'
      end
    end
  end.

Definition finditer (r : regex) (s : str) : list match_obj :=
  finditer_from (S (length s)) r s.

(** Pattern-building helpers. *)
Definition ch (a : ascii) : Z := Z.of_N (N_of_ascii a).
Definition seq (rs : list regex) : regex := fold_right Cat Eps rs.
Definition lits (s : str) : regex := seq (map Lit s).
Definition d : regex := Set_ [Digit].
Definition oneof (s : str) : regex := Set_ (map One s).
Definition range (lo hi : ascii) : regex := Set_ [Range (ch lo) (ch hi)].

End Re.

(* ================================================================== *)
(** * The program *)

Import Re.

(** ** Rules *)

(** The values stored in [RULES]. *)
Inductive value :=
| VStrs (l : list str)
| VInts (l : list Z)
| VInt (n : Z)
| VPatterns (p : dict regex).

Definition as_strs (v : value) : result (list str) :=
  match v with VStrs l => Ok l | _ => Raise TypeError end.
Definition as_ints (v : value) : result (list Z) :=
  match v with VInts l => Ok l | _ => Raise TypeError end.
Definition as_int (v : value) : result Z :=
  match v with VInt n => Ok n | _ => Raise TypeError end.
Definition as_patterns (v : value) : result (dict regex) :=
  match v with VPatterns p => Ok p | _ => Raise TypeError end.

(** r"(?:(?:\d{3}-\d{2}-\d{5})|(?:\d{10}))" *)
Definition brn_pattern : regex :=
  Alt (seq [Rep 3 d; Lit (ch "-"); Rep 2 d; Lit (ch "-"); Rep 5 d])
      (Rep 10 d).

Definition RULES : dict (dict value) :=
  [ (u "사업자등록증",
     [ (u "fields_required",
        VStrs [u "상호"; u "대표자"; u "사업자등록번호"; u "사업장"; u "소재지"]);
       (u "patterns", VPatterns [ (u "사업자등록번호", brn_pattern) ]) ]);
    (u "소독필증",
     [ (u "fields_required",
        VStrs [u "소독"; u "대상"; u "시설"; u "기간"; u "실시자"]);
       (u "summer_months", VInts [4; 5; 6; 7; 8; 9]);
       (u "summer_max_months", VInt 2);
       (u "winter_max_months", VInt 3) ]) ].

(** [RULES[doc][key]] *)
Definition rule (doc key : str) : result value :=
  r <- dict_get RULES doc ;; dict_get r key.

(** ** Date patterns *)

Definition sep : regex := oneof (u "./-").
Definition year20 : regex := seq [lits (u "20"); Rep 2 d].
(** 0[1-9]|1[0-2] *)
Definition month2 : regex :=
  Alt (seq [Lit (ch "0"); range "1" "9"]) (seq [Lit (ch "1"); range "0" "2"]).
(** 0[1-9]|[12]\d|3[01] *)
Definition day2 : regex :=
  Alt (seq [Lit (ch "0"); range "1" "9"])
      (Alt (seq [oneof (u "12"); d]) (seq [Lit (ch "3"); oneof (u "01")])).
Definition ws : regex := Star [Space].

(** r"(20\d{2})[./-](0[1-9]|1[0-2])[./-](0[1-9]|[12]\d|3[01])" *)
Definition pattern_ymd : regex :=
  seq [Grp year20; sep; Grp month2; sep; Grp day2].

(** r"(0[1-9]|1[0-2])[./-](0[1-9]|[12]\d|3[01])[./-](20\d{2})" *)
Definition pattern_mdy : regex :=
  seq [Grp month2; sep; Grp day2; sep; Grp year20].

(** r"(20\d{2})\s*년\s*(1[0-2]|0?\d)\s*월\s*(3[01]|[12]?\d)\s*일" *)
Definition pattern_korean : regex :=
  seq [Grp year20; ws; lits (u "년"); ws;
       Grp (Alt (seq [Lit (ch "1"); range "0" "2"])
                (seq [Opt (Lit (ch "0")); d]));
       ws; lits (u "월"); ws;
       Grp (Alt (seq [Lit (ch "3"); oneof (u "01")])
                (seq [Opt (oneof (u "12")); d]));
       ws; lits (u "일")].

Definition DATE_PATTERNS : list regex :=
  [pattern_ymd; pattern_mdy; pattern_korean].

(** ** Utils *)

(** The body of the [try] in [find_dates] for one match: the date to
    append, if the match has three groups. *)
Definition date_of_match (m : match_obj) : result (option date) :=
  match groups m with
  | [g0; g1; g2] =>
    if contains (u "년") (group0 m) then
      y <- py_int g0 ;; mth <- py_int g1 ;; dd <- py_int g2 ;;
      dt <- date_new y mth dd ;; Ok (Some dt)
    else if (length g0 =? 4)%nat then
      y <- py_int g0 ;; mth <- py_int g1 ;; dd <- py_int g2 ;;
      dt <- date_new y mth dd ;; Ok (Some dt)
    else
      y <- py_int g2 ;; mth <- py_int g0 ;; dd <- py_int g1 ;;
      dt <- date_new y mth dd ;; Ok (Some dt)
  | _ => Ok None
  end.

Definition find_dates (text : str) : list date :=
  flat_map
    (fun p =>
       flat_map
         (fun m =>
            match try_except (date_of_match m) None with
            | Some dt => [dt]
            | None => []
            end)
         (finditer p text))
    DATE_PATTERNS.

Definition month_diff (d1 d2 : date) : Float.float :=
  Float.add
    (Float.of_int ((year d1 - year d2) * 12 + (month d1 - month d2)))
    (Float.div (Float.of_int (day d1 - day d2)) Float.lit_30_0).

(** ** Checks *)

Record CheckResult := { name : str; passed : bool; detail : str }.

Definition is_some {A} (o : option A) : bool :=
  match o with Some _ => true | None => false end.

(** One turn of the required-field loop. *)
Definition field_check (text kw : str) : CheckResult :=
  let found := contains kw text in
  {| name := u "필수항목 포함 여부: " ++ kw;
     passed := found;
     detail := u "'" ++ kw ++ u "' " ++ (if found then u "존재" else u "부재") |}.

Definition check_business_registration (text : str)
  : result (list CheckResult) :=
  fields <- (v <- rule (u "사업자등록증") (u "fields_required") ;; as_strs v) ;;
  let results := map (field_check text) fields in
  patt <- (v <- rule (u "사업자등록증") (u "patterns") ;;
           p <- as_patterns v ;; dict_get p (u "사업자등록번호")) ;;
  let m := search patt text in
  Ok (results ++
      [ {| name := u "사업자등록번호 형식";
           passed := is_some m;
           detail := u "감지값: " ++
                     match m with Some m => group0 m | None => u "-" end |} ]).

Definition in_months (m : Z) (l : list Z) : bool := existsb (Z.eqb m) l.

(** [today] is the value of [dt.date.today()], taken to be the same at
    every call within one invocation. *)
Definition check_disinfection_certificate (today : date) (text : str)
  : result (list CheckResult) :=
  fields <- (v <- rule (u "소독필증") (u "fields_required") ;; as_strs v) ;;
  let results := map (field_check text) fields in
  let all_dates := filter (fun dt => date_le dt today) (find_dates text) in
  latest <- match all_dates with
            | [] => Ok None
            | _ => (mx <- py_max all_dates ;; Ok (Some mx))
            end ;;
  let results :=
    results ++
    [ {| name := u "소독일(최신 과거일자) 추출";
         passed := is_some latest;
         detail := u "감지값: " ++
                   match latest with
                   | Some dt => date_str dt
                   | None => u "None"
                   end |} ] in
  results <-
    match latest with
    | Some latest =>
      summer_months <- (v <- rule (u "소독필증") (u "summer_months") ;;
                        as_ints v) ;;
      max_months <-
        (if in_months (month latest) summer_months
         then (v <- rule (u "소독필증") (u "summer_max_months") ;; as_int v)
         else (v <- rule (u "소독필증") (u "winter_max_months") ;; as_int v)) ;;
      let elapsed := month_diff today latest in
      let ok := Float.leb elapsed
                  (Float.add (Float.of_int max_months) Float.lit_0_1) in
      let season := if in_months (month latest) summer_months
                    then u "하절기(2개월)" else u "동절기(3개월)" in
      Ok (results ++
          [ {| name := u "소독주기 충족 여부";
               passed := ok;
               detail := u "판정기준: " ++ season ++ u ", 경과: "
                         ++ Float.format_1f elapsed ++ u "개월" |} ])
    | None => Ok results
    end ;;
  let has_future := existsb (fun dt => date_gt dt today) (find_dates text) in
  Ok (results ++
      [ {| name := u "미래 날짜 등록 여부";
           passed := negb has_future;
           detail := if has_future then u "미래 날짜 발견됨" else u "미발견" |} ]).

(** A checker reads the clock and the text. *)
Definition checker := date -> str -> result (list CheckResult).

Definition DOC_CHECKERS : dict checker :=
  [ (u "사업자등록증", fun _ => check_business_registration);
    (u "소독필증", check_disinfection_certificate) ].

(** [DOC_CHECKERS[doc_type]] *)
Definition dispatch (doc_type : str) : result checker :=
  dict_get DOC_CHECKERS doc_type.

(** [DOC_CHECKERS[doc_type](text)] *)
Definition run_check (doc_type : str) (today : date) (text : str)
  : result (list CheckResult) :=
  c <- dispatch doc_type ;; c today text.

(* ================================================================== *)
(** * The rest of the two scripts *)

(** ** Text extraction *)

(** What the PDF library hands over: for each page of [reader.pages],
    the value of [page.extract_text()], a string or None. *)
Definition page_text := option str.

(** [t or ""] *)
Definition or_empty (t : page_text) : str :=
  match t with
  | Some s => s
  | None => []
  end.

(** [sep.join(l)] *)
Fixpoint join (sep : str) (l : list str) : str :=
  match l with
  | [] => []
  | x :: l' =>
    match l' with
    | [] => x
    | _ :: _ => x ++ sep ++ join sep l'
    end
  end.

(** The line feed, "\n". *)
Definition newline : Z := 10.

(** [extract_text_from_pdf] of [app_cloud_min.py], given the pages. *)
Definition extract_text_from_pdf (pages : list page_text) : str :=
  join [newline] (map or_empty pages).

(** The extraction loop of [app_basic.py]: [text += page.extract_text() or ""]. *)
Definition basic_text (pages : list page_text) : str :=
  fold_left (fun text p => text ++ or_empty p) pages [].

(** [text[:n]] for a non-negative [n]. *)
Definition prefix (n : nat) (text : str) : str := firstn n text.

(** What [app_basic.py] shows: [text[:2000]]. *)
Definition basic_shown (pages : list page_text) : str :=
  prefix 2000 (basic_text pages).

(** ** UI *)

(** What the script puts on the page. *)
Inductive ui :=
| st_info (s : str)
| st_error (s : str)
| st_spinner (s : str)
| st_subheader (s : str)
| st_text (s : str)
| st_write (s : str)
| st_markdown (s : str) (unsafe_allow_html : bool).

(** [sum(1 for r in results if r.passed)] *)
Definition passed_cnt (results : list CheckResult) : Z :=
  fold_left Z.add (map (fun _ => 1) (filter passed results)) 0.

(** [len(results)] *)
Definition total_cnt (results : list CheckResult) : Z :=
  Z.of_nat (length results).

(** The argument of [st.markdown] for one result. *)
Definition result_markdown (r : CheckResult) : str :=
  let color := if passed r then u "green" else u "red" in
  u "**• " ++ name r ++ u "** — <span style='color:" ++ color ++ u "'>"
  ++ (if passed r then u "적합" else u "부적합") ++ u "</span><br/>↳ "
  ++ detail r.

(** The body of the script from [if uploaded:] on (lines 125-148): the
    calls made on the page, and the exception that ends the run, if any.
    [uploaded] holds the pages of the uploaded PDF. *)
Definition on_upload (doc_type : str) (today : date)
           (uploaded : option (list page_text)) : list ui * option exn :=
  match uploaded with
  | Some pages =>
    let text := extract_text_from_pdf pages in
    let shown := [st_spinner (u "PDF 텍스트 추출 중...")] in
    match text with
    | [] =>
      (shown ++
       [st_error (u "이 PDF에서는 텍스트를 추출하지 못했습니다. 스캔본(이미지)일 가능성이 있습니다.")],
       None)
    | _ :: _ =>
      let shown :=
        shown ++ [st_subheader (u "📜 추출 텍스트 (일부)");
                  st_text (prefix 4000 text);
                  st_spinner (u "규칙 점검 중...")] in
      match run_check doc_type today text with
      | Raise e => (shown, Some e)
      | Ok results =>
        (shown ++
         [st_subheader (u "✅ 자동 점검 요약");
          st_write (str_of_int (passed_cnt results) ++ u " / "
                    ++ str_of_int (total_cnt results) ++ u " 항목 통과");
          st_subheader (u "🔍 상세 결과")]
         ++ map (fun r => st_markdown (result_markdown r) true) results,
         None)
      end
    end
  | None => ([st_info (u "PDF를 업로드하면 자동 점검을 시작합니다.")], None)
  end.

(** [st.selectbox(label, options)] returns the option at the chosen
    index. *)
Definition selectbox (options : list str) (choice : nat) : str :=
  nth choice options [].

(** The script: the document type comes from the select box over
    [list(DOC_CHECKERS.keys())]. *)
Definition run_script (choice : nat) (today : date)
           (uploaded : option (list page_text)) : list ui * option exn :=
  on_upload (selectbox (keys DOC_CHECKERS) choice) today uploaded.

(* ================================================================== *)
(** * Vocabulary of the properties *)

(** The notions the theorems are stated with: occurrences, the single
    results of the checkers, the calendar order, the sets of strings the
    patterns describe. *)

(** [p] occurs in [s] as a contiguous substring. *)
Definition occurs (p s : str) : Prop := exists pre post, s = pre ++ p ++ post.

Definition business_fields : list str :=
  [u "상호"; u "대표자"; u "사업자등록번호"; u "사업장"; u "소재지"].

Definition disinfection_fields : list str :=
  [u "소독"; u "대상"; u "시설"; u "기간"; u "실시자"].

Definition field_name (kw : str) : str := u "필수항목 포함 여부: " ++ kw.

(** The last result of the business-registration checker. *)
Definition format_check (text : str) : CheckResult :=
  let m := search brn_pattern text in
  {| name := u "사업자등록번호 형식";
     passed := is_some m;
     detail := u "감지값: " ++
               match m with Some m => group0 m | None => u "-" end |}.

(** The latest extracted date that is not after [today]. *)
Definition latest_of (today : date) (text : str) : option date :=
  match filter (fun dt => date_le dt today) (find_dates text) with
  | [] => None
  | d0 :: l => Some (max_from d0 l)
  end.

Definition date_found_check (latest : option date) : CheckResult :=
  {| name := u "소독일(최신 과거일자) 추출";
     passed := is_some latest;
     detail := u "감지값: " ++
               match latest with
               | Some dt => date_str dt
               | None => u "None"
               end |}.

Definition is_summer (latest : date) : bool :=
  in_months (month latest) [4; 5; 6; 7; 8; 9].

Definition threshold (latest : date) : Z :=
  if is_summer latest then 2 else 3.

Definition compliance_check (today latest : date) : CheckResult :=
  {| name := u "소독주기 충족 여부";
     passed := Float.leb (month_diff today latest)
                 (Float.add (Float.of_int (threshold latest)) Float.lit_0_1);
     detail := u "판정기준: "
               ++ (if is_summer latest then u "하절기(2개월)" else u "동절기(3개월)")
               ++ u ", 경과: " ++ Float.format_1f (month_diff today latest)
               ++ u "개월" |}.

Definition future_check (today : date) (text : str) : CheckResult :=
  let has_future := existsb (fun dt => date_gt dt today) (find_dates text) in
  {| name := u "미래 날짜 등록 여부";
     passed := negb has_future;
     detail := if has_future then u "미래 날짜 발견됨" else u "미발견" |}.

(** [a] is strictly before [b] in the calendar. *)
Definition date_lt (a b : date) : Prop :=
  year a < year b
  \/ (year a = year b
      /\ (month a < month b \/ (month a = month b /\ day a < day b))).

(** [latest] is the greatest extracted date that is not after [today]. *)
Definition is_latest (today : date) (text : str) (latest : date) : Prop :=
  In latest (find_dates text)
  /\ ~ date_lt today latest
  /\ forall dt, In dt (find_dates text) -> ~ date_lt today dt ->
                ~ date_lt latest dt.

Definition may_first : date := mkdate 2024 5 1.

Section MatcherVocabulary.

Local Open Scope nat_scope.

(** The width of a pattern whose matches all have the same length. *)
Fixpoint width (r : regex) : option nat :=
  match r with
  | Eps => Some 0
  | Lit _ | Set_ _ => Some 1
  | Cat r1 r2 =>
    match width r1, width r2 with
    | Some a, Some b => Some (a + b)
    | _, _ => None
    end
  | Alt r1 r2 =>
    match width r1, width r2 with
    | Some a, Some b => if a =? b then Some a else None
    | _, _ => None
    end
  | Opt _ | Star _ => None
  | Rep n r1 =>
    match width r1 with
    | Some a => Some (n * a)
    | None => None
    end
  | Grp r1 => width r1
  end.

Definition start (s : str) : mstate := {| caps := []; pos := 0; todo := s |}.

(** [reads P r]: leaving the groups alone, [r] reads off the head of the
    text exactly the strings of [P]. *)
Definition reads (P : str -> Prop) (r : regex) : Prop :=
  forall st st',
    In st' (run r st)
    <-> exists w, P w /\ todo st = (w ++ todo st')%list
                  /\ pos st' = pos st + length w /\ caps st' = caps st.

Definition lang_cat (P Q : str -> Prop) (w : str) : Prop :=
  exists w1 w2, w = (w1 ++ w2)%list /\ P w1 /\ Q w2.

Fixpoint lang_rep (n : nat) (P : str -> Prop) (w : str) : Prop :=
  match n with
  | O => w = []
  | S n' => lang_cat (lang_rep n' P) P w
  end.

End MatcherVocabulary.

(** A string of [n] decimal digits. *)
Definition digits (n : nat) (w : str) : Prop :=
  length w = n /\ Forall (fun c => isdecimal c = true) w.

(** The strings the registration-number pattern accepts: DDD-DD-DDDDD,
    or ten digits. *)
Definition brn_form (w : str) : Prop :=
  (exists a b c, w = a ++ u "-" ++ b ++ u "-" ++ c
                 /\ digits 3 a /\ digits 2 b /\ digits 5 c)
  \/ digits 10 w.

(** The numeric form YYYY sep MM sep DD of a date. *)
Definition numeric_form (y s1 m s2 dd : Z) : str :=
  zero_pad 4 y ++ [s1] ++ zero_pad 2 m ++ [s2] ++ zero_pad 2 dd.

Definition is_sep (c : Z) : Prop := In c (u "./-").

Definition ascii_only (s : str) : Prop := Forall (fun c => c < 128) s.

(** The quotients [dd / 30.0] are zero or of magnitude at most one, with
    exponent between -57 and -52. *)
Definition small_quotient (x : Float.float) : bool :=
  match x with
  | S754_zero _ => true
  | S754_finite _ mx ex =>
    (-57 <=? ex) && (ex <=? -52) && (Zpos mx <=? 2 ^ (- ex))
  | _ => false
  end.

Definition zrange (lo : Z) (n : nat) : list Z :=
  map (fun i => lo + Z.of_nat i) (List.seq 0 n).

(** ** Further notions *)

(** Negation of floats, text free of markup, the notations of a date,
    and the strings a pattern reads together with the groups it closes. *)

(** [y] is the negation of [x], up to the sign of a zero. *)
Definition negates (x y : Float.float) : Prop :=
  y = SFopp x \/ exists s s', x = S754_zero s /\ y = S754_zero s'.

(** A character that cannot open or close a tag or an entity. *)
Definition plain (c : Z) : Prop := c <> 60 /\ c <> 62 /\ c <> 38.

Definition plainb (c : Z) : bool :=
  negb ((c =? 60) || (c =? 62) || (c =? 38)).

Definition plain_result (r : CheckResult) : Prop :=
  Forall plain (name r) /\ Forall plain (detail r).

Section DenotationVocabulary.

Local Open Scope nat_scope.

(** [n] strings of [P] in a row, with their groups. *)
Fixpoint rep_g (n : nat) (P : str -> list str -> Prop)
         (w : str) (gs : list str) : Prop :=
  match n with
  | O => w = [] /\ gs = []
  | S n' => exists w1 g1 w2 g2,
      w = (w1 ++ w2)%list /\ gs = (g1 ++ g2)%list
      /\ rep_g n' P w1 g1 /\ P w2 g2
  end.

(** [glang r w gs]: the pattern [r] can read the string [w], closing the
    groups [gs] on the way. *)
Fixpoint glang (r : regex) (w : str) (gs : list str) : Prop :=
  match r with
  | Eps => w = [] /\ gs = []
  | Lit c => w = [c] /\ gs = []
  | Set_ cs => (exists a, w = [a] /\ set_mem cs a = true) /\ gs = []
  | Cat r1 r2 =>
    exists w1 g1 w2 g2,
      w = (w1 ++ w2)%list /\ gs = (g1 ++ g2)%list
      /\ glang r1 w1 g1 /\ glang r2 w2 g2
  | Alt r1 r2 => glang r1 w gs \/ glang r2 w gs
  | Opt r1 => glang r1 w gs \/ (w = [] /\ gs = [])
  | Star cs => Forall (fun a => set_mem cs a = true) w /\ gs = []
  | Rep n r1 => rep_g n (glang r1) w gs
  | Grp r1 => exists g1, glang r1 w g1 /\ gs = (g1 ++ [w])%list
  end.

(** [matches P r]: the states the matcher returns for [r] are exactly
    those reached by reading a string of [P] and closing its groups. *)
Definition matches (P : str -> list str -> Prop) (r : regex) : Prop :=
  forall st st',
    In st' (run r st)
    <-> exists w gs, P w gs /\ todo st = (w ++ todo st')%list
                     /\ pos st' = pos st + length w
                     /\ caps st' = (caps st ++ gs)%list.

End DenotationVocabulary.

(** 1[0-2]|0?\d and 3[01]|[12]?\d, the month and day groups of the long
    form. *)
Definition kmonth : regex :=
  Alt (seq [Lit (ch "1"); range "0" "2"]) (seq [Opt (Lit (ch "0")); d]).
Definition kday : regex :=
  Alt (seq [Lit (ch "3"); oneof (u "01")]) (seq [Opt (oneof (u "12")); d]).

Definition spaces (w : str) : Prop := Forall (fun c => isspace c = true) w.

(** A group of digits and the integer [int()] reads from it. *)
Definition reads_int (n : nat) (w : str) (lo hi v : Z) : Prop :=
  digits n w /\ py_int w = Ok v /\ lo <= v <= hi.

(** The three notations of a date, with the integers [int()] reads from
    the groups. *)
Definition written_ymd (w : str) (y mth dd : Z) : Prop :=
  exists Y s1 M s2 D,
    w = Y ++ [s1] ++ M ++ [s2] ++ D /\ is_sep s1 /\ is_sep s2
    /\ reads_int 4 Y 2000 2099 y /\ reads_int 2 M 1 12 mth
    /\ reads_int 2 D 1 31 dd.

Definition written_mdy (w : str) (y mth dd : Z) : Prop :=
  exists M s1 D s2 Y,
    w = M ++ [s1] ++ D ++ [s2] ++ Y /\ is_sep s1 /\ is_sep s2
    /\ reads_int 4 Y 2000 2099 y /\ reads_int 2 M 1 12 mth
    /\ reads_int 2 D 1 31 dd.

Definition written_korean (w : str) (y mth dd : Z) : Prop :=
  exists Y a1 a2 M a3 a4 D a5,
    w = Y ++ a1 ++ u "년" ++ a2 ++ M ++ a3 ++ u "월" ++ a4 ++ D ++ a5 ++ u "일"
    /\ spaces a1 /\ spaces a2 /\ spaces a3 /\ spaces a4 /\ spaces a5
    /\ reads_int 4 Y 2000 2099 y
    /\ (reads_int 1 M 0 9 mth \/ reads_int 2 M 0 12 mth)
    /\ (reads_int 1 D 0 9 dd \/ reads_int 2 D 10 31 dd).

Definition written (w : str) (y mth dd : Z) : Prop :=
  written_ymd w y mth dd \/ written_mdy w y mth dd \/ written_korean w y mth dd.

(** The numeric form MM sep DD sep YYYY of a date. *)
Definition mdy_form (m s1 dd s2 y : Z) : str :=
  zero_pad 2 m ++ [s1] ++ zero_pad 2 dd ++ [s2] ++ zero_pad 4 y.

(** The long notation: the year, 년, the month, 월, the day, 일, with white
    space allowed around the three words. *)
Definition korean_form (Y a1 a2 M a3 a4 D a5 : str) : str :=
  Y ++ a1 ++ u "년" ++ a2 ++ M ++ a3 ++ u "월" ++ a4 ++ D ++ a5 ++ u "일".

(** The characters of the long notation. *)
Definition long_char (c : Z) : Prop :=
  isdecimal c = true \/ isspace c = true \/ In c [45380; 50900; 51068].

(** [accepts r w]: the matcher can read exactly [w] with [r], closing no
    group. *)
Definition accepts (r : regex) (w : str) : bool :=
  existsb (fun st => match todo st, caps st with
                     | [], [] => true
                     | _, _ => false
                     end)
          (run r (start w)).

(** A string one of the date patterns reads in full. *)
Definition date_like (w : str) : Prop :=
  exists p gs, In p DATE_PATTERNS /\ glang p w gs.

(** The places of a text where the matcher can read a date pattern, each
    with the number of characters read. *)
Definition date_like_at (text : str) : list (nat * nat) :=
  flat_map
    (fun j =>
       flat_map (fun p => map (fun st => (j, pos st))
                              (run p (start (skipn j text))))
                DATE_PATTERNS)
    (List.seq 0 (S (length text))).

(* ================================================================== *)
(** * The embedding on examples *)

Example date_str_example :
  date_str (mkdate 2024 5 1) = u "2024-05-01".
Proof. reflexivity. Qed.

Example u_example : u "년월일" = [0xB144; 0xC6D4; 0xC77C].
Proof. reflexivity. Qed.

Example float_lit_30 : Float.of_int 30 = Float.lit_30_0.
Proof. reflexivity. Qed.

Example float_lit_tenth :
  Float.div (Float.of_int 1) (Float.of_int 10) = Float.lit_0_1.
Proof. reflexivity. Qed.

Example format_1f_examples :
  Float.format_1f (Float.div (Float.of_int 44) Float.lit_30_0) = u "1.5"
  /\ Float.format_1f (Float.of_int 4) = u "4.0"
  /\ Float.format_1f (Float.div (Float.of_int 1) (Float.of_int 4)) = u "0.2"
  /\ Float.format_1f (Float.div (Float.of_int (-3)) (Float.of_int 4)) = u "-0.8".
Proof. repeat split; reflexivity. Qed.

(* ================================================================== *)
(** * Facts about strings *)

Lemma startswith_prefix (s p : str) :
  startswith s p = true <-> exists post, s = p ++ post.
Proof.
  revert s; induction p as [|a p IH]; intros s.
  - split; [intros _; exists s; reflexivity | destruct s; reflexivity].
  - destruct s as [|b s]; cbn [startswith].
    + split; [discriminate | intros [post H]; discriminate].
    + rewrite andb_true_iff, Z.eqb_eq, IH. split.
      * intros [-> [post ->]]. exists post. reflexivity.
      * intros [post H]. injection H as -> ->. split; [reflexivity | now exists post].
Qed.

Lemma contains_occurs (p s : str) : contains p s = true <-> occurs p s.
Proof.
  induction s as [|c s IH].
  - cbn [contains]. rewrite orb_false_r, startswith_prefix. split.
    + intros [post H]. exists [], post. exact H.
    + intros [pre [post H]]. destruct pre; [now exists post | discriminate].
  - cbn [contains]. rewrite orb_true_iff, startswith_prefix, IH. split.
    + intros [[post H] | [pre [post H]]].
      * exists [], post. exact H.
      * exists (c :: pre), post. simpl. now rewrite H.
    + intros [pre [post H]]. destruct pre as [|c' pre].
      * left. now exists post.
      * right. injection H as _ H. now exists pre, post.
Qed.

(* ================================================================== *)
(** * The checkers, unfolded *)

Lemma business_fields_rule :
  rule (u "사업자등록증") (u "fields_required") = Ok (VStrs business_fields).
Proof. reflexivity. Qed.

Lemma disinfection_fields_rule :
  rule (u "소독필증") (u "fields_required") = Ok (VStrs disinfection_fields).
Proof. reflexivity. Qed.

Lemma check_business_registration_unfold (text : str) :
  check_business_registration text
  = Ok (map (field_check text) business_fields ++ [format_check text]).
Proof. reflexivity. Qed.

Lemma summer_months_rule :
  rule (u "소독필증") (u "summer_months") = Ok (VInts [4; 5; 6; 7; 8; 9]).
Proof. reflexivity. Qed.

Lemma summer_max_rule :
  rule (u "소독필증") (u "summer_max_months") = Ok (VInt 2).
Proof. reflexivity. Qed.

Lemma winter_max_rule :
  rule (u "소독필증") (u "winter_max_months") = Ok (VInt 3).
Proof. reflexivity. Qed.

Lemma check_disinfection_certificate_unfold (today : date) (text : str) :
  check_disinfection_certificate today text
  = Ok (map (field_check text) disinfection_fields
        ++ [date_found_check (latest_of today text)]
        ++ match latest_of today text with
           | Some latest => [compliance_check today latest]
           | None => []
           end
        ++ [future_check today text]).
Proof.
  unfold check_disinfection_certificate, latest_of.
  rewrite disinfection_fields_rule, summer_months_rule, summer_max_rule,
    winter_max_rule.
  cbn [bind as_strs as_ints as_int].
  destruct (filter (fun dt => date_le dt today) (find_dates text)) as [|d0 l].
  - reflexivity.
  - cbn [py_max bind].
    unfold compliance_check, threshold, is_summer.
    destruct (in_months (month (max_from d0 l)) [4; 5; 6; 7; 8; 9]) eqn:E;
      cbn [bind as_int]; rewrite <- !app_assoc; reflexivity.
Qed.

(* ================================================================== *)
(** * Facts about dates *)

Ltac date_order :=
  unfold date_le, date_gt, date_lt, date_compare in *; cbn [year month day] in *;
  repeat match goal with
         | H : context [?a ?= ?b] |- _ => destruct (Z.compare_spec a b)
         | |- context [?a ?= ?b] => destruct (Z.compare_spec a b)
         end;
  try discriminate; try tauto; try lia.

Lemma date_gt_lt (a b : date) : date_gt a b = true <-> date_lt b a.
Proof. split; intros H; date_order. Qed.

Lemma date_le_not_lt (a b : date) : date_le a b = true <-> ~ date_lt b a.
Proof. split; intros H; date_order. Qed.

Lemma date_le_negb_gt (a b : date) : date_le a b = negb (date_gt a b).
Proof. unfold date_le, date_gt. now destruct (date_compare a b). Qed.

Lemma date_le_refl (a : date) : date_le a a = true.
Proof. date_order. Qed.

Lemma date_le_trans (a b c : date) :
  date_le a b = true -> date_le b c = true -> date_le a c = true.
Proof. intros H1 H2. date_order. Qed.

Lemma date_le_antisym (a b : date) :
  date_le a b = true -> date_le b a = true -> a = b.
Proof.
  destruct a as [ya ma da], b as [yb mb db]. intros H1 H2.
  assert (ya = yb /\ ma = mb /\ da = db) as (-> & -> & ->) by date_order.
  reflexivity.
Qed.

Lemma date_gt_le (a b : date) : date_gt a b = true -> date_le b a = true.
Proof. intros H. date_order. Qed.

Lemma date_not_gt_le (a b : date) : date_gt a b = false -> date_le a b = true.
Proof. rewrite date_le_negb_gt. now intros ->. Qed.

Lemma max_from_spec (l : list date) (best : date) :
  In (max_from best l) (best :: l)
  /\ forall x, In x (best :: l) -> date_le x (max_from best l) = true.
Proof.
  revert best; induction l as [|x l IH]; intros best; cbn [max_from].
  - split; [now left | intros x [<- | []]; apply date_le_refl].
  - destruct (IH (if date_gt x best then x else best)) as [Hin Hle]. split.
    + destruct Hin as [Hin | Hin]; [| now right; right].
      rewrite <- Hin. destruct (date_gt x best); [right; now left | now left].
    + intros y [<- | [<- | Hy]].
      * eapply date_le_trans; [| apply Hle; now left].
        destruct (date_gt x best) eqn:E; [now apply date_gt_le | apply date_le_refl].
      * eapply date_le_trans; [| apply Hle; now left].
        destruct (date_gt x best) eqn:E; [apply date_le_refl | now apply date_not_gt_le].
      * apply Hle. now right.
Qed.

Lemma latest_of_None (today : date) (text : str) :
  latest_of today text = None
  <-> forall dt, In dt (find_dates text) -> date_lt today dt.
Proof.
  unfold latest_of. split.
  - intros H dt Hin.
    destruct (date_le dt today) eqn:E.
    + assert (Hf : In dt (filter (fun dt => date_le dt today) (find_dates text)))
        by (apply filter_In; auto).
      destruct (filter _ _); [destruct Hf | discriminate].
    + apply date_gt_lt. rewrite date_le_negb_gt in E.
      now destruct (date_gt dt today).
  - intros H.
    destruct (filter _ _) as [|d0 l] eqn:E; [reflexivity | exfalso].
    assert (Hin : In d0 (filter (fun dt => date_le dt today) (find_dates text)))
      by (rewrite E; now left).
    apply filter_In in Hin as [Hin Hle].
    apply date_le_not_lt in Hle. auto.
Qed.

Lemma latest_of_Some (today : date) (text : str) (latest : date) :
  latest_of today text = Some latest <-> is_latest today text latest.
Proof.
  unfold latest_of, is_latest.
  destruct (filter (fun dt => date_le dt today) (find_dates text))
    as [|d0 l] eqn:E.
  - split; [discriminate |]. intros (Hin & Hle & _). exfalso.
    assert (Hf : In latest (filter (fun dt => date_le dt today) (find_dates text)))
      by (apply filter_In; split; [exact Hin | now apply date_le_not_lt]).
    rewrite E in Hf. destruct Hf.
  - destruct (max_from_spec l d0) as [Hin Hmax].
    rewrite <- E in Hin, Hmax.
    apply filter_In in Hin as [Hin Hle].
    assert (Hbest : forall dt, In dt (find_dates text) -> ~ date_lt today dt ->
                               date_le dt (max_from d0 l) = true).
    { intros dt Hdt Hnl. apply Hmax. apply filter_In. split; [exact Hdt|].
      now apply date_le_not_lt. }
    split.
    + intros [= <-]. split; [exact Hin|]. split; [now apply date_le_not_lt|].
      intros dt Hdt Hnl. apply date_le_not_lt. now apply Hbest.
    + intros (Hin' & Hle' & Hmax'). f_equal.
      apply date_le_antisym.
      * apply date_le_not_lt. apply Hmax'; [exact Hin | now apply date_le_not_lt].
      * now apply Hbest.
Qed.

(* ================================================================== *)
(** * Facts about the matcher *)

Section Matcher.

Local Open Scope nat_scope.

Lemma step_spec (ok : Z -> bool) (st st' : mstate) :
  In st' (step ok st)
  <-> exists a, todo st = a :: todo st' /\ ok a = true
                /\ pos st' = S (pos st) /\ caps st' = caps st.
Proof.
  unfold step. destruct st as [gs n s], st' as [gs' n' s']; cbn [todo pos caps].
  destruct s as [|a s].
  - split; [intros [] | intros (a & H & _); discriminate].
  - destruct (ok a) eqn:E.
    + split.
      * intros [[= <- <- <-] | []]. now exists a.
      * intros (b & [= <- <-] & _ & -> & ->). now left.
    + split; [intros [] |]. intros (b & [= <- <-] & H & _). congruence.
Qed.

Lemma star_tails_spec (cs : list citem) (s : str) (n n' : nat) (s' : str) :
  In (n', s') (star_tails cs n s)
  -> exists w, s = (w ++ s')%list /\ n' = n + length w.
Proof.
  revert n; induction s as [|c s IH]; intros n; cbn [star_tails].
  - intros [[= <- <-] | []]. exists []. split; [reflexivity | cbn; lia].
  - intros H. apply in_app_or in H as [H | [[= <- <-] | []]].
    + destruct (set_mem cs c); [| destruct H].
      apply IH in H as (w & -> & ->). exists (c :: w).
      split; [reflexivity | cbn; lia].
    + exists []. split; [reflexivity | cbn; lia].
Qed.

(** Whatever the matcher returns is the text with a prefix read off, and
    the position has advanced by the length of that prefix. *)
Lemma run_consumes (r : regex) :
  forall st st', In st' (run r st)
  -> exists w, todo st = (w ++ todo st')%list /\ pos st' = pos st + length w.
Proof.
  induction r as [| c | cs | r1 IH1 r2 IH2 | r1 IH1 r2 IH2 | r1 IH1 | cs
                  | n r1 IH1 | r1 IH1]; intros st st'; cbn [run].
  - intros [<- | []]. exists []. split; [reflexivity | cbn; lia].
  - intros H. apply step_spec in H as (a & H1 & _ & H2 & _).
    exists [a]. split; [exact H1 | cbn; lia].
  - intros H. apply step_spec in H as (a & H1 & _ & H2 & _).
    exists [a]. split; [exact H1 | cbn; lia].
  - intros H. apply in_flat_map in H as (mid & Hm & H).
    apply IH1 in Hm as (w1 & E1 & P1). apply IH2 in H as (w2 & E2 & P2).
    exists (w1 ++ w2)%list. rewrite E1, E2, P2, P1, length_app, <- app_assoc.
    split; [reflexivity | lia].
  - intros H. apply in_app_or in H as [H | H]; [now apply IH1 | now apply IH2].
  - intros H. apply in_app_or in H as [H | [<- | []]]; [now apply IH1 |].
    exists []. split; [reflexivity | cbn; lia].
  - intros H. apply in_map_iff in H as ([n' s'] & <- & H).
    cbn [todo pos fst snd]. now apply star_tails_spec in H.
  - revert st'. induction n as [|n IHn]; intros st'; cbn [Nat.iter].
    + intros [<- | []]. exists []. split; [reflexivity | cbn; lia].
    + intros H. apply in_flat_map in H as (mid & Hm & H).
      apply IHn in Hm as (w1 & E1 & P1). apply IH1 in H as (w2 & E2 & P2).
      exists (w1 ++ w2)%list. rewrite E1, E2, P2, P1, length_app, <- app_assoc.
      split; [reflexivity | lia].
  - intros H. apply in_map_iff in H as (st1 & <- & H). cbn [todo pos].
    now apply IH1.
Qed.

Lemma run_width (r : regex) :
  forall k st st', width r = Some k -> In st' (run r st) -> pos st' = pos st + k.
Proof.
  induction r as [| c | cs | r1 IH1 r2 IH2 | r1 IH1 r2 IH2 | r1 IH1 | cs
                  | n r1 IH1 | r1 IH1]; intros k st st'; cbn [run width].
  - intros [= <-] [<- | []]. lia.
  - intros [= <-] H. apply step_spec in H as (a & _ & _ & H & _). lia.
  - intros [= <-] H. apply step_spec in H as (a & _ & _ & H & _). lia.
  - destruct (width r1) as [a|]; [| discriminate].
    destruct (width r2) as [b|]; [| discriminate].
    intros [= <-] H. apply in_flat_map in H as (mid & Hm & H).
    rewrite (IH2 b mid st' eq_refl H), (IH1 a st mid eq_refl Hm). lia.
  - destruct (width r1) as [a|]; [| discriminate].
    destruct (width r2) as [b|]; [| discriminate].
    destruct (a =? b) eqn:E; [| discriminate]. apply Nat.eqb_eq in E. subst b.
    intros [= <-] H. apply in_app_or in H as [H | H]; eauto.
  - discriminate.
  - discriminate.
  - destruct (width r1) as [a|]; [| discriminate]. intros [= <-].
    revert st'. induction n as [|n IHn]; intros st'; cbn [Nat.iter].
    + intros [<- | []]. lia.
    + intros H. apply in_flat_map in H as (mid & Hm & H).
      rewrite (IH1 a mid st' eq_refl H), (IHn mid Hm). lia.
  - intros Hw H. apply in_map_iff in H as (st1 & <- & H). cbn [pos]. eauto.
Qed.

Lemma firstn_length_app {A} (w s : list A) : firstn (length w) (w ++ s) = w.
Proof. induction w; cbn; congruence. Qed.

(** A match splits the text into what it read and what is left. *)
Lemma match_at_Some (r : regex) (s : str) (m : match_obj) :
  match_at r s = Some m
  -> s = (group0 m ++ rest m)%list
     /\ exists st', In st' (run r (start s))
                    /\ groups m = caps st' /\ rest m = todo st'
                    /\ pos st' = length (group0 m).
Proof.
  unfold match_at. fold (start s).
  destruct (run r (start s)) as [|st' l] eqn:E; [discriminate |].
  intros [= <-]. cbn [group0 rest groups].
  assert (Hin : In st' (run r (start s))) by (rewrite E; now left).
  destruct (run_consumes r _ _ Hin) as (w & Hs & Hp). cbn in Hs, Hp.
  rewrite Hp, Hs, firstn_length_app. split; [reflexivity |].
  exists st'. repeat split; [now left | assumption].
Qed.

Lemma match_at_None (r : regex) (s : str) :
  match_at r s = None <-> run r (start s) = [].
Proof.
  unfold match_at. fold (start s).
  destruct (run r (start s)); split; intros H; congruence.
Qed.

Lemma match_at_width (r : regex) (k : nat) (s : str) (m : match_obj) :
  width r = Some k -> match_at r s = Some m -> length (group0 m) = k.
Proof.
  intros Hw H. apply match_at_Some in H as (_ & st' & Hin & _ & _ & Hp).
  rewrite <- Hp. now rewrite (@run_width r k (start s) st' Hw Hin).
Qed.

(** [search] returns the match at the first position that has one. *)
Lemma search_Some (r : regex) (s : str) (m : match_obj) :
  search r s = Some m
  -> exists pre suf, s = (pre ++ suf)%list /\ match_at r suf = Some m
       /\ forall pre' suf', s = (pre' ++ suf')%list -> length pre' < length pre
                            -> match_at r suf' = None.
Proof.
  induction s as [|c s IH]; cbn [search].
  - destruct (match_at r []) eqn:E; [| discriminate]. intros [= ->].
    exists [], []. repeat split; [exact E |]. cbn. lia.
  - destruct (match_at r (c :: s)) eqn:E.
    + intros [= ->]. exists [], (c :: s). repeat split; [exact E |]. cbn. lia.
    + intros H. apply IH in H as (pre & suf & -> & Hm & Hfirst).
      exists (c :: pre), suf. repeat split; [exact Hm |].
      intros pre' suf' Heq Hlen. destruct pre' as [|c' pre'].
      * cbn in Heq. now rewrite <- Heq.
      * injection Heq as _ Heq. apply (Hfirst pre' suf' Heq). cbn in Hlen. lia.
Qed.

Lemma search_None (r : regex) (s : str) :
  search r s = None
  <-> forall pre suf, s = (pre ++ suf)%list -> match_at r suf = None.
Proof.
  induction s as [|c s IH]; cbn [search].
  - destruct (match_at r []) eqn:E.
    + split; [discriminate |]. intros H. now rewrite (H [] []) in E.
    + split; [| reflexivity]. intros _ pre suf Heq.
      destruct pre, suf; try discriminate. exact E.
  - destruct (match_at r (c :: s)) eqn:E.
    + split; [discriminate |]. intros H. now rewrite (H [] (c :: s)) in E.
    + rewrite IH. split.
      * intros H pre suf Heq. destruct pre as [|c' pre].
        -- cbn in Heq. now rewrite <- Heq.
        -- injection Heq as _ Heq. now apply (H pre suf).
      * intros H pre suf Heq. apply (H (c :: pre) suf). cbn. now rewrite Heq.
Qed.

End Matcher.

(* ================================================================== *)
(** * Facts about find_dates *)

Lemma str_eqb_eq (a b : str) : str_eqb a b = true <-> a = b.
Proof.
  revert b; induction a as [|x a IH]; intros [|y b]; cbn [str_eqb];
    try (split; [discriminate | congruence]); [tauto |].
  rewrite andb_true_iff, Z.eqb_eq, IH. split.
  - now intros [-> ->].
  - now intros [= -> ->].
Qed.

Lemma str_neq (a b : str) : str_eqb a b = false -> a <> b.
Proof. intros H E. apply str_eqb_eq in E. congruence. Qed.

Lemma find_dates_In (text : str) (dt : date) :
  In dt (find_dates text)
  <-> exists p m, In p DATE_PATTERNS /\ In m (finditer p text)
                  /\ date_of_match m = Ok (Some dt).
Proof.
  unfold find_dates. rewrite in_flat_map. split.
  - intros (p & Hp & H). apply in_flat_map in H as (m & Hm & H).
    exists p, m. repeat split; try assumption.
    destruct (date_of_match m) as [[dt'|]|e]; cbn in H;
      try contradiction. destruct H as [-> | []]. reflexivity.
  - intros (p & m & Hp & Hm & H). exists p. split; [exact Hp |].
    apply in_flat_map. exists m. split; [exact Hm |]. rewrite H. now left.
Qed.

Lemma date_new_valid (y m dd : Z) (dt : date) :
  date_new y m dd = Ok dt
  -> dt = mkdate y m dd /\ valid_date y m dd = true.
Proof.
  unfold date_new. destruct (valid_date y m dd); [| discriminate].
  now intros [= <-].
Qed.

Lemma date_of_match_valid (m : match_obj) (dt : date) :
  date_of_match m = Ok (Some dt)
  -> valid_date (year dt) (month dt) (day dt) = true.
Proof.
  unfold date_of_match.
  destruct (groups m) as [|g0 [|g1 [|g2 [|g3 l]]]]; try discriminate.
  assert (H : forall a b c,
             (y <- py_int a ;; mth <- py_int b ;; dd <- py_int c ;;
              dt' <- date_new y mth dd ;; Ok (Some dt')) = Ok (Some dt)
             -> valid_date (year dt) (month dt) (day dt) = true).
  { intros a b c. destruct (py_int a) as [y|]; [| discriminate].
    destruct (py_int b) as [mth|]; [| discriminate].
    destruct (py_int c) as [dd|]; [| discriminate]. cbn [bind].
    destruct (date_new y mth dd) as [dt'|] eqn:E; [| discriminate].
    intros [= <-]. now apply date_new_valid in E as [-> E]. }
  destruct (contains _ _); [apply H |].
  destruct (length g0 =? 4)%nat; apply H.
Qed.

(** Every extracted date is a date of the calendar. *)
Lemma find_dates_valid (text : str) (dt : date) :
  In dt (find_dates text) -> valid_date (year dt) (month dt) (day dt) = true.
Proof.
  intros H. apply find_dates_In in H as (p & m & _ & _ & H).
  now apply date_of_match_valid in H.
Qed.

(* ================================================================== *)
(** * Required-field checks *)

Lemma field_checks_spec (text : str) (fields : list str) :
  Forall2 (fun kw r => name r = u "필수항목 포함 여부: " ++ kw
                       /\ (passed r = true <-> occurs kw text))
          fields (map (field_check text) fields).
Proof.
  induction fields as [|kw fields IH]; constructor; [| exact IH].
  split; [reflexivity |]. apply contains_occurs.
Qed.

(** C2. For every text and both document types, the result list starts
    with one result per required keyword of the type, in order, and the
    result of a keyword has [passed = true] exactly when the keyword occurs
    in the text as a contiguous run of the same code points; on the empty
    text every keyword result has [passed = false]. *)
Theorem keyword_checks_are_substring_tests (today : date) (text : str) :
  (exists fields rs,
      rule (u "사업자등록증") (u "fields_required") = Ok (VStrs fields)
      /\ check_business_registration text = Ok rs
      /\ Forall2 (fun kw r => name r = u "필수항목 포함 여부: " ++ kw
                              /\ (passed r = true <-> occurs kw text))
                 fields (firstn (length fields) rs))
  /\ (exists fields rs,
         rule (u "소독필증") (u "fields_required") = Ok (VStrs fields)
         /\ check_disinfection_certificate today text = Ok rs
         /\ Forall2 (fun kw r => name r = u "필수항목 포함 여부: " ++ kw
                                 /\ (passed r = true <-> occurs kw text))
                    fields (firstn (length fields) rs))
  /\ (exists rs, check_business_registration [] = Ok rs
                 /\ Forall (fun r => passed r = false) (firstn 5 rs))
  /\ (exists rs, check_disinfection_certificate today [] = Ok rs
                 /\ Forall (fun r => passed r = false) (firstn 5 rs)).
Proof.
  split; [| split; [| split]].
  - exists business_fields, (map (field_check text) business_fields
                             ++ [format_check text]).
    split; [reflexivity |]. split; [apply check_business_registration_unfold |].
    replace (length business_fields)
      with (length (map (field_check text) business_fields))
      by apply length_map.
    rewrite firstn_app, firstn_all, Nat.sub_diag, app_nil_r.
    apply field_checks_spec.
  - eexists disinfection_fields, _.
    split; [reflexivity |].
    split; [apply check_disinfection_certificate_unfold |].
    replace (length disinfection_fields)
      with (length (map (field_check text) disinfection_fields))
      by apply length_map.
    rewrite firstn_app, firstn_all, Nat.sub_diag, app_nil_r.
    apply field_checks_spec.
  - eexists. split; [apply check_business_registration_unfold |].
    repeat constructor.
  - eexists. split; [apply check_disinfection_certificate_unfold |].
    repeat constructor.
Qed.

(* ================================================================== *)
(** * The future-date check *)

Lemma future_check_passed (today : date) (text : str) :
  passed (future_check today text) = true
  <-> forall dt, In dt (find_dates text) -> ~ date_lt today dt.
Proof.
  cbn [future_check passed]. rewrite negb_true_iff. split.
  - intros H dt Hin Hlt. apply date_gt_lt in Hlt.
    assert (E : existsb (fun dt => date_gt dt today) (find_dates text) = true)
      by (apply existsb_exists; eauto).
    congruence.
  - intros H. destruct (existsb _ _) eqn:E; [exfalso | reflexivity].
    apply existsb_exists in E as (dt & Hin & Hgt).
    apply date_gt_lt in Hgt. now apply (H dt).
Qed.

(** C4. The last result of the disinfection-certificate checker is the
    future-date check, and it has [passed = true] exactly when no date
    returned by [find_dates text] is strictly after [today]; when
    [find_dates text] is empty it passes. *)
Theorem future_check_iff_no_later_date (today : date) (text : str) :
  exists front r,
    check_disinfection_certificate today text = Ok (front ++ [r])
    /\ name r = u "미래 날짜 등록 여부"
    /\ (passed r = true
        <-> forall dt, In dt (find_dates text) -> ~ date_lt today dt)
    /\ (find_dates text = [] -> passed r = true).
Proof.
  exists (map (field_check text) disinfection_fields
          ++ [date_found_check (latest_of today text)]
          ++ match latest_of today text with
             | Some latest => [compliance_check today latest]
             | None => []
             end),
         (future_check today text).
  split.
  { rewrite check_disinfection_certificate_unfold. f_equal. }
  split; [reflexivity |]. split; [apply future_check_passed |].
  intros E. apply future_check_passed. rewrite E. intros dt [].
Qed.

(* ================================================================== *)
(** * No past date *)

(** C5. When every extracted date is strictly after [today] (in
    particular when there is none), the disinfection-certificate checker
    returns the five keyword results, then the date-found result with
    [passed = false], then the future-date result, and nothing else: no
    compliance result is in the list. *)
Theorem no_past_date_omits_compliance (today : date) (text : str) :
  (forall dt, In dt (find_dates text) -> date_lt today dt)
  -> exists rs found future,
      check_disinfection_certificate today text = Ok rs
      /\ rs = map (field_check text) disinfection_fields ++ [found; future]
      /\ name found = u "소독일(최신 과거일자) 추출"
      /\ passed found = false
      /\ name future = u "미래 날짜 등록 여부"
      /\ Forall (fun r => name r <> u "소독주기 충족 여부") rs.
Proof.
  intros H. apply latest_of_None in H.
  eexists _, (date_found_check None), (future_check today text).
  rewrite check_disinfection_certificate_unfold, H.
  split; [reflexivity |]. split; [reflexivity |].
  repeat split.
  repeat constructor; apply str_neq; reflexivity.
Qed.

Lemma no_past_date_omits_compliance_witness :
  (forall dt, In dt (find_dates (u "소독 대상 2099-01-01")) ->
              date_lt (mkdate 2024 6 15) dt)
  /\ exists rs found future,
      check_disinfection_certificate (mkdate 2024 6 15) (u "소독 대상 2099-01-01")
      = Ok rs
      /\ rs = map (field_check (u "소독 대상 2099-01-01")) disinfection_fields
              ++ [found; future]
      /\ name found = u "소독일(최신 과거일자) 추출"
      /\ passed found = false
      /\ name future = u "미래 날짜 등록 여부"
      /\ Forall (fun r => name r <> u "소독주기 충족 여부") rs.
Proof.
  assert (H : forall dt, In dt (find_dates (u "소독 대상 2099-01-01")) ->
                         date_lt (mkdate 2024 6 15) dt).
  { intros dt Hin. vm_compute in Hin. destruct Hin as [<- | []].
    left. cbn. lia. }
  split; [exact H |].
  exact (@no_past_date_omits_compliance (mkdate 2024 6 15)
           (u "소독 대상 2099-01-01") H).
Defined.

(* ================================================================== *)
(** * Dispatch *)

Lemma dict_get_spec {V} (d : dict V) (k : str) :
  (In k (keys d) -> exists v, In (k, v) d /\ dict_get d k = Ok v)
  /\ (~ In k (keys d) -> dict_get d k = Raise (KeyError k)).
Proof.
  induction d as [|[k' v] d [IH1 IH2]]; cbn [dict_get keys map fst In].
  - split; [intros [] | reflexivity].
  - destruct (str_eqb k' k) eqn:E.
    + apply str_eqb_eq in E. subst k'. split.
      * intros _. exists v. split; [now left | reflexivity].
      * intros H. exfalso. apply H. now left.
    + apply str_neq in E. split.
      * intros [H | H]; [contradiction |].
        destruct (IH1 H) as (v' & Hin & Hget). exists v'. split; [now right | exact Hget].
      * intros H. apply IH2. tauto.
Qed.

(** C8. Looking up a document type in [DOC_CHECKERS] returns the
    checker registered under it: the business-registration checker for
    its key, the disinfection-certificate checker for its key.  For a
    string that is not a key the lookup raises; the exception is Python's
    [KeyError] carrying the unknown type.  The lookup is all that
    [dispatch] does. *)
Theorem dispatch_registered_or_error (doc_type : str) :
  dispatch doc_type = dict_get DOC_CHECKERS doc_type
  /\ keys DOC_CHECKERS = [u "사업자등록증"; u "소독필증"]
  /\ dispatch (u "사업자등록증") = Ok (fun _ => check_business_registration)
  /\ dispatch (u "소독필증") = Ok check_disinfection_certificate
  /\ (In doc_type (keys DOC_CHECKERS)
      -> exists c, In (doc_type, c) DOC_CHECKERS /\ dispatch doc_type = Ok c)
  /\ (~ In doc_type (keys DOC_CHECKERS)
      -> dispatch doc_type = Raise (KeyError doc_type)).
Proof.
  split; [reflexivity |]. split; [reflexivity |].
  split; [reflexivity |]. split; [reflexivity |].
  apply dict_get_spec.
Qed.

(* ================================================================== *)
(** * Order of the results *)

(** C9. Both checkers return their results in the order of the rules:
    one result per required keyword, in the order of the keywords in
    [RULES], then the format check (business registration), or the
    date-found check, the compliance check when there is a date not after
    [today], and the future-date check (disinfection certificate). *)
Theorem results_in_rule_order (today : date) (text : str) :
  rule (u "사업자등록증") (u "fields_required") = Ok (VStrs business_fields)
  /\ rule (u "소독필증") (u "fields_required") = Ok (VStrs disinfection_fields)
  /\ (exists rs,
         check_business_registration text = Ok rs
         /\ rs = map (field_check text) business_fields ++ [format_check text]
         /\ map name rs
            = map field_name business_fields ++ [u "사업자등록번호 형식"])
  /\ (exists rs,
         check_disinfection_certificate today text = Ok rs
         /\ ((exists latest,
                 is_latest today text latest
                 /\ rs = map (field_check text) disinfection_fields
                         ++ [date_found_check (Some latest);
                             compliance_check today latest;
                             future_check today text]
                 /\ map name rs
                    = map field_name disinfection_fields
                      ++ [u "소독일(최신 과거일자) 추출"; u "소독주기 충족 여부";
                          u "미래 날짜 등록 여부"])
             \/ ((forall dt, In dt (find_dates text) -> date_lt today dt)
                 /\ rs = map (field_check text) disinfection_fields
                         ++ [date_found_check None; future_check today text]
                 /\ map name rs
                    = map field_name disinfection_fields
                      ++ [u "소독일(최신 과거일자) 추출"; u "미래 날짜 등록 여부"]))).
Proof.
  split; [reflexivity |]. split; [reflexivity |]. split.
  - eexists. split; [apply check_business_registration_unfold |].
    split; [reflexivity |].
    unfold business_fields, field_name, format_check.
    cbn [map app name field_check]. reflexivity.
  - eexists. split; [apply check_disinfection_certificate_unfold |].
    destruct (latest_of today text) as [latest|] eqn:E.
    + left. exists latest. split; [now apply latest_of_Some |].
      unfold disinfection_fields, field_name, date_found_check,
        compliance_check, future_check.
      cbn [map app name field_check]. split; reflexivity.
    + right. split; [now apply latest_of_None |].
      unfold disinfection_fields, field_name, date_found_check, future_check.
      cbn [map app name field_check]. split; reflexivity.
Qed.

(* ================================================================== *)
(** * No exception escapes *)


(* ================================================================== *)
(** * Patterns as sets of strings *)

Section Reads.

Local Open Scope nat_scope.

Lemma mstate_ext (a b : mstate) :
  caps a = caps b -> pos a = pos b -> todo a = todo b -> a = b.
Proof. destruct a, b; cbn; congruence. Qed.

Lemma reads_ext (P Q : str -> Prop) (r : regex) :
  (forall w, P w <-> Q w) -> reads P r -> reads Q r.
Proof.
  intros HPQ H st st'. rewrite (H st st'). split.
  - intros (w & Hw & Hr). exists w. split; [now apply HPQ | exact Hr].
  - intros (w & Hw & Hr). exists w. split; [now apply HPQ | exact Hr].
Qed.

Lemma reads_Eps : reads (fun w => w = []) Eps.
Proof.
  intros st st'. cbn [run In]. split.
  - intros [<- | []]. exists []. split; [reflexivity |].
    split; [reflexivity |]. split; [cbn; lia | reflexivity].
  - intros (w & -> & Ht & Hp & Hc). left. cbn in Ht, Hp.
    apply mstate_ext; [congruence | lia | congruence].
Qed.

Lemma reads_step (ok : Z -> bool) (r : regex) :
  (forall st, run r st = step ok st)
  -> reads (fun w => exists a, w = [a] /\ ok a = true) r.
Proof.
  intros Hr st st'. rewrite Hr, step_spec. split.
  - intros (a & Ht & Hok & Hp & Hc). exists [a].
    split; [now exists a |]. repeat split; [exact Ht | cbn; lia | exact Hc].
  - intros (w & (a & -> & Hok) & Ht & Hp & Hc). exists a.
    repeat split; [exact Ht | exact Hok | cbn in Hp; lia | exact Hc].
Qed.

Lemma reads_Lit (c : Z) : reads (fun w => w = [c]) (Lit c).
Proof.
  eapply reads_ext; [| apply (@reads_step (fun a => (a =? c)%Z)); reflexivity].
  intros w. split.
  - intros (a & -> & H). apply Z.eqb_eq in H. now subst.
  - intros ->. exists c. split; [reflexivity | apply Z.eqb_refl].
Qed.

Lemma reads_Set (cs : list citem) :
  reads (fun w => exists a, w = [a] /\ set_mem cs a = true) (Set_ cs).
Proof. apply reads_step. reflexivity. Qed.

Lemma reads_Cat (P Q : str -> Prop) (r1 r2 : regex) :
  reads P r1 -> reads Q r2 -> reads (lang_cat P Q) (Cat r1 r2).
Proof.
  intros H1 H2 st st'. cbn [run]. rewrite in_flat_map. split.
  - intros (mid & Hm & H). apply H1 in Hm as (w1 & Hw1 & Ht1 & Hp1 & Hc1).
    apply H2 in H as (w2 & Hw2 & Ht2 & Hp2 & Hc2).
    exists (w1 ++ w2)%list. split; [now exists w1, w2 |].
    rewrite Ht1, Ht2, Hp2, Hp1, Hc2, Hc1, length_app, <- app_assoc.
    repeat split. lia.
  - intros (w & (w1 & w2 & -> & Hw1 & Hw2) & Ht & Hp & Hc).
    exists {| caps := caps st; pos := pos st + length w1;
              todo := (w2 ++ todo st')%list |}.
    split.
    + apply H1. exists w1. cbn [caps pos todo].
      rewrite Ht, <- app_assoc. now repeat split.
    + apply H2. exists w2. cbn [caps pos todo].
      rewrite length_app in Hp. repeat split; [exact Hw2 | lia | exact Hc].
Qed.

Lemma reads_Alt (P Q : str -> Prop) (r1 r2 : regex) :
  reads P r1 -> reads Q r2 -> reads (fun w => P w \/ Q w) (Alt r1 r2).
Proof.
  intros H1 H2 st st'. cbn [run]. rewrite in_app_iff, (H1 st st'), (H2 st st').
  split.
  - intros [(w & Hw & Hr) | (w & Hw & Hr)]; exists w; tauto.
  - intros (w & [Hw | Hw] & Hr); [left | right]; now exists w.
Qed.

Lemma reads_Rep (P : str -> Prop) (n : nat) (r : regex) :
  reads P r -> reads (lang_rep n P) (Rep n r).
Proof.
  intros H. induction n as [|n IH].
  - exact reads_Eps.
  - intros st st'. rewrite <- (reads_Cat IH H st st').
    cbn [run Nat.iter]. reflexivity.
Qed.

End Reads.

Lemma digits_rep (n : nat) (w : str) :
  lang_rep n (fun w => exists a, w = [a] /\ set_mem [Digit] a = true) w
  <-> digits n w.
Proof.
  unfold digits. revert w; induction n as [|n IH]; intros w; cbn [lang_rep].
  - split; [intros ->; split; [reflexivity | constructor] |].
    intros [H _]. now destruct w.
  - unfold lang_cat. split.
    + intros (w1 & w2 & -> & H1 & a & -> & Ha). apply IH in H1 as [Hl Hf].
      cbn in Ha. rewrite orb_false_r in Ha.
      rewrite length_app, Hl. cbn. split; [lia |].
      apply Forall_app. split; [exact Hf | now repeat constructor].
    + intros [Hl Hf].
      destruct (exists_last (l := w)) as (w1 & a & ->);
        [intros ->; discriminate |].
      rewrite length_app in Hl. cbn in Hl.
      apply Forall_app in Hf as [Hf Ha]. inversion Ha as [|? ? Ha' _]; subst.
      exists w1, [a]. split; [reflexivity |]. split.
      * apply IH. split; [lia | exact Hf].
      * exists a. split; [reflexivity |]. cbn. now rewrite Ha'.
Qed.

Lemma reads_digits (n : nat) : reads (digits n) (Rep n d).
Proof.
  eapply reads_ext; [apply digits_rep |]. apply reads_Rep, reads_Set.
Qed.

Lemma reads_brn : reads brn_form brn_pattern.
Proof.
  unfold brn_pattern, seq. cbn [fold_right].
  assert (H1 : reads
                 (lang_cat (digits 3)
                    (lang_cat (fun w => w = [ch "-"])
                       (lang_cat (digits 2)
                          (lang_cat (fun w => w = [ch "-"])
                             (lang_cat (digits 5) (fun w => w = []))))))
                 (Cat (Rep 3 d)
                    (Cat (Lit (ch "-"))
                       (Cat (Rep 2 d)
                          (Cat (Lit (ch "-")) (Cat (Rep 5 d) Eps)))))).
  { repeat apply reads_Cat;
      first [apply reads_digits | apply reads_Lit | apply reads_Eps]. }
  eapply reads_ext; [| apply (reads_Alt H1 (reads_digits 10))].
  intros w. unfold brn_form, lang_cat. split.
  - intros [(a & ? & -> & Ha & ? & ? & -> & -> & b & ? & -> & Hb
             & ? & ? & -> & -> & c & ? & -> & Hc & ->) | H];
      [left | now right].
    exists a, b, c. rewrite app_nil_r. split; [reflexivity | auto].
  - intros [(a & b & c & -> & Ha & Hb & Hc) | H]; [left | now right].
    exists a, (u "-" ++ b ++ u "-" ++ c). split; [reflexivity |].
    split; [exact Ha |].
    exists (u "-"), (b ++ u "-" ++ c). split; [reflexivity |].
    split; [reflexivity |].
    exists b, (u "-" ++ c). split; [reflexivity |]. split; [exact Hb |].
    exists (u "-"), c. split; [reflexivity |]. split; [reflexivity |].
    exists c, []. rewrite app_nil_r. split; [reflexivity | auto].
Qed.

(** Matching at the head of a text, for a pattern without groups. *)
Lemma reads_match_at (P : str -> Prop) (r : regex) (s : str) :
  reads P r
  -> (forall m, match_at r s = Some m
                -> P (group0 m) /\ s = group0 m ++ rest m)
     /\ (forall w post, P w -> s = w ++ post -> match_at r s <> None).
Proof.
  intros Hr. split.
  - intros m H. apply match_at_Some in H as (Hs & st' & Hin & _ & Hrest & Hp).
    split; [| exact Hs].
    apply Hr in Hin as (w & Hw & Ht & _). cbn in Ht.
    rewrite Hs, Hrest in Ht. apply app_inv_tail in Ht. now subst.
  - intros w post Hw -> H. apply match_at_None in H.
    assert (Hin : In {| caps := []; pos := length w; todo := post |}
                     (run r (start (w ++ post)))).
    { apply Hr. exists w. now repeat split. }
    rewrite H in Hin. destruct Hin.
Qed.

(** [search] with a pattern without groups: found exactly when some
    substring is in the pattern's set, and then the returned match is such
    a substring at the leftmost position that has one. *)
Lemma reads_search (P : str -> Prop) (r : regex) (s : str) :
  reads P r
  -> (search r s = None <-> ~ exists pre w post, s = pre ++ w ++ post /\ P w)
     /\ (forall m, search r s = Some m
                   -> exists pre post,
                        s = pre ++ group0 m ++ post /\ P (group0 m)
                        /\ forall pre' w' post',
                             s = pre' ++ w' ++ post' -> P w'
                             -> (length pre <= length pre')%nat).
Proof.
  intros Hr. split.
  - rewrite search_None. split.
    + intros H (pre & w & post & Hs & Hw).
      apply (proj2 (reads_match_at (w ++ post) Hr) w post Hw eq_refl).
      now apply (H pre).
    + intros H pre suf Hs. destruct (match_at r suf) as [m|] eqn:E;
        [exfalso | reflexivity].
      apply (proj1 (reads_match_at suf Hr)) in E as [Hw Hsuf].
      apply H. exists pre, (group0 m), (rest m). split; [congruence | exact Hw].
  - intros m H. apply search_Some in H as (pre & suf & Hs & Hm & Hfirst).
    apply (proj1 (reads_match_at suf Hr)) in Hm as [Hw Hsuf].
    exists pre, (rest m). split; [congruence |]. split; [exact Hw |].
    intros pre' w' post' Hs' Hw'.
    destruct (Nat.le_gt_cases (length pre) (length pre')) as [Hle | Hlt];
      [exact Hle | exfalso].
    apply (proj2 (reads_match_at (w' ++ post') Hr) w' post' Hw' eq_refl).
    now apply (Hfirst pre').
Qed.

Lemma digits_firstn (n : nat) (ds : str) :
  (n <= length ds)%nat -> Forall (fun c => isdecimal c = true) ds
  -> digits n (firstn n ds).
Proof.
  intros Hl Hf. split.
  - rewrite length_firstn. lia.
  - rewrite <- (firstn_skipn n ds) in Hf. now apply Forall_app in Hf.
Qed.

(** C10. The last result of the business-registration checker is the
    format check.  It has [passed = true] exactly when some substring of
    the text has the form DDD-DD-DDDDD or is ten decimal digits (D: any
    character [\d] accepts).  When it passes, [detail] shows such a
    substring at the leftmost position where one starts; otherwise it shows
    "-".  Any run of ten or more digits makes it pass: on an eleven-digit
    phone number it passes and shows the first ten digits. *)
Theorem format_check_iff_brn_occurrence :
  (forall text,
      exists front r,
        check_business_registration text = Ok (front ++ [r])
        /\ length front = 5%nat
        /\ name r = u "사업자등록번호 형식"
        /\ (passed r = true
            <-> exists pre w post, text = pre ++ w ++ post /\ brn_form w)
        /\ (passed r = true
            -> exists pre w post,
                text = pre ++ w ++ post /\ brn_form w
                /\ detail r = u "감지값: " ++ w
                /\ forall pre' w' post',
                     text = pre' ++ w' ++ post' -> brn_form w'
                     -> (length pre <= length pre')%nat)
        /\ (passed r = false -> detail r = u "감지값: -")
        /\ (forall pre ds post,
               text = pre ++ ds ++ post -> (10 <= length ds)%nat
               -> Forall (fun c => isdecimal c = true) ds
               -> passed r = true))
  /\ check_business_registration (u "전화 01012345678")
     = Ok (map (field_check (u "전화 01012345678")) business_fields
           ++ [ {| name := u "사업자등록번호 형식"; passed := true;
                   detail := u "감지값: 0101234567" |} ]).
Proof.
  split; [| vm_compute; reflexivity].
  intros text.
  exists (map (field_check text) business_fields), (format_check text).
  split; [apply check_business_registration_unfold |].
  split; [reflexivity |]. split; [reflexivity |].
  destruct (reads_search text reads_brn) as [Hnone Hsome].
  assert (Hiff : passed (format_check text) = true
                 <-> exists pre w post, text = pre ++ w ++ post /\ brn_form w).
  { cbn [format_check passed].
    destruct (search brn_pattern text) as [m|] eqn:E; cbn [is_some].
    - split; [intros _ | reflexivity].
      destruct (Hsome m eq_refl) as (pre & post & Hs & Hw & _).
      now exists pre, (group0 m), post.
    - split; [discriminate |]. intros H. exfalso.
      now apply (proj1 Hnone eq_refl). }
  split; [exact Hiff |]. split; [| split].
  - cbn [format_check passed detail].
    destruct (search brn_pattern text) as [m|] eqn:E; [| discriminate].
    intros _. destruct (Hsome m eq_refl) as (pre & post & Hs & Hw & Hfirst).
    exists pre, (group0 m), post. now repeat split.
  - cbn [format_check passed detail].
    now destruct (search brn_pattern text).
  - intros pre ds post Hs Hl Hf. apply Hiff.
    exists pre, (firstn 10 ds), (skipn 10 ds ++ post).
    split; [| right; now apply digits_firstn].
    now rewrite (app_assoc (firstn 10 ds)), firstn_skipn.
Qed.

(* ================================================================== *)
(** * The left-to-right scan *)

Section Scan.

Local Open Scope nat_scope.

Lemma rest_is_skipn {A} (text g r : list A) (n : nat) :
  text = (g ++ r)%list -> length g = n -> r = skipn n text.
Proof.
  intros -> <-. rewrite skipn_app, skipn_all, Nat.sub_diag. reflexivity.
Qed.

(** A match of a fixed-width pattern is found by the scan unless an
    earlier match of the same pattern overlaps it: it is enough that no
    match starts at any of the [k] positions before it, where [k + 1] is
    the width. *)
Lemma finditer_from_finds (r : regex) (k : nat) (m : match_obj) (suf : str) :
  width r = Some (S k) -> match_at r suf = Some m
  -> forall fuel pre,
      length (pre ++ suf) < fuel
      -> (forall j, 1 <= j <= k -> j <= length pre
                    -> match_at r (skipn (length pre - j) (pre ++ suf)) = None)
      -> In m (finditer_from fuel r (pre ++ suf)).
Proof.
  intros Hw Hm. induction fuel as [|fuel IH]; intros pre Hlen Hno; [lia |].
  cbn [finditer_from]. destruct pre as [|c pre].
  - cbn [app]. rewrite Hm. now left.
  - destruct (match_at r ((c :: pre) ++ suf)) as [m0|] eqn:E.
    + right. pose proof (match_at_width _ _ Hw E) as Hl0.
      set (pre0 := c :: pre) in *.
      destruct (Nat.le_gt_cases (length pre0) k) as [Hshort | Hlong].
      * exfalso. specialize (Hno (length pre0)).
        rewrite Nat.sub_diag in Hno. change (skipn 0 (pre0 ++ suf)) with (pre0 ++ suf) in Hno.
        rewrite Hno in E; [discriminate | subst pre0; cbn [length] in *; lia | lia].
      * apply match_at_Some in E as [Hs _].
        pose proof (rest_is_skipn _ _ Hs Hl0) as Hrest.
        destruct (group0 m0) as [|g0 gs]; [discriminate |].
        assert (Hsk : skipn (S k) (pre0 ++ suf)
                      = (skipn (S k) pre0 ++ suf)%list).
        { rewrite skipn_app. replace (S k - length pre0) with 0 by lia.
          reflexivity. }
        rewrite Hrest, Hsk.
        assert (Hl' : length (skipn (S k) pre0) = length pre0 - S k)
          by apply length_skipn.
        apply IH.
        -- rewrite length_app, Hl'. rewrite length_app in Hlen. lia.
        -- intros j Hj Hjl. rewrite Hl' in Hjl |- *.
           specialize (Hno j Hj ltac:(lia)).
           rewrite <- Hsk, skipn_skipn.
           replace (length pre0 - S k - j + S k) with (length pre0 - j) by lia.
           exact Hno.
    + cbn [app]. apply IH.
      * cbn [app length] in Hlen. lia.
      * intros j Hj Hjl. specialize (Hno j Hj ltac:(cbn [length]; lia)).
        rewrite <- Hno. cbn [length].
        replace (S (length pre) - j) with (S (length pre - j)) by lia.
        reflexivity.
Qed.

Lemma run_Cat_single (r1 r2 : regex) (st st1 : mstate) :
  run r1 st = [st1] -> run (Cat r1 r2) st = run r2 st1.
Proof. intros H. cbn [run]. rewrite H. cbn [flat_map]. apply app_nil_r. Qed.

Lemma run_Grp_single (r : regex) (st st1 : mstate) (w : str) :
  run r st = [st1] -> todo st = (w ++ todo st1)%list
  -> pos st1 = length w + pos st
  -> run (Grp r) st
     = [{| caps := (caps st1 ++ [w])%list; pos := pos st1; todo := todo st1 |}].
Proof.
  intros H Ht Hp. cbn [run]. rewrite H. cbn [map]. rewrite Hp, Ht.
  replace (length w + pos st - pos st) with (length w) by lia.
  now rewrite firstn_length_app.
Qed.

End Scan.

Lemma Z_range_cases (P : Z -> Prop) (lo : Z) (n : nat) :
  (forall i, (i < n)%nat -> P (lo + Z.of_nat i))
  -> forall z, lo <= z < lo + Z.of_nat n -> P z.
Proof.
  intros H z Hz. replace z with (lo + Z.of_nat (Z.to_nat (z - lo))) by lia.
  apply H. lia.
Qed.

Tactic Notation "case_by_case" integer(n) :=
  let i := fresh "i" in
  let Hi := fresh "Hi" in
  intros i Hi;
  do n (destruct i as [|i];
        [intros; split; [vm_compute; reflexivity |];
         split; [vm_compute; reflexivity |];
         split; [vm_compute; reflexivity |];
         vm_compute; repeat constructor |]);
  exfalso; lia.

Lemma year_case (y : Z) :
  2000 <= y <= 2099
  -> forall gs n s,
      run year20 {| caps := gs; pos := n; todo := zero_pad 4 y ++ s |}
      = [{| caps := gs; pos := 4 + n; todo := s |}]
      /\ py_int (zero_pad 4 y) = Ok y
      /\ length (zero_pad 4 y) = 4%nat
      /\ ascii_only (zero_pad 4 y).
Proof.
  intros Hy. pattern y; apply (@Z_range_cases _ 2000 100); [| lia]. clear y Hy.
  case_by_case 100.
Qed.

Lemma month_case (m : Z) :
  1 <= m <= 12
  -> forall gs n s,
      run month2 {| caps := gs; pos := n; todo := zero_pad 2 m ++ s |}
      = [{| caps := gs; pos := 2 + n; todo := s |}]
      /\ py_int (zero_pad 2 m) = Ok m
      /\ length (zero_pad 2 m) = 2%nat
      /\ ascii_only (zero_pad 2 m).
Proof.
  intros Hm. pattern m; apply (@Z_range_cases _ 1 12); [| lia]. clear m Hm.
  case_by_case 12.
Qed.

Lemma day_case (dd : Z) :
  1 <= dd <= 31
  -> forall gs n s,
      run day2 {| caps := gs; pos := n; todo := zero_pad 2 dd ++ s |}
      = [{| caps := gs; pos := 2 + n; todo := s |}]
      /\ py_int (zero_pad 2 dd) = Ok dd
      /\ length (zero_pad 2 dd) = 2%nat
      /\ ascii_only (zero_pad 2 dd).
Proof.
  intros Hd. pattern dd; apply (@Z_range_cases _ 1 31); [| lia]. clear dd Hd.
  case_by_case 31.
Qed.

Lemma sep_case (c : Z) (gs : list str) (n : nat) (s : str) :
  is_sep c
  -> run sep {| caps := gs; pos := n; todo := c :: s |}
     = [{| caps := gs; pos := S n; todo := s |}].
Proof. intros [<- | [<- | [<- | []]]]; reflexivity. Qed.

Lemma valid_date_ranges (y m dd : Z) :
  valid_date y m dd = true -> 1 <= y <= 9999 /\ 1 <= m <= 12 /\ 1 <= dd <= 31.
Proof.
  unfold valid_date, days_in_month. rewrite !andb_true_iff, !Z.leb_le.
  intros H.
  destruct (m =? 2); [destruct (is_leap y) |];
    try destruct ((m =? 4) || (m =? 6) || (m =? 9) || (m =? 11)); lia.
Qed.

Lemma contains_ascii_only (s : str) :
  ascii_only s -> contains (u "년") s = false.
Proof.
  intros H. destruct (contains (u "년") s) eqn:E; [exfalso | reflexivity].
  apply contains_occurs in E as (pre & post & ->).
  apply Forall_app in H as [_ H]. apply Forall_app in H as [H _].
  inversion H as [|c l Hc _]; subst. vm_compute in Hc. discriminate.
Qed.

Lemma is_sep_ascii (c : Z) : is_sep c -> c < 128.
Proof. intros [<- | [<- | [<- | []]]]; reflexivity. Qed.

(** The first date pattern at the head of a numeric form. *)
Lemma ymd_match (y m dd s1 s2 : Z) (post : str) :
  2000 <= y <= 2099 -> 1 <= m <= 12 -> 1 <= dd <= 31
  -> is_sep s1 -> is_sep s2
  -> exists m0,
      match_at pattern_ymd (numeric_form y s1 m s2 dd ++ post) = Some m0
      /\ group0 m0 = numeric_form y s1 m s2 dd
      /\ groups m0 = [zero_pad 4 y; zero_pad 2 m; zero_pad 2 dd]
      /\ rest m0 = post.
Proof.
  intros Hy Hm Hd Hs1 Hs2.
  assert (T : numeric_form y s1 m s2 dd ++ post
              = zero_pad 4 y
                ++ s1 :: zero_pad 2 m ++ s2 :: zero_pad 2 dd ++ post).
  { unfold numeric_form. now rewrite <- !app_assoc. }
  assert (R : run pattern_ymd (start (numeric_form y s1 m s2 dd ++ post))
              = [{| caps := [zero_pad 4 y; zero_pad 2 m; zero_pad 2 dd];
                    pos := 10; todo := post |}]).
  { rewrite T. unfold pattern_ymd, seq, start. cbn [fold_right].
    erewrite run_Cat_single;
      [| eapply run_Grp_single with (w := zero_pad 4 y);
         [apply (year_case Hy) | reflexivity
          | cbn [pos]; now rewrite (proj1 (proj2 (proj2 (year_case Hy [] 0%nat []))))] ].
    cbn [caps pos todo].
    erewrite run_Cat_single; [| now apply sep_case].
    erewrite run_Cat_single;
      [| eapply run_Grp_single with (w := zero_pad 2 m);
         [apply (month_case Hm) | reflexivity
          | cbn [pos]; now rewrite (proj1 (proj2 (proj2 (month_case Hm [] 0%nat []))))] ].
    cbn [caps pos todo].
    erewrite run_Cat_single; [| now apply sep_case].
    erewrite run_Cat_single;
      [| eapply run_Grp_single with (w := zero_pad 2 dd);
         [apply (day_case Hd) | reflexivity
          | cbn [pos]; now rewrite (proj1 (proj2 (proj2 (day_case Hd [] 0%nat []))))] ].
    reflexivity. }
  unfold match_at. fold (start (numeric_form y s1 m s2 dd ++ post)).
  rewrite R. eexists. split; [reflexivity |]. cbn [group0 groups rest pos caps todo].
  split; [| split; reflexivity].
  replace 10%nat with (length (numeric_form y s1 m s2 dd));
    [apply firstn_length_app |].
  unfold numeric_form. rewrite !length_app.
  rewrite (proj1 (proj2 (proj2 (year_case Hy [] 0%nat [])))),
    (proj1 (proj2 (proj2 (month_case Hm [] 0%nat [])))),
    (proj1 (proj2 (proj2 (day_case Hd [] 0%nat [])))).
  reflexivity.
Qed.

Lemma numeric_form_ascii (y m dd s1 s2 : Z) :
  2000 <= y <= 2099 -> 1 <= m <= 12 -> 1 <= dd <= 31
  -> is_sep s1 -> is_sep s2 -> ascii_only (numeric_form y s1 m s2 dd).
Proof.
  intros Hy Hm Hd Hs1 Hs2. unfold numeric_form.
  apply Forall_app; split;
    [exact (proj2 (proj2 (proj2 (year_case Hy [] 0%nat [])))) |].
  apply Forall_app; split;
    [repeat constructor; now apply is_sep_ascii |].
  apply Forall_app; split;
    [exact (proj2 (proj2 (proj2 (month_case Hm [] 0%nat [])))) |].
  apply Forall_app; split;
    [repeat constructor; now apply is_sep_ascii |].
  exact (proj2 (proj2 (proj2 (day_case Hd [] 0%nat [])))).
Qed.

(** C3, amended.  For every text containing an occurrence of the
    numeric form YYYY sep MM sep DD whose separators are each one of '.',
    '/', '-', whose year is 2000-2099 and whose year, month and day form a
    date of the calendar, [find_dates] contains that date, provided the
    left-to-right scan of the first pattern reaches the occurrence: no match
    of that pattern starts in the nine characters before it. *)
Theorem numeric_ymd_date_is_found (pre post : str) (y m dd s1 s2 : Z) :
  2000 <= y <= 2099
  -> valid_date y m dd = true
  -> is_sep s1 -> is_sep s2
  -> (forall k, (1 <= k <= 9)%nat -> (k <= length pre)%nat
                -> match_at pattern_ymd
                     (skipn (length pre - k)
                            (pre ++ numeric_form y s1 m s2 dd ++ post))
                   = None)
  -> In (mkdate y m dd)
        (find_dates (pre ++ numeric_form y s1 m s2 dd ++ post)).
Proof.
  intros Hy Hv Hs1 Hs2 Hno.
  destruct (valid_date_ranges _ _ _ Hv) as (_ & Hm & Hd).
  destruct (ymd_match post Hy Hm Hd Hs1 Hs2) as (m0 & Hm0 & Hg0 & Hgs & Hrest).
  apply find_dates_In. exists pattern_ymd, m0.
  split; [now left |]. split.
  - unfold finditer.
    apply (@finditer_from_finds pattern_ymd 9 m0
             (numeric_form y s1 m s2 dd ++ post) eq_refl Hm0);
      [lia | exact Hno].
  - unfold date_of_match. rewrite Hgs, Hg0.
    rewrite contains_ascii_only by now apply numeric_form_ascii.
    rewrite (proj1 (proj2 (proj2 (year_case Hy [] 0%nat [])))).
    cbn [Nat.eqb].
    rewrite (proj1 (proj2 (year_case Hy [] 0%nat []))),
      (proj1 (proj2 (month_case Hm [] 0%nat []))),
      (proj1 (proj2 (day_case Hd [] 0%nat []))).
    cbn [bind]. unfold date_new. rewrite Hv. reflexivity.
Qed.

Lemma numeric_ymd_date_is_found_witness :
  In (mkdate 2024 3 15) (find_dates (u "검사일 " ++ numeric_form 2024 (ch "-") 3 (ch "-") 15 ++ u " 실시"))
  /\ u "검사일 " ++ numeric_form 2024 (ch "-") 3 (ch "-") 15 ++ u " 실시"
     = u "검사일 2024-03-15 실시".
Proof.
  split; [| vm_compute; reflexivity].
  apply (@numeric_ymd_date_is_found (u "검사일 ") (u " 실시") 2024 3 15 (ch "-") (ch "-")).
  - lia.
  - reflexivity.
  - right; right; now left.
  - right; right; now left.
  - intros k Hk Hl.
    destruct k as [|[|[|[|[|k]]]]];
      [exfalso; lia | vm_compute; reflexivity .. | exfalso; cbn in Hl; lia].
Defined.

(** C3 as stated fails: the patterns only accept years 20xx, and a
    match that begins inside an earlier match of the same pattern is
    skipped by the scan. *)
Lemma numeric_form_any_year_counterexample :
  (u "1999-05-01" = [] ++ numeric_form 1999 (ch "-") 5 (ch "-") 1 ++ []
   /\ valid_date 1999 5 1 = true
   /\ ~ In (mkdate 1999 5 1) (find_dates (u "1999-05-01")))
  /\ (u "2020-12-2021-01-05"
      = u "2020-12-" ++ numeric_form 2021 (ch "-") 1 (ch "-") 5 ++ []
      /\ valid_date 2021 1 5 = true
      /\ ~ In (mkdate 2021 1 5) (find_dates (u "2020-12-2021-01-05"))).
Proof.
  split; (split; [vm_compute; reflexivity |]; split; [reflexivity |]).
  - vm_compute. intros [].
  - vm_compute. intros [H | []]. discriminate.
Qed.

(* ================================================================== *)
(** * Facts about binary64 rounding *)

Section Binary64.

Lemma digits2_pos_bounds (p : positive) :
  2 ^ (Zpos (digits2_pos p) - 1) <= Zpos p < 2 ^ Zpos (digits2_pos p).
Proof.
  induction p as [p IH | p IH |]; cbn [digits2_pos];
    [rewrite (Pos2Z.inj_xI p) | rewrite (Pos2Z.inj_xO p) | change (1 <= 1 < 2); lia];
    rewrite Pos2Z.inj_succ;
    replace (Z.succ (Zpos (digits2_pos p)) - 1)
      with (Z.succ (Zpos (digits2_pos p) - 1)) by lia;
    rewrite !Z.pow_succ_r by lia; lia.
Qed.

Lemma digits2_pos_ge (p : positive) (j : Z) :
  0 <= j -> 2 ^ j <= Zpos p -> j + 1 <= Zpos (digits2_pos p).
Proof.
  intros Hj H. destruct (digits2_pos_bounds p) as [_ Hlt].
  destruct (Z.le_gt_cases (j + 1) (Zpos (digits2_pos p))) as [|Hc]; [assumption |].
  assert (2 ^ Zpos (digits2_pos p) <= 2 ^ j) by (apply Z.pow_le_mono_r; lia).
  lia.
Qed.

Lemma digits2_pos_le (p : positive) (j : Z) :
  0 <= j -> Zpos p < 2 ^ j -> Zpos (digits2_pos p) <= j.
Proof.
  intros Hj H. destruct (digits2_pos_bounds p) as [Hle _].
  destruct (Z.le_gt_cases (Zpos (digits2_pos p)) j) as [|Hc]; [assumption |].
  assert (2 ^ j <= 2 ^ (Zpos (digits2_pos p) - 1))
    by (apply Z.pow_le_mono_r; lia).
  lia.
Qed.

Lemma shr_1_m (r : shr_record) :
  0 <= shr_m r -> shr_m (shr_1 r) = shr_m r / 2.
Proof.
  destruct r as [m r s]. cbn [shr_m]. intros Hm.
  rewrite <- Z.div2_div.
  destruct m as [|p|p]; [reflexivity | | lia].
  destruct p; reflexivity.
Qed.

Lemma iter_shr_m (n : positive) :
  forall r, 0 <= shr_m r
            -> shr_m (iter_pos shr_1 n r) = shr_m r / 2 ^ Zpos n.
Proof.
  induction n as [n IH | n IH |]; intros r Hr; cbn [iter_pos].
  - assert (H1 : 0 <= shr_m (shr_1 r))
      by (rewrite shr_1_m by assumption; apply Z.div_pos; lia).
    assert (H2 : 0 <= shr_m (iter_pos shr_1 n (shr_1 r)))
      by (rewrite IH by assumption; apply Z.div_pos; [|apply Z.pow_pos_nonneg]; lia).
    rewrite IH, IH, shr_1_m by assumption.
    rewrite !Z.div_div by (try apply Z.pow_pos_nonneg; lia).
    f_equal. rewrite (Pos2Z.inj_xI n).
    replace (2 * Zpos n + 1) with (Z.succ (Zpos n + Zpos n)) by lia.
    rewrite Z.pow_succ_r, Z.pow_add_r by lia. lia.
  - assert (H2 : 0 <= shr_m (iter_pos shr_1 n r))
      by (rewrite IH by assumption; apply Z.div_pos; [|apply Z.pow_pos_nonneg]; lia).
    rewrite IH, IH by assumption.
    rewrite !Z.div_div by (try apply Z.pow_pos_nonneg; lia).
    f_equal. rewrite (Pos2Z.inj_xO n).
    replace (2 * Zpos n) with (Zpos n + Zpos n) by lia.
    rewrite Z.pow_add_r by lia. lia.
  - rewrite shr_1_m by assumption. reflexivity.
Qed.

Lemma fexp_normal (e : Z) : -1021 <= e -> fexp 53 1024 e = e - 53.
Proof. unfold fexp, emin. lia. Qed.

Lemma shr_m_of_loc (m : Z) (l : location) : shr_m (shr_record_of_loc m l) = m.
Proof. destruct l as [|[]]; reflexivity. Qed.

(** The first step of rounding: a mantissa of more than 53 bits is
    shifted right down to 53 bits, a shorter one is left alone. *)
Lemma shr_fexp_pos (p : positive) (e : Z) (l : location) :
  -1021 <= Zpos (digits2_pos p) + e
  -> exists r,
      shr_fexp 53 1024 (Zpos p) e l
      = (r, e + Z.max 0 (Zpos (digits2_pos p) - 53))
      /\ shr_m r = Zpos p / 2 ^ Z.max 0 (Zpos (digits2_pos p) - 53).
Proof.
  intros H. unfold shr_fexp, Zdigits2, shr. rewrite fexp_normal by assumption.
  destruct (Zpos (digits2_pos p) + e - 53 - e) as [|q|q] eqn:E.
  - replace (Z.max 0 (Zpos (digits2_pos p) - 53)) with 0 by lia.
    eexists. split; [f_equal; lia |].
    now rewrite shr_m_of_loc, Z.div_1_r.
  - replace (Z.max 0 (Zpos (digits2_pos p) - 53)) with (Zpos q) by lia.
    eexists. split; [reflexivity |].
    rewrite iter_shr_m; rewrite shr_m_of_loc; [reflexivity | lia].
  - replace (Z.max 0 (Zpos (digits2_pos p) - 53)) with 0 by lia.
    eexists. split; [f_equal; lia |].
    now rewrite shr_m_of_loc, Z.div_1_r.
Qed.

Lemma shr_fexp_small (p : positive) (e : Z) (l : location) :
  -1021 <= Zpos (digits2_pos p) + e -> Zpos (digits2_pos p) <= 53
  -> shr_fexp 53 1024 (Zpos p) e l = (shr_record_of_loc (Zpos p) l, e).
Proof.
  intros H Hd. unfold shr_fexp, Zdigits2, shr. rewrite fexp_normal by assumption.
  destruct (Zpos (digits2_pos p) + e - 53 - e) as [|q|q] eqn:E;
    [reflexivity | lia | reflexivity].
Qed.

Lemma round_nearest_even_bounds (m : Z) (l : location) :
  m <= round_nearest_even m l <= m + 1.
Proof.
  destruct l as [|[]]; cbn [round_nearest_even]; try lia.
  destruct (Z.even m); lia.
Qed.

(** Rounding a mantissa of more than 53 bits gives a positive finite
    float whose exponent is at least the one that leaves 53 bits. *)
Lemma binary_round_aux_large (p : positive) (E : Z) (l : location) :
  54 <= Zpos (digits2_pos p) -> -1000 <= E
  -> E + Zpos (digits2_pos p) <= 1000
  -> exists m e,
      binary_round_aux 53 1024 false (Zpos p) E l = S754_finite false m e
      /\ E + Zpos (digits2_pos p) - 53 <= e.
Proof.
  intros Hd HE Hhi. unfold binary_round_aux.
  destruct (shr_fexp_pos p E l) as (r1 & -> & Hm1); [lia |].
  set (dp := Zpos (digits2_pos p)) in *.
  replace (Z.max 0 (dp - 53)) with (dp - 53) in * by lia.
  destruct (digits2_pos_bounds p) as [Hlo Hup]. fold dp in Hlo, Hup.
  assert (Hm1b : 2 ^ 52 <= shr_m r1 < 2 ^ 53).
  { rewrite Hm1. split.
    - apply Z.div_le_lower_bound; [apply Z.pow_pos_nonneg; lia |].
      rewrite <- Z.pow_add_r by lia.
      now replace (dp - 53 + 52) with (dp - 1) by lia.
    - apply Z.div_lt_upper_bound; [apply Z.pow_pos_nonneg; lia |].
      rewrite <- Z.pow_add_r by lia.
      now replace (dp - 53 + 53) with dp by lia. }
  pose proof (round_nearest_even_bounds (shr_m r1) (loc_of_shr_record r1)) as Hr.
  destruct (round_nearest_even (shr_m r1) (loc_of_shr_record r1))
    as [|p2|p2] eqn:E2; [exfalso | | exfalso].
  1, 3: change (2 ^ 52) with 4503599627370496 in Hm1b; lia.
  assert (Hd2lo : 53 <= Zpos (digits2_pos p2))
    by (apply (@digits2_pos_ge p2 52); lia).
  assert (Hd2hi : Zpos (digits2_pos p2) <= 54).
  { apply digits2_pos_le; [lia |].
    change (2 ^ 54) with 18014398509481984.
    change (2 ^ 53) with 9007199254740992 in Hm1b. lia. }
  destruct (shr_fexp_pos p2 (E + (dp - 53)) loc_Exact) as (r2 & -> & Hm2);
    [lia |].
  assert (Hpos : 0 < shr_m r2).
  { rewrite Hm2. apply Z.div_str_pos. split; [apply Z.pow_pos_nonneg; lia |].
    destruct (Z.max_spec 0 (Zpos (digits2_pos p2) - 53)) as [[_ ->] | [_ ->]].
    - apply Z.le_trans with (2 ^ 1); [apply Z.pow_le_mono_r; lia |].
      change (2 ^ 52) with 4503599627370496 in Hm1b. change (2 ^ 1) with 2. lia.
    - change (2 ^ 0) with 1. lia. }
  destruct (shr_m r2) as [|m|m]; [lia | | lia].
  replace (E + (dp - 53) + Z.max 0 (Zpos (digits2_pos p2) - 53) <=? 1024 - 53)
    with true by (symmetry; apply Z.leb_le; lia).
  exists m, (E + (dp - 53) + Z.max 0 (Zpos (digits2_pos p2) - 53)).
  split; [reflexivity | lia].
Qed.

End Binary64.

Section Binary64Ops.

Lemma iter_xO_val (p sh : positive) :
  Zpos (Pos.iter xO p sh) = Zpos p * 2 ^ Zpos sh.
Proof.
  induction sh as [|sh IH] using Pos.peano_ind.
  - cbn [Pos.iter]. rewrite (Pos2Z.inj_xO p). change (2 ^ 1) with 2. lia.
  - rewrite Pos.iter_succ, (Pos2Z.inj_xO (Pos.iter xO p sh)), IH,
      Pos2Z.inj_succ, Z.pow_succ_r by lia. lia.
Qed.

Lemma iter_xO_digits (p sh : positive) :
  Zpos (digits2_pos (Pos.iter xO p sh)) = Zpos (digits2_pos p) + Zpos sh.
Proof.
  induction sh as [|sh IH] using Pos.peano_ind.
  - cbn [Pos.iter digits2_pos]. lia.
  - rewrite Pos.iter_succ. cbn [digits2_pos]. lia.
Qed.

Lemma shl_align_fst (m : positive) (e e' : Z) :
  e' <= e -> Zpos (fst (shl_align m e e')) = Zpos m * 2 ^ (e - e').
Proof.
  intros H. unfold shl_align. destruct (e' - e) as [|q|q] eqn:E; cbn [fst].
  - replace (e - e') with 0 by lia. change (2 ^ 0) with 1. lia.
  - lia.
  - rewrite iter_xO_val. f_equal. f_equal. lia.
Qed.

(** A float well above one ulp of anything near 1: rounding a value of
    at least [2 ^ j], given with a low exponent, gives a positive finite
    float with exponent at least [j - 52]. *)
Lemma binary_normalize_large (M E j : Z) :
  -1000 <= E <= 0 -> 53 <= j - E -> 2 ^ (j - E) <= M < 2 ^ 100
  -> exists m e,
      binary_normalize 53 1024 M E false = S754_finite false m e
      /\ j - 52 <= e.
Proof.
  intros HE Hj [Hlo Hhi].
  assert (0 < 2 ^ (j - E)) by (apply Z.pow_pos_nonneg; lia).
  destruct M as [|p|p]; [lia | | lia].
  assert (Hd : j - E + 1 <= Zpos (digits2_pos p))
    by (apply digits2_pos_ge; [lia | assumption]).
  assert (Hd' : Zpos (digits2_pos p) <= 100)
    by (apply digits2_pos_le; [lia | assumption]).
  cbn [binary_normalize]. unfold binary_round.
  rewrite fexp_normal by lia. unfold shl_align.
  destruct (Zpos (digits2_pos p) + E - 53 - E) as [|q|q] eqn:Eq; [lia | | lia].
  destruct (@binary_round_aux_large p E loc_Exact) as (m & e & -> & He);
    [lia .. |].
  exists m, e. split; [reflexivity | lia].
Qed.

(** [float(k)] for a small positive integer is exact. *)
Lemma of_int_shape (k : Z) :
  0 < k < 2 ^ 53
  -> exists m e,
      Float.of_int k = S754_finite false m e
      /\ e <= 0 /\ Zpos m = k * 2 ^ (- e)
      /\ forall j, 0 <= j -> 2 ^ j <= k -> j - 52 <= e.
Proof.
  intros [Hk0 Hk]. destruct k as [|p|p]; [lia | | lia].
  assert (Hd : Zpos (digits2_pos p) <= 53)
    by (apply digits2_pos_le; [lia | assumption]).
  unfold Float.of_int, Float.prec, Float.emax.
  cbn [binary_normalize]. unfold binary_round.
  rewrite fexp_normal by lia.
  assert (Hshape :
            exists mz ez,
              shl_align p 0 (Zpos (digits2_pos p) + 0 - 53) = (mz, ez)
              /\ ez = Zpos (digits2_pos p) - 53
              /\ Zpos mz = Zpos p * 2 ^ (- ez)
              /\ Zpos (digits2_pos mz) = 53).
  { unfold shl_align.
    destruct (Zpos (digits2_pos p) + 0 - 53 - 0) as [|q|q] eqn:Eq.
    - exists p, 0. split; [reflexivity |]. split; [lia |].
      split; [change (2 ^ (- 0)) with 1 |]; lia.
    - lia.
    - eexists _, _. split; [reflexivity |]. split; [lia |].
      rewrite iter_xO_val, iter_xO_digits. split; [| lia].
      f_equal. f_equal. lia. }
  destruct Hshape as (mz & ez & -> & Hez & Hmz & Hdz).
  unfold binary_round_aux.
  rewrite shr_fexp_small by lia. cbn [shr_record_of_loc shr_m loc_of_shr_record
                                        round_nearest_even].
  rewrite shr_fexp_small by lia. cbn [shr_record_of_loc shr_m].
  replace (ez <=? 1024 - 53) with true by (symmetry; apply Z.leb_le; lia).
  exists mz, ez. split; [reflexivity |]. split; [lia |]. split; [exact Hmz |].
  intros j Hj Hjk. pose proof (@digits2_pos_ge p j Hj Hjk). lia.
Qed.

Lemma zrange_In (lo : Z) (n : nat) (z : Z) :
  lo <= z < lo + Z.of_nat n -> In z (zrange lo n).
Proof.
  intros H. unfold zrange. apply in_map_iff.
  exists (Z.to_nat (z - lo)). split; [lia |]. apply in_seq. lia.
Qed.

Lemma day_quotients_small (dd : Z) :
  -30 <= dd <= 30
  -> small_quotient (Float.div (Float.of_int dd) Float.lit_30_0) = true.
Proof.
  intros H.
  assert (T : forallb (fun dd => small_quotient
                                   (Float.div (Float.of_int dd) Float.lit_30_0))
                      (zrange (-30) 61) = true) by (vm_compute; reflexivity).
  rewrite forallb_forall in T. apply T, zrange_In. lia.
Qed.

(** Adding such a quotient to an integer of at least 5 gives at least 4:
    a float with exponent at least -50. *)
Lemma add_large (k : Z) (x : Float.float) :
  5 <= k < 2 ^ 20 -> small_quotient x = true
  -> exists m e,
      Float.add (Float.of_int k) x = S754_finite false m e /\ -50 <= e.
Proof.
  intros Hk Hx.
  destruct (@of_int_shape k) as (mk & ek & Hof & Hek0 & Hmk & Hek).
  { change (2 ^ 20) with 1048576 in Hk.
    change (2 ^ 53) with 9007199254740992. lia. }
  assert (Hek2 : -50 <= ek)
    by (specialize (Hek 2); change (2 ^ 2) with 4 in Hek; lia).
  rewrite Hof. destruct x as [s | s | | sx mx ex]; try discriminate.
  - exists mk, ek. split; [reflexivity | exact Hek2].
  - cbn [small_quotient] in Hx. rewrite !andb_true_iff, !Z.leb_le in Hx.
    destruct Hx as [[Hex1 Hex2] Hmx].
    unfold Float.add, SFadd. replace (Z.min ek ex) with ex by lia.
    rewrite !shl_align_fst by lia. rewrite Z.sub_diag, Hmk.
    change (2 ^ 0) with 1. rewrite Z.mul_1_r, <- Z.mul_assoc, <- Z.pow_add_r by lia.
    replace (- ek + (ek - ex)) with (- ex) by lia.
    cbn [cond_Zopp].
    assert (HP : 2 ^ 52 <= 2 ^ (- ex) <= 2 ^ 57)
      by (split; apply Z.pow_le_mono_r; lia).
    change (2 ^ 52) with 4503599627370496 in HP.
    change (2 ^ 57) with 144115188075855872 in HP.
    change (2 ^ 20) with 1048576 in Hk.
    assert (Hpow : 2 ^ (2 - ex) = 4 * 2 ^ (- ex)).
    { replace (2 - ex) with (2 + - ex) by lia. now rewrite Z.pow_add_r by lia. }
    apply (@binary_normalize_large _ ex 2); [lia | lia |].
    rewrite Hpow. change (2 ^ 100) with 1267650600228229401496703205376.
    pose proof (Pos2Z.is_pos mx).
    destruct sx; cbn [cond_Zopp]; nia.
Qed.

End Binary64Ops.

(* ================================================================== *)
(** * The compliance check *)

(** The comparison on every small case, by evaluation. *)
Lemma compliance_table_ok :
  forallb
    (fun k =>
       forallb
         (fun dd =>
            forallb
              (fun t =>
                 Bool.eqb
                   (Float.leb
                      (Float.add (Float.of_int k)
                         (Float.div (Float.of_int dd) Float.lit_30_0))
                      (Float.add (Float.of_int t) Float.lit_0_1))
                   (30 * k + dd <=? 30 * t + 3))
              [2; 3])
         (zrange (-30) 61))
    (zrange 0 5) = true.
Proof. vm_compute. reflexivity. Qed.

(** The bounds 2 + 0.1 and 3 + 0.1 lie in [2, 4): exponent -51. *)
Lemma bound_exponent (t : Z) :
  t = 2 \/ t = 3
  -> exists mc, Float.add (Float.of_int t) Float.lit_0_1
                = S754_finite false mc (-51).
Proof.
  intros [-> | ->]; eexists; vm_compute; reflexivity.
Qed.

(** On the values the checker can meet, the float comparison decides the
    exact inequality [k + dd/30 <= t + 1/10]: rounding never crosses the
    bound. *)
Lemma compliance_float_exact (k dd t : Z) :
  0 <= k < 2 ^ 20 -> -30 <= dd <= 30 -> t = 2 \/ t = 3
  -> Float.leb
       (Float.add (Float.of_int k) (Float.div (Float.of_int dd) Float.lit_30_0))
       (Float.add (Float.of_int t) Float.lit_0_1)
     = (30 * k + dd <=? 30 * t + 3).
Proof.
  intros Hk Hdd Ht. destruct (Z.le_gt_cases k 4) as [Hsmall | Hlarge].
  - pose proof (proj1 (forallb_forall _ _) compliance_table_ok k
                  ltac:(apply zrange_In; lia)) as T1.
    cbv beta in T1.
    pose proof (proj1 (forallb_forall _ _) T1 dd
                  ltac:(apply zrange_In; lia)) as T2.
    cbv beta in T2.
    pose proof (proj1 (forallb_forall _ _) T2 t
                  ltac:(destruct Ht as [-> | ->]; [now left | right; now left]))
      as T3.
    cbv beta in T3. now apply eqb_prop in T3.
  - destruct (@add_large k (Float.div (Float.of_int dd) Float.lit_30_0))
      as (m & e & -> & He); [lia | now apply day_quotients_small |].
    replace (30 * k + dd <=? 30 * t + 3) with false
      by (symmetry; apply Z.leb_gt; lia).
    destruct (bound_exponent Ht) as (mc & ->).
    unfold Float.leb, SFleb, SFcompare.
    destruct (Z.compare_spec e (-51)); try reflexivity; lia.
Qed.

Lemma month_index_bounds (today latest : date) :
  valid_date (year today) (month today) (day today) = true
  -> valid_date (year latest) (month latest) (day latest) = true
  -> ~ date_lt today latest
  -> 0 <= (year today - year latest) * 12 + (month today - month latest)
          < 2 ^ 20
     /\ -30 <= day today - day latest <= 30.
Proof.
  intros Ht Hl Hle. apply valid_date_ranges in Ht, Hl.
  unfold date_lt in Hle. change (2 ^ 20) with 1048576. lia.
Qed.

Lemma threshold_cases (latest : date) : threshold latest = 2 \/ threshold latest = 3.
Proof. unfold threshold. destruct (is_summer latest); auto. Qed.

(** C1. Whenever there is a latest extracted date not after today, the
    seventh result of the disinfection-certificate checker is the
    compliance check; its [passed] is the float comparison
    [month_diff today latest <= threshold + 0.1], with threshold 2 when the
    month of [latest] is one of 4..9 and 3 otherwise, and this comparison
    holds exactly when, in exact arithmetic,
    (today.year - latest.year) * 12 + (today.month - latest.month)
    + (today.day - latest.day) / 30 <= threshold + 1/10. *)
Theorem compliance_iff_within_threshold (today latest : date) (text : str) :
  valid_date (year today) (month today) (day today) = true
  -> is_latest today text latest
  -> exists front r back,
      check_disinfection_certificate today text = Ok (front ++ r :: back)
      /\ length front = 6%nat
      /\ name r = u "소독주기 충족 여부"
      /\ threshold latest
         = (if existsb (Z.eqb (month latest)) [4; 5; 6; 7; 8; 9] then 2 else 3)
      /\ passed r
         = Float.leb (month_diff today latest)
             (Float.add (Float.of_int (threshold latest)) Float.lit_0_1)
      /\ (passed r = true
          <-> (inject_Z ((year today - year latest) * 12
                         + (month today - month latest))
               + ((day today - day latest) # 30)
               <= inject_Z (threshold latest) + (1 # 10))%Q).
Proof.
  intros Hv Hl.
  pose proof Hl as (Hin & Hle & _).
  apply latest_of_Some in Hl.
  exists (map (field_check text) disinfection_fields
          ++ [date_found_check (Some latest)]),
         (compliance_check today latest), [future_check today text].
  split.
  { rewrite check_disinfection_certificate_unfold, Hl, <- app_assoc.
    reflexivity. }
  split; [reflexivity |].
  split; [cbn [compliance_check name]; reflexivity |].
  split; [reflexivity |]. split; [reflexivity |].
  cbn [compliance_check passed]. unfold month_diff.
  destruct (month_index_bounds Hv (find_dates_valid _ _ Hin) Hle) as [Hk Hdd].
  rewrite (compliance_float_exact Hk Hdd (threshold_cases latest)).
  rewrite Z.leb_le. unfold Qle, Qplus, inject_Z. cbn [Qnum Qden].
  lia.
Qed.

Lemma compliance_iff_within_threshold_witness :
  exists front r back,
    check_disinfection_certificate (mkdate 2024 7 4) (u "소독 실시 2024.05.01")
    = Ok (front ++ r :: back)
    /\ length front = 6%nat
    /\ name r = u "소독주기 충족 여부"
    /\ threshold may_first
       = (if existsb (Z.eqb (month may_first)) [4; 5; 6; 7; 8; 9] then 2 else 3)
    /\ passed r
       = Float.leb (month_diff (mkdate 2024 7 4) may_first)
           (Float.add (Float.of_int (threshold may_first)) Float.lit_0_1)
    /\ (passed r = true
        <-> (inject_Z ((2024 - 2024) * 12 + (7 - 5)) + ((4 - 1) # 30)
             <= inject_Z (threshold may_first) + (1 # 10))%Q).
Proof.
  apply (@compliance_iff_within_threshold (mkdate 2024 7 4) may_first
           (u "소독 실시 2024.05.01")).
  - reflexivity.
  - apply latest_of_Some. vm_compute. reflexivity.
Defined.

(* ================================================================== *)
(** * Text extraction *)

Lemma join_nil_iff (sep : str) (l : list str) :
  sep <> [] -> (join sep l = [] <-> l = [] \/ l = [[]]).
Proof.
  intros Hsep. destruct l as [|x [|y l]]; cbn [join].
  - split; auto.
  - split.
    + intros ->. now right.
    + intros [H | [= ->]]; [discriminate | reflexivity].
  - split.
    + intros H. apply app_eq_nil in H as [_ H]. apply app_eq_nil in H as [H _].
      contradiction.
    + intros [H | H]; discriminate.
Qed.

Lemma join_all_empty (c : Z) (l : list str) :
  Forall (fun x => x = []) l -> join [c] l = repeat c (length l - 1).
Proof.
  induction l as [|x l IH]; intros H; [reflexivity |].
  inversion H as [|? ? Hx Hl]; subst. specialize (IH Hl).
  destruct l as [|y l]; [reflexivity |].
  change (join [c] ([] :: y :: l)) with ([] ++ [c] ++ join [c] (y :: l)).
  rewrite IH. cbn [length Nat.sub app]. now rewrite Nat.sub_0_r.
Qed.

(** X1. The extracted text is empty exactly when the PDF has no page,
    or a single page without text: with two or more pages the joining
    line feeds make it non-empty, whatever the pages hold. *)
Theorem extract_text_empty_iff (pages : list page_text) :
  (extract_text_from_pdf pages = []
   <-> pages = [] \/ exists p, pages = [p] /\ or_empty p = [])
  /\ ((2 <= length pages)%nat -> extract_text_from_pdf pages <> [])
  /\ ((2 <= length pages)%nat
      -> Forall (fun p => or_empty p = []) pages
      -> extract_text_from_pdf pages = repeat newline (length pages - 1)).
Proof.
  unfold extract_text_from_pdf. split; [| split].
  - rewrite join_nil_iff by discriminate. split.
    + intros [H | H].
      * left. now destruct pages.
      * right. destruct pages as [|p [|q l]]; try discriminate.
        injection H as H. now exists p.
    + intros [-> | (p & -> & H)]; [now left | right]. cbn. now rewrite H.
  - intros Hl H. apply join_nil_iff in H; [| discriminate].
    destruct pages as [|p [|q l]]; cbn in Hl; try lia.
    destruct H as [H | H]; discriminate.
  - intros _ Hall. rewrite <- (length_map or_empty pages).
    apply join_all_empty. now apply Forall_map.
Qed.

Lemma occurs_app_l (w a b : str) : occurs w a -> occurs w (a ++ b).
Proof.
  intros (pre & post & ->). exists pre, (post ++ b).
  now rewrite <- !app_assoc.
Qed.

Lemma occurs_app_r (w a b : str) : occurs w b -> occurs w (a ++ b).
Proof.
  intros (pre & post & ->). exists (a ++ pre), post.
  now rewrite <- !app_assoc.
Qed.

(** An occurrence of a string that does not contain [c] lies on one side
    of any [c] in the text. *)
Lemma occurs_split (w a b : str) (c : Z) :
  w <> [] -> ~ In c w -> occurs w (a ++ c :: b) -> occurs w a \/ occurs w b.
Proof.
  intros Hne Hc (pre & post & H). symmetry in H.
  apply app_eq_app in H as (l & [[-> H] | [-> H]]).
  - destruct l as [|x l]; cbn in H.
    + destruct w as [|x w]; [contradiction |]. injection H as -> _.
      exfalso. apply Hc. now left.
    + injection H as -> ->. right. now exists l, post.
  - apply app_eq_app in H as (l2 & [[-> H] | [-> H]]).
    + destruct l2 as [|x l2]; cbn in H.
      * left. exists pre, []. now rewrite !app_nil_r.
      * injection H as -> _. exfalso. apply Hc. apply in_or_app. right. now left.
    + left. exists pre, l2. reflexivity.
Qed.

Lemma join_occurs (w : str) (c : Z) (l : list str) :
  w <> [] -> ~ In c w
  -> (occurs w (join [c] l) <-> exists x, In x l /\ occurs w x).
Proof.
  intros Hne Hc. induction l as [|x l IH].
  - cbn [join]. split.
    + intros (pre & post & H). destruct pre; [| discriminate].
      destruct w; [contradiction | discriminate].
    + intros (x & [] & _).
  - destruct l as [|y l].
    + cbn [join]. split.
      * intros H. exists x. split; [now left | exact H].
      * intros (x' & [<- | []] & H). exact H.
    + change (join [c] (x :: y :: l)) with (x ++ c :: join [c] (y :: l)).
      split.
      * intros H. apply occurs_split in H as [H | H]; try assumption.
        -- exists x. split; [now left | exact H].
        -- apply IH in H as (x' & Hin & H). exists x'. split; [now right | exact H].
      * intros (x' & [<- | Hin] & H).
        -- now apply occurs_app_l.
        -- apply (@occurs_app_r w x (c :: join [c] (y :: l))).
           apply (@occurs_app_r w [c]). apply IH. now exists x'.
Qed.

Lemma not_in_by_eqb (c : Z) (w : str) :
  existsb (Z.eqb c) w = false -> ~ In c w.
Proof.
  intros H Hin. assert (E : existsb (Z.eqb c) w = true).
  { apply existsb_exists. exists c. split; [exact Hin | apply Z.eqb_refl]. }
  congruence.
Qed.

Lemma keywords_have_no_newline :
  Forall (fun kw => kw <> [] /\ ~ In newline kw)
         (business_fields ++ disinfection_fields).
Proof.
  unfold business_fields, disinfection_fields. cbn [app].
  repeat (apply Forall_cons;
          [split; [discriminate | apply not_in_by_eqb; vm_compute; reflexivity] |]).
  apply Forall_nil.
Qed.

(** X2. On the text extracted from a PDF, the check of a required
    keyword passes exactly when the text of some single page contains the
    keyword: the pages are joined by line feeds, so a keyword split across
    two pages is not found. *)
Theorem keyword_found_iff_on_one_page (pages : list page_text) :
  Forall (fun kw =>
            passed (field_check (extract_text_from_pdf pages) kw) = true
            <-> exists p, In p pages /\ occurs kw (or_empty p))
         (business_fields ++ disinfection_fields).
Proof.
  eapply Forall_impl; [| apply keywords_have_no_newline].
  intros kw [Hne Hnl]. cbn [field_check passed].
  rewrite contains_occurs. unfold extract_text_from_pdf.
  rewrite (@join_occurs kw newline _ Hne Hnl). split.
  - intros (x & Hin & H). apply in_map_iff in Hin as (p & <- & Hin).
    now exists p.
  - intros (p & Hin & H). exists (or_empty p). split; [| exact H].
    now apply in_map.
Qed.

Lemma basic_text_concat (pages : list page_text) :
  basic_text pages = concat (map or_empty pages).
Proof.
  unfold basic_text.
  assert (H : forall acc, fold_left (fun text p => text ++ or_empty p) pages acc
                          = acc ++ concat (map or_empty pages)).
  { induction pages as [|p pages IH]; intros acc; cbn.
    - now rewrite app_nil_r.
    - now rewrite IH, app_assoc. }
  apply H.
Qed.

Lemma join_length (c : Z) (l : list str) :
  l <> [] -> length (join [c] l) = (length (concat l) + (length l - 1))%nat.
Proof.
  induction l as [|x l IH]; [congruence | intros _].
  destruct l as [|y l].
  - cbn. rewrite app_nil_r. lia.
  - change (join [c] (x :: y :: l)) with (x ++ c :: join [c] (y :: l)).
    rewrite length_app. cbn [length]. rewrite IH by discriminate.
    cbn [concat length]. rewrite !length_app. cbn [concat]. lia.
Qed.

Lemma occurs_concat (w : str) (l : list str) (x : str) :
  In x l -> occurs w x -> occurs w (concat l).
Proof.
  induction l as [|y l IH]; [intros [] |].
  intros [<- | Hin] H; cbn [concat].
  - now apply occurs_app_l.
  - apply occurs_app_r. now apply IH.
Qed.

(** X3. The two extractors side by side.  The text of [app_basic.py]
    is the page texts put end to end: it is empty exactly when every page
    is without text; for a PDF with at least one page the text of
    [app_cloud_min.py] is longer by the joining line feeds, one less than
    the number of pages; and a required keyword found in the latter is
    also found in the former. *)
Theorem basic_and_cloud_texts (pages : list page_text) :
  basic_text pages = concat (map or_empty pages)
  /\ (basic_text pages = [] <-> Forall (fun p => or_empty p = []) pages)
  /\ (pages <> []
      -> length (extract_text_from_pdf pages)
         = (length (basic_text pages) + (length pages - 1))%nat)
  /\ Forall (fun kw =>
               contains kw (extract_text_from_pdf pages) = true
               -> contains kw (basic_text pages) = true)
            (business_fields ++ disinfection_fields).
Proof.
  split; [apply basic_text_concat |]. split; [| split].
  - rewrite basic_text_concat. induction pages as [|p pages IH]; cbn.
    + split; constructor.
    + split.
      * intros H. apply app_eq_nil in H as [Hp H]. constructor; [exact Hp |].
        now apply IH.
      * intros H. inversion H as [|? ? Hp Hr]; subst. rewrite Hp.
        now apply IH.
  - intros Hne. rewrite basic_text_concat. unfold extract_text_from_pdf.
    rewrite join_length, length_map; [reflexivity |].
    destruct pages; [congruence | discriminate].
  - eapply Forall_impl; [| apply keywords_have_no_newline].
    intros kw [Hne Hnl]. rewrite !contains_occurs, basic_text_concat.
    unfold extract_text_from_pdf. rewrite (@join_occurs kw newline _ Hne Hnl).
    intros (x & Hin & H). now apply (@occurs_concat kw _ x Hin).
Qed.

(* ================================================================== *)
(** * Facts about month_diff *)

Lemma binary_round_aux_opp (m e : Z) (l : location) :
  binary_round_aux 53 1024 true m e l
  = SFopp (binary_round_aux 53 1024 false m e l).
Proof.
  unfold binary_round_aux.
  destruct (shr_fexp 53 1024 m e l) as [r1 e1].
  destruct (shr_fexp 53 1024 _ e1 loc_Exact) as [r2 e2].
  destruct (shr_m r2); [reflexivity | | reflexivity].
  destruct (e2 <=? 1024 - 53); reflexivity.
Qed.

Lemma binary_normalize_opp (m e : Z) :
  negates (binary_normalize 53 1024 m e false)
          (binary_normalize 53 1024 (- m) e false).
Proof.
  destruct m as [|p|p]; cbn [binary_normalize Z.opp].
  - right. now exists false, false.
  - left. unfold binary_round.
    destruct (shl_align p e _) as [mz ez]. apply binary_round_aux_opp.
  - left. unfold binary_round.
    destruct (shl_align p e _) as [mz ez].
    rewrite binary_round_aux_opp.
    destruct (binary_round_aux 53 1024 false (Zpos mz) ez loc_Exact)
      as [[] | [] | | [] ? ?]; reflexivity.
Qed.

Lemma of_int_opp (z : Z) : negates (Float.of_int z) (Float.of_int (- z)).
Proof. apply binary_normalize_opp. Qed.

Lemma div_negates (x y : Float.float) :
  negates x y
  -> negates (Float.div x Float.lit_30_0) (Float.div y Float.lit_30_0).
Proof.
  intros [-> | (s & s' & -> & ->)].
  - left. unfold Float.div, Float.lit_30_0, Float.prec, Float.emax.
    destruct x as [[] | [] | | s m e]; cbn [SFopp SFdiv]; try reflexivity.
    destruct (SFdiv_core_binary 53 1024 (Zpos m) e _ _) as [[mz ez] lz].
    destruct s; cbn [negb xorb]; [| apply binary_round_aux_opp].
    rewrite binary_round_aux_opp.
    destruct (binary_round_aux 53 1024 false mz ez lz)
      as [[] | [] | | [] ? ?]; reflexivity.
  - right. exists (xorb s false), (xorb s' false). split; reflexivity.
Qed.

Lemma cond_Zopp_negb (s : bool) (m : Z) :
  cond_Zopp (negb s) m = - cond_Zopp s m.
Proof. destruct s; cbn; lia. Qed.

Lemma add_negates (a a' b b' : Float.float) :
  negates a a' -> negates b b'
  -> negates (Float.add a b) (Float.add a' b').
Proof.
  unfold Float.add, Float.prec, Float.emax.
  intros [-> | (s & s' & -> & ->)] [-> | (t & t' & -> & ->)].
  - destruct a as [sa | sa | | sa ma ea], b as [sb | sb | | sb mb eb];
      cbn [SFopp SFadd];
      try (left; reflexivity);
      try (destruct sa, sb; cbn [negb]; (left; reflexivity) ||
           (right; now exists false, false)).
    rewrite !cond_Zopp_negb, <- Z.opp_add_distr.
    apply binary_normalize_opp.
  - destruct a as [sa | sa | | sa ma ea]; cbn [SFopp SFadd].
    + right. destruct sa, t, t'; cbn [negb]; eauto.
    + left; reflexivity.
    + left; reflexivity.
    + left; reflexivity.
  - destruct b as [sb | sb | | sb mb eb]; cbn [SFopp SFadd].
    + right. destruct sb, s, s'; cbn [negb]; eauto.
    + left; reflexivity.
    + left; reflexivity.
    + left; reflexivity.
  - right. cbn [SFadd]. destruct s, s', t, t'; eauto.
Qed.

(** X4. The interval from a date to itself is +0.0, and swapping the
    arguments of [month_diff] negates the result exactly: the scaling of
    the days by 30 introduces no asymmetry (only the sign of a zero can
    differ). *)
Theorem month_diff_swap (a b : date) :
  month_diff a a = S754_zero false
  /\ negates (month_diff a b) (month_diff b a).
Proof.
  split.
  - unfold month_diff. rewrite !Z.sub_diag. reflexivity.
  - unfold month_diff. apply add_negates.
    + replace ((year b - year a) * 12 + (month b - month a))
        with (- ((year a - year b) * 12 + (month a - month b))) by lia.
      apply of_int_opp.
    + apply div_negates.
      replace (day b - day a) with (- (day a - day b)) by lia.
      apply of_int_opp.
Qed.

(** X5. Once a certificate is out of its period it stays so: if the
    compliance check passes on a day, it passes on every earlier day that
    is not before the anchoring date.  (The elapsed value
    12*years + months + days/30 never decreases from one day to the next.) *)
Theorem compliance_never_recovers (latest t1 t2 : date) :
  valid_date (year latest) (month latest) (day latest) = true
  -> valid_date (year t1) (month t1) (day t1) = true
  -> valid_date (year t2) (month t2) (day t2) = true
  -> ~ date_lt t1 latest
  -> ~ date_lt t2 t1
  -> passed (compliance_check t2 latest) = true
  -> passed (compliance_check t1 latest) = true.
Proof.
  intros Hl H1 H2 Hle1 Hle2.
  assert (Hle : ~ date_lt t2 latest) by (unfold date_lt in *; lia).
  cbn [compliance_check passed]. unfold month_diff.
  destruct (month_index_bounds H1 Hl Hle1) as [Hk1 Hd1].
  destruct (month_index_bounds H2 Hl Hle) as [Hk2 Hd2].
  rewrite (compliance_float_exact Hk1 Hd1 (threshold_cases latest)),
    (compliance_float_exact Hk2 Hd2 (threshold_cases latest)), !Z.leb_le.
  apply valid_date_ranges in Hl, H1, H2. unfold date_lt in *. lia.
Qed.

Lemma compliance_never_recovers_witness :
  passed (compliance_check (mkdate 2024 7 1) may_first) = true
  /\ passed (compliance_check (mkdate 2024 6 15) may_first) = true.
Proof.
  assert (H : passed (compliance_check (mkdate 2024 7 1) may_first) = true)
    by (vm_compute; reflexivity).
  split; [exact H |].
  apply (@compliance_never_recovers may_first (mkdate 2024 6 15) (mkdate 2024 7 1));
    try reflexivity; try exact H; unfold date_lt; cbn; lia.
Defined.

(* ================================================================== *)
(** * The report *)

Lemma passed_cnt_length (results : list CheckResult) :
  passed_cnt results = Z.of_nat (length (filter passed results)).
Proof.
  unfold passed_cnt.
  assert (H : forall (l : list CheckResult) acc,
             fold_left Z.add (map (fun _ => 1) l) acc
             = acc + Z.of_nat (length l)).
  { induction l as [|x l IH]; intros acc; cbn [map fold_left length].
    - lia.
    - rewrite IH. lia. }
  rewrite H. lia.
Qed.

Lemma passed_cnt_bounds (results : list CheckResult) :
  0 <= passed_cnt results <= total_cnt results.
Proof.
  rewrite passed_cnt_length. unfold total_cnt.
  pose proof (filter_length_le passed results). lia.
Qed.

Lemma run_check_cases (doc_type : str) (today : date) (text : str) :
  In doc_type (keys DOC_CHECKERS)
  -> (doc_type = u "사업자등록증"
      /\ run_check doc_type today text = check_business_registration text)
     \/ (doc_type = u "소독필증"
         /\ run_check doc_type today text
            = check_disinfection_certificate today text).
Proof.
  intros [<- | [<- | []]]; [left | right]; split; reflexivity.
Qed.

(** X6. With the document type taken from the select box, and once the
    PDF library has handed over the pages, a run of the script never ends
    in an exception.  Without an upload it shows the
    hint only; with a PDF whose extracted text is empty it shows the error
    and runs no check; otherwise it shows the first 4000 characters, the
    summary and one markdown line per result, in order.  The total of the
    summary is 6 for a business registration and, for a disinfection
    certificate, 8 when a date not after today was found and 7 otherwise;
    the passed count lies between 0 and the total. *)
Theorem script_runs_to_a_report (choice : nat) (today : date)
        (uploaded : option (list page_text)) :
  (choice < length (keys DOC_CHECKERS))%nat
  -> snd (run_script choice today uploaded) = None
     /\ (uploaded = None
         -> fst (run_script choice today uploaded)
            = [st_info (u "PDF를 업로드하면 자동 점검을 시작합니다.")])
     /\ (forall pages,
            uploaded = Some pages -> extract_text_from_pdf pages = []
            -> fst (run_script choice today uploaded)
               = [st_spinner (u "PDF 텍스트 추출 중...");
                  st_error (u "이 PDF에서는 텍스트를 추출하지 못했습니다. 스캔본(이미지)일 가능성이 있습니다.")])
     /\ (forall pages,
            uploaded = Some pages -> extract_text_from_pdf pages <> []
            -> exists results,
                run_check (selectbox (keys DOC_CHECKERS) choice) today
                          (extract_text_from_pdf pages) = Ok results
                /\ fst (run_script choice today uploaded)
                   = [st_spinner (u "PDF 텍스트 추출 중...");
                      st_subheader (u "📜 추출 텍스트 (일부)");
                      st_text (firstn 4000 (extract_text_from_pdf pages));
                      st_spinner (u "규칙 점검 중...");
                      st_subheader (u "✅ 자동 점검 요약");
                      st_write (str_of_int (passed_cnt results) ++ u " / "
                                ++ str_of_int (total_cnt results)
                                ++ u " 항목 통과");
                      st_subheader (u "🔍 상세 결과")]
                     ++ map (fun r => st_markdown (result_markdown r) true)
                            results
                /\ 0 <= passed_cnt results <= total_cnt results
                /\ total_cnt results
                   = match choice with
                     | O => 6
                     | _ => if is_some (latest_of today
                                          (extract_text_from_pdf pages))
                            then 8 else 7
                     end).
Proof.
  intros Hc. unfold run_script.
  assert (Hin : In (selectbox (keys DOC_CHECKERS) choice) (keys DOC_CHECKERS))
    by (apply nth_In; exact Hc).
  set (doc_type := selectbox (keys DOC_CHECKERS) choice) in *.
  assert (Hok : forall text, exists results,
               run_check doc_type today text = Ok results
               /\ total_cnt results
                  = match choice with
                    | O => 6
                    | _ => if is_some (latest_of today text) then 8 else 7
                    end).
  { intros text. subst doc_type.
    destruct choice as [|[|choice]]; [| | cbn in Hc; lia].
    - exists (map (field_check text) business_fields ++ [format_check text]).
      split; [apply check_business_registration_unfold | reflexivity].
    - eexists. split; [apply check_disinfection_certificate_unfold |].
      destruct (latest_of today text); reflexivity. }
  destruct uploaded as [pages|]; cbn [on_upload].
  - destruct (extract_text_from_pdf pages) as [|c text] eqn:E.
    + split; [reflexivity |]. split; [discriminate |].
      split; [intros pages' [= <-] _; reflexivity |].
      intros pages' [= <-] H. rewrite E in H. contradiction.
    + destruct (Hok (c :: text)) as (results & Hrun & Htot). rewrite Hrun.
      split; [reflexivity |]. split; [discriminate |].
      split; [intros pages' [= <-] H; rewrite E in H; discriminate |].
      intros pages' [= <-] _. rewrite E. exists results.
      split; [exact Hrun |]. split; [reflexivity |].
      split; [apply passed_cnt_bounds | exact Htot].
  - split; [reflexivity |]. split; [reflexivity |].
    split; intros pages; discriminate.
Qed.

Lemma script_runs_to_a_report_witness :
  snd (run_script 1 (mkdate 2024 6 15) (Some [None; Some (u "소독 2024.05.01")]))
  = None.
Proof.
  apply (@script_runs_to_a_report 1 (mkdate 2024 6 15)
           (Some [None; Some (u "소독 2024.05.01")])).
  cbn. lia.
Defined.

(* ================================================================== *)
(** * What reaches the markup *)

Lemma plainb_plain (c : Z) : plainb c = true -> plain c.
Proof. unfold plainb, plain. lia. Qed.

Lemma forallb_plain (s : str) : forallb plainb s = true -> Forall plain s.
Proof.
  intros H. apply Forall_forall. intros c Hc. apply plainb_plain.
  now apply (proj1 (forallb_forall _ _) H).
Qed.

Lemma digit_range_plain (s : str) :
  Forall (fun c => 48 <= c <= 57) s -> Forall plain s.
Proof. apply Forall_impl. unfold plain. lia. Qed.

Lemma dec_digits_range (fuel : nat) :
  forall n acc, Forall (fun c => 48 <= c <= 57) acc
                -> Forall (fun c => 48 <= c <= 57) (dec_digits fuel n acc).
Proof.
  induction fuel as [|fuel IH]; intros n acc Hacc; cbn [dec_digits];
    [exact Hacc |].
  assert (H : Forall (fun c => 48 <= c <= 57) ((48 + n mod 10) :: acc)).
  { constructor; [| exact Hacc]. pose proof (Z.mod_pos_bound n 10). lia. }
  destruct (n <? 10); [exact H | now apply IH].
Qed.

Lemma zero_pad_range (w : nat) (n : Z) :
  Forall (fun c => 48 <= c <= 57) (zero_pad w n).
Proof.
  unfold zero_pad, str_of_int. apply Forall_app. split.
  - apply Forall_forall. intros c Hc. apply repeat_spec in Hc. lia.
  - apply dec_digits_range. constructor.
Qed.

Lemma str_of_int_plain (n : Z) : Forall plain (str_of_int n).
Proof. apply digit_range_plain, dec_digits_range. constructor. Qed.

Lemma date_str_plain (dt : date) : Forall plain (date_str dt).
Proof.
  unfold date_str.
  apply Forall_app; split; [apply digit_range_plain, zero_pad_range |].
  apply Forall_app; split; [apply forallb_plain; reflexivity |].
  apply Forall_app; split; [apply digit_range_plain, zero_pad_range |].
  apply Forall_app; split; [apply forallb_plain; reflexivity |].
  apply digit_range_plain, zero_pad_range.
Qed.

Lemma format_1f_plain (f : Float.float) : Forall plain (Float.format_1f f).
Proof.
  destruct f as [s | s | | s m e]; cbn [Float.format_1f].
  - destruct s; apply forallb_plain; reflexivity.
  - destruct s; apply forallb_plain; reflexivity.
  - apply forallb_plain; reflexivity.
  - apply Forall_app; split; [destruct s; apply forallb_plain; reflexivity |].
    apply Forall_app; split; [apply str_of_int_plain |].
    apply Forall_app; split; [apply forallb_plain; reflexivity |].
    apply str_of_int_plain.
Qed.

Lemma isdecimal_plain (c : Z) : isdecimal c = true -> plain c.
Proof.
  assert (H60 : isdecimal 60 = false) by (vm_compute; reflexivity).
  assert (H62 : isdecimal 62 = false) by (vm_compute; reflexivity).
  assert (H38 : isdecimal 38 = false) by (vm_compute; reflexivity).
  intros H. repeat split; intros ->; congruence.
Qed.

Lemma digits_plain (n : nat) (w : str) : digits n w -> Forall plain w.
Proof. intros [_ H]. eapply Forall_impl; [| exact H]. apply isdecimal_plain. Qed.

Lemma brn_form_plain (w : str) : brn_form w -> Forall plain w.
Proof.
  intros [(a & b & c & -> & Ha & Hb & Hc) | H]; [| now apply (@digits_plain 10)].
  repeat (apply Forall_app; split);
    try (eapply digits_plain; eassumption);
    apply forallb_plain; reflexivity.
Qed.

Lemma field_check_plain (text : str) :
  Forall (fun kw => plain_result (field_check text kw))
         (business_fields ++ disinfection_fields).
Proof.
  unfold business_fields, disinfection_fields. cbn [app].
  repeat (apply Forall_cons;
          [unfold plain_result, field_check; cbn [name detail];
           destruct (contains _ text);
           split; apply forallb_plain; vm_compute; reflexivity |]).
  apply Forall_nil.
Qed.

Lemma format_check_plain (text : str) : plain_result (format_check text).
Proof.
  unfold plain_result, format_check. cbn [name detail].
  split; [apply forallb_plain; vm_compute; reflexivity |].
  apply Forall_app. split; [apply forallb_plain; vm_compute; reflexivity |].
  destruct (search brn_pattern text) as [m|] eqn:E.
  - destruct (proj2 (reads_search text reads_brn) m E) as (_ & _ & _ & H & _).
    now apply brn_form_plain.
  - apply forallb_plain; reflexivity.
Qed.

Lemma date_found_check_plain (latest : option date) :
  plain_result (date_found_check latest).
Proof.
  unfold plain_result, date_found_check. cbn [name detail].
  split; [apply forallb_plain; vm_compute; reflexivity |].
  apply Forall_app. split; [apply forallb_plain; vm_compute; reflexivity |].
  destruct latest; [apply date_str_plain | apply forallb_plain; reflexivity].
Qed.

Lemma compliance_check_plain (today latest : date) :
  plain_result (compliance_check today latest).
Proof.
  unfold plain_result, compliance_check. cbn [name detail].
  split; [apply forallb_plain; vm_compute; reflexivity |].
  repeat (apply Forall_app; split); try apply format_1f_plain;
    try (destruct (is_summer latest));
    apply forallb_plain; vm_compute; reflexivity.
Qed.

Lemma future_check_plain (today : date) (text : str) :
  plain_result (future_check today text).
Proof.
  unfold plain_result, future_check. cbn [name detail].
  split; [apply forallb_plain; vm_compute; reflexivity |].
  destruct (existsb _ _); apply forallb_plain; vm_compute; reflexivity.
Qed.

Lemma Ok_inj {A} (a b : A) : Ok a = Ok b -> a = b.
Proof. now intros [= ->]. Qed.

(** X7. Nothing of the document can put markup on the page: whatever
    the text, no name and no detail of a result contains '<', '>' or '&'.
    The only text-derived part, the matched registration number, consists
    of digits and hyphens; the markdown line of a result, shown with
    [unsafe_allow_html=True], therefore carries only the tags of its
    template. *)
Theorem results_carry_no_markup (doc_type : str) (today : date) (text : str)
        (results : list CheckResult) :
  run_check doc_type today text = Ok results
  -> Forall (fun r => Forall plain (name r) /\ Forall plain (detail r)
                      /\ result_markdown r
                         = u "**• " ++ name r ++ u "** — <span style='color:"
                           ++ (if passed r then u "green" else u "red")
                           ++ u "'>"
                           ++ (if passed r then u "적합" else u "부적합")
                           ++ u "</span><br/>↳ " ++ detail r)
            results.
Proof.
  intros Hrun.
  assert (Hkey : In doc_type (keys DOC_CHECKERS)).
  { destruct (in_dec (list_eq_dec Z.eq_dec) doc_type (keys DOC_CHECKERS))
      as [H | H]; [exact H | exfalso].
    unfold run_check, dispatch in Hrun.
    rewrite (proj2 (@dict_get_spec _ DOC_CHECKERS doc_type) H) in Hrun.
    discriminate. }
  assert (Hplain : Forall plain_result results).
  { pose proof (field_check_plain text) as Hf.
    apply Forall_app in Hf as [Hb Hd].
    destruct (run_check_cases today text Hkey) as [[_ Hr] | [_ Hr]];
      rewrite Hr in Hrun.
    - rewrite check_business_registration_unfold in Hrun.
      apply Ok_inj in Hrun. subst results. apply Forall_app. split.
      + now apply Forall_map.
      + apply Forall_cons; [apply format_check_plain | apply Forall_nil].
    - rewrite check_disinfection_certificate_unfold in Hrun.
      apply Ok_inj in Hrun. subst results.
      apply Forall_app; split; [now apply Forall_map |].
      apply Forall_app; split;
        [apply Forall_cons; [apply date_found_check_plain | apply Forall_nil] |].
      apply Forall_app; split.
      + destruct (latest_of today text); [| apply Forall_nil].
        apply Forall_cons; [apply compliance_check_plain | apply Forall_nil].
      + apply Forall_cons; [apply future_check_plain | apply Forall_nil]. }
  eapply Forall_impl; [| exact Hplain].
  intros r [Hn Hd]. split; [exact Hn |]. split; [exact Hd | reflexivity].
Qed.

Lemma results_carry_no_markup_witness :
  Forall (fun r => Forall plain (name r) /\ Forall plain (detail r)
                   /\ result_markdown r
                      = u "**• " ++ name r ++ u "** — <span style='color:"
                        ++ (if passed r then u "green" else u "red")
                        ++ u "'>"
                        ++ (if passed r then u "적합" else u "부적합")
                        ++ u "</span><br/>↳ " ++ detail r)
         (map (field_check (u "<b>상호</b> 123-45-67890")) business_fields
          ++ [format_check (u "<b>상호</b> 123-45-67890")]).
Proof.
  apply (@results_carry_no_markup (u "사업자등록증") (mkdate 2024 6 15)
           (u "<b>상호</b> 123-45-67890")).
  reflexivity.
Defined.

(* ================================================================== *)
(** * What a pattern matches *)

Section Denotation.

Local Open Scope nat_scope.

Lemma star_tails_iff (cs : list citem) (s : str) (n n' : nat) (s' : str) :
  In (n', s') (star_tails cs n s)
  <-> exists w, s = (w ++ s')%list /\ n' = n + length w
                /\ Forall (fun a => set_mem cs a = true) w.
Proof.
  revert n; induction s as [|c s IH]; intros n; cbn [star_tails].
  - split.
    + intros [[= <- <-] | []]. exists []. repeat split; [cbn; lia | constructor].
    + intros (w & Hs & -> & _). symmetry in Hs.
      apply app_eq_nil in Hs as [-> ->]. left. f_equal. cbn. lia.
  - rewrite in_app_iff. split.
    + intros [H | [[= <- <-] | []]].
      * destruct (set_mem cs c) eqn:E; [| destruct H].
        apply IH in H as (w & -> & -> & Hw). exists (c :: w).
        repeat split; [cbn; lia | now constructor].
      * exists []. repeat split; [cbn; lia | constructor].
    + intros (w & Hs & -> & Hw). destruct w as [|a w].
      * right. left. cbn in Hs. subst s'. f_equal. cbn. lia.
      * left. injection Hs as <- ->. inversion Hw as [|? ? Ha Hw']; subst.
        rewrite Ha. apply IH. exists w. repeat split; [cbn; lia | exact Hw'].
Qed.

Lemma matches_cat (P Q : str -> list str -> Prop) (l1 : list mstate)
      (f : mstate -> list mstate) (st st' : mstate) :
  (forall mid, In mid l1
               <-> exists w gs, P w gs /\ todo st = (w ++ todo mid)%list
                                /\ pos mid = pos st + length w
                                /\ caps mid = (caps st ++ gs)%list)
  -> (forall mid st', In st' (f mid)
                      <-> exists w gs, Q w gs
                                       /\ todo mid = (w ++ todo st')%list
                                       /\ pos st' = pos mid + length w
                                       /\ caps st' = (caps mid ++ gs)%list)
  -> (In st' (flat_map f l1)
      <-> exists w gs,
         (exists w1 g1 w2 g2, w = (w1 ++ w2)%list /\ gs = (g1 ++ g2)%list
                              /\ P w1 g1 /\ Q w2 g2)
         /\ todo st = (w ++ todo st')%list
         /\ pos st' = pos st + length w
         /\ caps st' = (caps st ++ gs)%list).
Proof.
  intros H1 H2. rewrite in_flat_map. split.
  - intros (mid & Hm & H). apply H1 in Hm as (w1 & g1 & Hw1 & Ht1 & Hp1 & Hc1).
    apply H2 in H as (w2 & g2 & Hw2 & Ht2 & Hp2 & Hc2).
    exists (w1 ++ w2)%list, (g1 ++ g2)%list.
    split; [now exists w1, g1, w2, g2 |].
    rewrite Ht1, Ht2, Hp2, Hp1, Hc2, Hc1, length_app, <- !app_assoc.
    repeat split. lia.
  - intros (w & gs & (w1 & g1 & w2 & g2 & -> & -> & Hw1 & Hw2) & Ht & Hp & Hc).
    exists {| caps := (caps st ++ g1)%list; pos := pos st + length w1;
              todo := (w2 ++ todo st')%list |}.
    split.
    + apply H1. exists w1, g1. cbn [caps pos todo].
      rewrite Ht, <- app_assoc. now repeat split.
    + apply H2. exists w2, g2. cbn [caps pos todo].
      rewrite length_app in Hp. rewrite <- app_assoc.
      repeat split; [exact Hw2 | lia | exact Hc].
Qed.

(** The matcher is sound and complete for the patterns' meaning. *)
Lemma run_glang (r : regex) : matches (glang r) r.
Proof.
  induction r as [| c | cs | r1 IH1 r2 IH2 | r1 IH1 r2 IH2 | r1 IH1 | cs
                  | n r1 IH1 | r1 IH1]; intros st st'; cbn [run glang].
  - split.
    + intros [<- | []]. exists [], []. rewrite app_nil_r.
      repeat split. cbn. lia.
    + intros (w & gs & [-> ->] & Ht & Hp & Hc). left. cbn in Ht, Hp.
      rewrite app_nil_r in Hc. apply mstate_ext; [congruence | lia | congruence].
  - rewrite step_spec. split.
    + intros (a & Ht & Ha & Hp & Hc). apply Z.eqb_eq in Ha. subst a.
      exists [c], []. rewrite app_nil_r.
      repeat split; [exact Ht | cbn; lia | exact Hc].
    + intros (w & gs & [-> ->] & Ht & Hp & Hc). exists c.
      rewrite app_nil_r in Hc.
      repeat split; [exact Ht | apply Z.eqb_refl | cbn in Hp; lia | exact Hc].
  - rewrite step_spec. split.
    + intros (a & Ht & Ha & Hp & Hc). exists [a], []. rewrite app_nil_r.
      repeat split; [now exists a | exact Ht | cbn; lia | exact Hc].
    + intros (w & gs & [(a & -> & Ha) ->] & Ht & Hp & Hc). exists a.
      rewrite app_nil_r in Hc.
      repeat split; [exact Ht | exact Ha | cbn in Hp; lia | exact Hc].
  - apply (@matches_cat (glang r1) (glang r2)).
    + intros mid. apply IH1.
    + intros mid st2. apply IH2.
  - rewrite in_app_iff, (IH1 st st'), (IH2 st st'). split.
    + intros [(w & gs & H & Hr) | (w & gs & H & Hr)]; exists w, gs; tauto.
    + intros (w & gs & [H | H] & Hr); [left | right]; now exists w, gs.
  - rewrite in_app_iff, (IH1 st st'). split.
    + intros [(w & gs & H & Hr) | [<- | []]].
      * exists w, gs. tauto.
      * exists [], []. rewrite app_nil_r. split; [now right |].
        repeat split. cbn. lia.
    + intros (w & gs & [H | [-> ->]] & Ht & Hp & Hc).
      * left. now exists w, gs.
      * right. left. cbn in Ht, Hp. rewrite app_nil_r in Hc.
        apply mstate_ext; [congruence | lia | congruence].
  - rewrite in_map_iff. split.
    + intros ([n' s'] & <- & H). cbn [caps pos todo fst snd].
      apply star_tails_iff in H as (w & Hs & Hn & Hw).
      exists w, []. rewrite app_nil_r. now repeat split.
    + intros (w & gs & [Hw ->] & Ht & Hp & Hc).
      exists (pos st', todo st'). cbn [fst snd]. split.
      * rewrite app_nil_r in Hc. apply mstate_ext; cbn; congruence.
      * apply star_tails_iff. now exists w.
  - revert st'. induction n as [|n IHn]; intros st'; cbn [Nat.iter rep_g].
    + split.
      * intros [<- | []]. exists [], []. rewrite app_nil_r.
        repeat split. cbn. lia.
      * intros (w & gs & [-> ->] & Ht & Hp & Hc). left. cbn in Ht, Hp.
        rewrite app_nil_r in Hc.
        apply mstate_ext; [congruence | lia | congruence].
    + apply (@matches_cat (rep_g n (glang r1)) (glang r1)).
      * intros mid. apply IHn.
      * intros mid st2. apply IH1.
  - rewrite in_map_iff. split.
    + intros (st1 & <- & H). cbn [caps pos todo].
      apply IH1 in H as (w & g1 & Hw & Ht & Hp & Hc).
      exists w, (g1 ++ [w])%list. split; [now exists g1 |].
      rewrite Hp, Ht, Hc. replace (pos st + length w - pos st) with (length w) by lia.
      rewrite firstn_length_app, <- app_assoc. now repeat split.
    + intros (w & gs & (g1 & Hw & ->) & Ht & Hp & Hc).
      exists {| caps := (caps st ++ g1)%list; pos := pos st'; todo := todo st' |}.
      split.
      * apply mstate_ext; cbn [caps pos todo]; try reflexivity.
        rewrite Hp, Ht, Hc.
        replace (pos st + length w - pos st) with (length w) by lia.
        now rewrite firstn_length_app, <- app_assoc.
      * apply IH1. exists w, g1. now repeat split.
Qed.

(** What a match object holds. *)
Lemma match_at_glang (r : regex) (s : str) (m : match_obj) :
  match_at r s = Some m
  -> s = (group0 m ++ rest m)%list /\ glang r (group0 m) (groups m).
Proof.
  intros H. apply match_at_Some in H as (Hs & st' & Hin & Hg & Hr & Hp).
  split; [exact Hs |].
  apply run_glang in Hin as (w & gs & Hw & Ht & _ & Hc).
  cbn in Ht, Hc. rewrite Hs, Hr in Ht. apply app_inv_tail in Ht.
  now rewrite Ht, Hg, Hc.
Qed.

(** Every match the scan yields is a match at some place of the text. *)
Lemma finditer_from_In (r : regex) (m : match_obj) :
  forall fuel s,
    In m (finditer_from fuel r s)
    -> exists pre, s = (pre ++ group0 m ++ rest m)%list
                   /\ match_at r (group0 m ++ rest m) = Some m.
Proof.
  induction fuel as [|fuel IH]; intros s; cbn [finditer_from]; [intros [] |].
  assert (Hstep : forall c s', s = c :: s' -> In m (finditer_from fuel r s')
                  -> exists pre, s = (pre ++ group0 m ++ rest m)%list
                                 /\ match_at r (group0 m ++ rest m) = Some m).
  { intros c s' -> H. apply IH in H as (pre & -> & Hm).
    exists (c :: pre). split; [reflexivity | exact Hm]. }
  destruct (match_at r s) as [m0|] eqn:E.
  - intros [<- | H].
    + exists []. pose proof (match_at_Some _ _ E) as [Hs _].
      split; [exact Hs | now rewrite <- Hs].
    + pose proof (match_at_Some _ _ E) as [Hs _].
      destruct (group0 m0) as [|g0 gs] eqn:G.
      * destruct s as [|c s']; [destruct H | now apply (Hstep c s')].
      * apply IH in H as (pre & Hr & Hm). rewrite Hs, Hr.
        exists ((g0 :: gs) ++ pre)%list. rewrite <- app_assoc.
        split; [reflexivity | exact Hm].
  - destruct s as [|c s']; [intros [] | now apply (Hstep c s')].
Qed.

End Denotation.

(* ================================================================== *)
(** * The shape of a date match *)

Ltac glang_compute r H :=
  let r' := eval vm_compute in r in
  change r with r' in H; cbn [glang rep_g] in H.

Ltac glang_inv :=
  repeat match goal with
         | H : exists _, _ |- _ => destruct H
         | H : _ /\ _ |- _ => destruct H
         | H : _ \/ _ |- _ => destruct H
         end;
  subst;
  cbn [set_mem existsb citem_mem app] in *;
  repeat match goal with
         | H : _ || false = true |- _ => rewrite orb_false_r in H
         | H : _ || _ = true |- _ => apply orb_true_iff in H; destruct H
         | H : _ && _ = true |- _ => apply andb_true_iff in H; destruct H
         | H : (_ <=? _) = true |- _ => apply Z.leb_le in H
         | H : (_ =? _) = true |- _ => apply Z.eqb_eq in H
         end.

Lemma year20_shape (w : str) (gs : list str) :
  glang year20 w gs
  -> gs = [] /\ exists a b, w = [50; 48; a; b]
                            /\ isdecimal a = true /\ isdecimal b = true.
Proof.
  intros H. glang_compute year20 H. glang_inv. split; [reflexivity |].
  eexists _, _. split; [reflexivity | auto].
Qed.

Lemma sep_shape (w : str) (gs : list str) :
  glang sep w gs -> gs = [] /\ exists c, w = [c] /\ is_sep c.
Proof.
  intros H. glang_compute sep H. glang_inv; subst;
    (split; [reflexivity |]); eexists; (split; [reflexivity |]);
    unfold is_sep; vm_compute; tauto.
Qed.

Lemma month2_shape (w : str) (gs : list str) :
  glang month2 w gs
  -> gs = [] /\ exists c, (w = [48; c] /\ 49 <= c <= 57)
                          \/ (w = [49; c] /\ 48 <= c <= 50).
Proof.
  intros H. glang_compute month2 H. glang_inv;
    (split; [reflexivity |]); eexists; [left | right]; (split; [reflexivity | lia]).
Qed.

Lemma day2_shape (w : str) (gs : list str) :
  glang day2 w gs
  -> gs = []
     /\ ((exists c, w = [48; c] /\ 49 <= c <= 57)
         \/ (exists a c, w = [a; c] /\ (a = 49 \/ a = 50) /\ isdecimal c = true)
         \/ (exists c, w = [51; c] /\ (c = 48 \/ c = 49))).
Proof.
  intros H. glang_compute day2 H. glang_inv; subst;
    (split; [reflexivity |]);
    first [ left; eexists; split; [reflexivity | lia]
          | right; left; eexists _, _; split; [reflexivity | split; [auto | assumption]]
          | right; right; eexists; split; [reflexivity | auto] ].
Qed.

Lemma kmonth_shape (w : str) (gs : list str) :
  glang kmonth w gs
  -> gs = []
     /\ ((exists c, w = [49; c] /\ 48 <= c <= 50)
         \/ (exists c, w = [48; c] /\ isdecimal c = true)
         \/ (exists c, w = [c] /\ isdecimal c = true)).
Proof.
  intros H. glang_compute kmonth H. glang_inv; subst;
    (split; [reflexivity |]);
    first [ left; eexists; split; [reflexivity | lia]
          | right; left; eexists; split; [reflexivity | assumption]
          | right; right; eexists; split; [reflexivity | assumption] ].
Qed.

Lemma kday_shape (w : str) (gs : list str) :
  glang kday w gs
  -> gs = []
     /\ ((exists c, w = [51; c] /\ (c = 48 \/ c = 49))
         \/ (exists a c, w = [a; c] /\ (a = 49 \/ a = 50) /\ isdecimal c = true)
         \/ (exists c, w = [c] /\ isdecimal c = true)).
Proof.
  intros H. glang_compute kday H. glang_inv; subst;
    (split; [reflexivity |]);
    first [ left; eexists; split; [reflexivity | auto]
          | right; left; eexists _, _; split; [reflexivity | split; [auto | assumption]]
          | right; right; eexists; split; [reflexivity | assumption] ].
Qed.

Lemma ws_shape (w : str) (gs : list str) :
  glang ws w gs -> gs = [] /\ spaces w.
Proof.
  intros [H ->]. split; [reflexivity |].
  eapply Forall_impl; [| exact H]. intros c Hc. cbn in Hc.
  now rewrite orb_false_r in Hc.
Qed.

Lemma decimal_value_range (c v : Z) : decimal_value c = Some v -> 0 <= v <= 9.
Proof.
  unfold decimal_value.
  destruct (find _ decimal_zeros) as [z|] eqn:E; [| discriminate].
  intros [= <-]. apply find_some in E as [_ E].
  apply andb_true_iff in E as [E1 E2]. lia.
Qed.

Lemma decimal_value_ascii (c : Z) :
  48 <= c <= 57 -> decimal_value c = Some (c - 48).
Proof.
  intros H. unfold decimal_value, decimal_zeros. cbn [find].
  replace ((48 <=? c) && (c <? 48 + 10)) with true; [reflexivity |].
  symmetry. apply andb_true_iff. lia.
Qed.

Lemma isdecimal_value (c : Z) :
  isdecimal c = true -> exists v, decimal_value c = Some v /\ 0 <= v <= 9.
Proof.
  unfold isdecimal. destruct (decimal_value c) as [v|] eqn:E; [| discriminate].
  intros _. exists v. split; [reflexivity | now apply decimal_value_range in E].
Qed.

Lemma isdecimal_ascii (c : Z) : 48 <= c <= 57 -> isdecimal c = true.
Proof. intros H. unfold isdecimal. now rewrite decimal_value_ascii. Qed.

Lemma py_int_1 (a va : Z) :
  decimal_value a = Some va -> py_int [a] = Ok va.
Proof. intros Ha. cbn [py_int int_digits]. rewrite Ha. f_equal; lia. Qed.

Lemma py_int_2 (a b va vb : Z) :
  decimal_value a = Some va -> decimal_value b = Some vb
  -> py_int [a; b] = Ok (10 * va + vb).
Proof.
  intros Ha Hb. cbn [py_int int_digits]. rewrite Ha, Hb. f_equal; lia.
Qed.

Lemma py_int_4 (a b c e va vb vc ve : Z) :
  decimal_value a = Some va -> decimal_value b = Some vb
  -> decimal_value c = Some vc -> decimal_value e = Some ve
  -> py_int [a; b; c; e] = Ok (1000 * va + 100 * vb + 10 * vc + ve).
Proof.
  intros Ha Hb Hc He. cbn [py_int int_digits]. rewrite Ha, Hb, Hc, He.
  f_equal; lia.
Qed.

Ltac digits_tac :=
  split; [reflexivity |];
  repeat (apply Forall_cons; [first [assumption | apply isdecimal_ascii; lia] |]);
  apply Forall_nil.

Lemma year20_int (w : str) (gs : list str) :
  glang year20 w gs -> gs = [] /\ exists y, reads_int 4 w 2000 2099 y.
Proof.
  intros H. apply year20_shape in H as (-> & a & b & -> & Ha & Hb).
  split; [reflexivity |].
  destruct (isdecimal_value _ Ha) as (va & Ea & Ra).
  destruct (isdecimal_value _ Hb) as (vb & Eb & Rb).
  exists (1000 * 2 + 100 * 0 + 10 * va + vb). split; [digits_tac |]. split.
  - apply py_int_4; try assumption; now apply decimal_value_ascii.
  - lia.
Qed.

Lemma month2_int (w : str) (gs : list str) :
  glang month2 w gs -> gs = [] /\ exists v, reads_int 2 w 1 12 v.
Proof.
  intros H. apply month2_shape in H as (-> & c & [[-> Hc] | [-> Hc]]);
    (split; [reflexivity |]).
  - exists (10 * (48 - 48) + (c - 48)). split; [digits_tac |]. split; [| lia].
    apply py_int_2; apply decimal_value_ascii; lia.
  - exists (10 * (49 - 48) + (c - 48)). split; [digits_tac |]. split; [| lia].
    apply py_int_2; apply decimal_value_ascii; lia.
Qed.

Lemma day2_int (w : str) (gs : list str) :
  glang day2 w gs -> gs = [] /\ exists v, reads_int 2 w 1 31 v.
Proof.
  intros H.
  apply day2_shape in H
    as (-> & [(c & -> & Hc) | [(a & c & -> & Ha & Hc) | (c & -> & Hc)]]);
    (split; [reflexivity |]).
  - exists (10 * (48 - 48) + (c - 48)). split; [digits_tac |]. split; [| lia].
    apply py_int_2; apply decimal_value_ascii; lia.
  - destruct (isdecimal_value _ Hc) as (vc & Ec & Rc).
    exists (10 * (a - 48) + vc). split; [digits_tac |]. split; [| lia].
    apply py_int_2; [apply decimal_value_ascii; lia | exact Ec].
  - exists (10 * (51 - 48) + (c - 48)). split; [digits_tac |]. split; [| lia].
    apply py_int_2; apply decimal_value_ascii; lia.
Qed.

Lemma kmonth_int (w : str) (gs : list str) :
  glang kmonth w gs
  -> gs = [] /\ exists v, (reads_int 1 w 0 9 v \/ reads_int 2 w 0 12 v).
Proof.
  intros H.
  apply kmonth_shape in H
    as (-> & [(c & -> & Hc) | [(c & -> & Hc) | (c & -> & Hc)]]);
    (split; [reflexivity |]).
  - exists (10 * (49 - 48) + (c - 48)). right. split; [digits_tac |].
    split; [| lia]. apply py_int_2; apply decimal_value_ascii; lia.
  - destruct (isdecimal_value _ Hc) as (vc & Ec & Rc).
    exists (10 * (48 - 48) + vc). right. split; [digits_tac |].
    split; [| lia]. apply py_int_2; [apply decimal_value_ascii; lia | exact Ec].
  - destruct (isdecimal_value _ Hc) as (vc & Ec & Rc).
    exists vc. left. split; [digits_tac |]. split; [| lia].
    now apply py_int_1.
Qed.

Lemma kday_int (w : str) (gs : list str) :
  glang kday w gs
  -> gs = [] /\ exists v, (reads_int 1 w 0 9 v \/ reads_int 2 w 10 31 v).
Proof.
  intros H.
  apply kday_shape in H
    as (-> & [(c & -> & Hc) | [(a & c & -> & Ha & Hc) | (c & -> & Hc)]]);
    (split; [reflexivity |]).
  - exists (10 * (51 - 48) + (c - 48)). right. split; [digits_tac |].
    split; [| lia]. apply py_int_2; apply decimal_value_ascii; lia.
  - destruct (isdecimal_value _ Hc) as (vc & Ec & Rc).
    exists (10 * (a - 48) + vc). right. split; [digits_tac |].
    split; [| lia]. apply py_int_2; [apply decimal_value_ascii; lia | exact Ec].
  - destruct (isdecimal_value _ Hc) as (vc & Ec & Rc).
    exists vc. left. split; [digits_tac |]. split; [| lia].
    now apply py_int_1.
Qed.

Lemma lits_shape (s w : str) (gs : list str) :
  glang (lits s) w gs -> w = s /\ gs = [].
Proof.
  unfold lits, seq. revert w gs. induction s as [|c s IH]; intros w gs;
    cbn [map fold_right glang].
  - tauto.
  - intros (w1 & g1 & w2 & g2 & -> & -> & [-> ->] & H).
    apply IH in H as [-> ->]. split; reflexivity.
Qed.

Lemma pattern_korean_eq :
  pattern_korean
  = seq [Grp year20; ws; lits (u "년"); ws; Grp kmonth; ws; lits (u "월"); ws;
         Grp kday; ws; lits (u "일")].
Proof. reflexivity. Qed.

Ltac shapes :=
  repeat match goal with
         | H : exists _, _ |- _ => destruct H
         | H : _ /\ _ |- _ => destruct H
         | H : glang Eps _ _ |- _ => cbn [glang] in H
         | H : glang (Grp _) _ _ |- _ => cbn [glang] in H
         | H : glang year20 _ _ |- _ => apply year20_int in H
         | H : glang month2 _ _ |- _ => apply month2_int in H
         | H : glang day2 _ _ |- _ => apply day2_int in H
         | H : glang kmonth _ _ |- _ => apply kmonth_int in H
         | H : glang kday _ _ |- _ => apply kday_int in H
         | H : glang sep _ _ |- _ => apply sep_shape in H
         | H : glang ws _ _ |- _ => apply ws_shape in H
         | H : glang (lits _) _ _ |- _ => apply lits_shape in H
         end;
  subst.

Lemma not_year_mark (w : str) :
  Forall (fun c => isdecimal c = true \/ is_sep c) w
  -> contains (u "년") w = false.
Proof.
  intros H. destruct (contains (u "년") w) eqn:E; [exfalso | reflexivity].
  apply contains_occurs in E as (pre & post & ->).
  apply Forall_app in H as [_ H]. apply Forall_app in H as [H _].
  change (u "년") with [45380] in H.
  assert (Hd : isdecimal 45380 = false) by (vm_compute; reflexivity).
  inversion H as [|c l Hc _]; subst.
  destruct Hc as [Hc | Hc]; [congruence |].
  unfold is_sep in Hc. change (u "./-") with [46; 47; 45] in Hc.
  destruct Hc as [Hc | [Hc | [Hc | []]]]; discriminate.
Qed.

Lemma digits_or_sep (n : nat) (w : str) :
  digits n w -> Forall (fun c => isdecimal c = true \/ is_sep c) w.
Proof. intros [_ H]. eapply Forall_impl; [| exact H]. auto. Qed.

Lemma bind_dates (Y M D : str) (y mth dd : Z) :
  py_int Y = Ok y -> py_int M = Ok mth -> py_int D = Ok dd
  -> (v <- py_int Y ;; w <- py_int M ;; x <- py_int D ;;
      dt <- date_new v w x ;; Ok (Some dt))
     = (dt <- date_new y mth dd ;; Ok (Some dt)).
Proof. intros -> -> ->. reflexivity. Qed.

(** A match of the third pattern is a date in the long notation. *)
Lemma korean_match_written (s : str) (m : match_obj) :
  match_at pattern_korean s = Some m
  -> exists y mth dd,
      written_korean (group0 m) y mth dd
      /\ date_of_match m = (dt <- date_new y mth dd ;; Ok (Some dt)).
Proof.
  intros H. apply match_at_glang in H as [_ Hg].
  destruct m as [g0 gs rst]. cbn [group0 groups] in Hg.
  unfold date_of_match. cbn [group0 groups].
  rewrite pattern_korean_eq in Hg. unfold seq in Hg. cbn [fold_right] in Hg.
  cbn [glang] in Hg. shapes. cbn [app]. rewrite app_nil_r.
  match goal with
  | Hy : reads_int 4 ?Y _ _ ?y,
    Hm : reads_int 1 ?M 0 9 ?mth \/ _,
    Hd : reads_int 1 ?D 0 9 ?dd \/ _
    |- context [?Y ++ ?a1 ++ _ ++ ?a2 ++ ?M ++ ?a3 ++ _ ++ ?a4 ++ ?D ++ ?a5 ++ _] =>
    exists y, mth, dd; split;
      [exists Y, a1, a2, M, a3, a4, D, a5;
       split; [reflexivity |];
       repeat (split; [assumption |]); assumption
      | destruct Hy as ([Hl _] & Ey & _)]
  end.
  rewrite Hl. cbn [Nat.eqb].
  match goal with
  | |- (if ?c then _ else _) = _ => destruct c
  end;
    match goal with
    | Hm : reads_int 1 _ 0 9 _ \/ _, Hd : reads_int 1 _ 0 9 _ \/ _ |- _ =>
      destruct Hm as [(_ & Em' & _) | (_ & Em' & _)],
               Hd as [(_ & Ed' & _) | (_ & Ed' & _)]
    end; now apply bind_dates.
Qed.

(** A match of a date pattern is one of the three notations, and the
    date built from it takes the year from the 20xx group wherever it
    stands. *)
Lemma date_match_written (p : regex) (s : str) (m : match_obj) :
  In p DATE_PATTERNS -> match_at p s = Some m
  -> exists y mth dd,
      written (group0 m) y mth dd
      /\ date_of_match m = (dt <- date_new y mth dd ;; Ok (Some dt)).
Proof.
  intros Hp H. destruct Hp as [<- | [<- | [<- | []]]];
    [| | destruct (@korean_match_written _ _ H) as (y & mth & dd & Hw & E);
         exists y, mth, dd; split; [right; right; exact Hw | exact E]];
    apply match_at_glang in H as [_ Hg];
    destruct m as [g0 gs rst]; cbn [group0 groups] in Hg;
    unfold date_of_match; cbn [group0 groups].
  - unfold pattern_ymd, seq in Hg. cbn [fold_right] in Hg.
    cbn [glang] in Hg. shapes. cbn [app].
    match goal with
    | Hy : reads_int 4 _ _ _ ?y, Hm : reads_int 2 _ 1 12 ?mth,
      Hd : reads_int 2 _ 1 31 ?dd |- _ =>
      exists y, mth, dd; split;
        [left; unfold written_ymd; do 5 eexists;
         split; [rewrite app_nil_r; reflexivity |];
         repeat (split; [eassumption |]); eassumption
        | destruct Hy as ([Hl _] & Ey & _), Hm as (_ & Em & _), Hd as (_ & Ed & _)]
    end.
    rewrite Hl. cbn [Nat.eqb].
    match goal with
    | |- (if ?c then _ else _) = _ => destruct c
    end; now apply bind_dates.
  - unfold pattern_mdy, seq in Hg. cbn [fold_right] in Hg.
    cbn [glang] in Hg. shapes. cbn [app].
    match goal with
    | Hy : reads_int 4 _ _ _ ?y, Hm : reads_int 2 _ 1 12 ?mth,
      Hd : reads_int 2 _ 1 31 ?dd |- _ =>
      exists y, mth, dd; split;
        [right; left; unfold written_mdy; do 5 eexists;
         split; [rewrite app_nil_r; reflexivity |];
         repeat (split; [eassumption |]); eassumption
        | destruct Hy as (HY & Ey & _), Hm as (HM & Em & _), Hd as (HD & Ed & _)]
    end.
    rewrite not_year_mark.
    + destruct HM as [Hl _]. rewrite Hl. cbn [Nat.eqb].
      rewrite Ey, Em, Ed. reflexivity.
    + repeat first [ apply Forall_app; split
                   | apply Forall_cons; [now right |]
                   | eapply digits_or_sep; eassumption
                   | apply Forall_nil ].
Qed.

(* ================================================================== *)
(** * What find_dates returns *)

Lemma written_ranges (w : str) (y mth dd : Z) :
  written w y mth dd
  -> 2000 <= y <= 2099 /\ 0 <= mth <= 12 /\ 0 <= dd <= 31.
Proof.
  intros [H | [H | H]].
  - destruct H as (Y & s1 & M & s2 & D & _ & _ & _ & (_ & _ & Hy)
                   & (_ & _ & Hm) & (_ & _ & Hd)). lia.
  - destruct H as (M & s1 & D & s2 & Y & _ & _ & _ & (_ & _ & Hy)
                   & (_ & _ & Hm) & (_ & _ & Hd)). lia.
  - destruct H as (Y & a1 & a2 & M & a3 & a4 & D & a5 & _ & _ & _ & _ & _ & _
                   & (_ & _ & Hy) & Hm & Hd).
    destruct Hm as [(_ & _ & Hm) | (_ & _ & Hm)],
             Hd as [(_ & _ & Hd) | (_ & _ & Hd)]; lia.
Qed.

Lemma finditer_In (p : regex) (text : str) (m : match_obj) :
  In m (finditer p text)
  -> exists pre, text = pre ++ group0 m ++ rest m
                 /\ match_at p (group0 m ++ rest m) = Some m.
Proof. apply finditer_from_In. Qed.

Lemma date_new_cases (y mth dd : Z) :
  (dt <- date_new y mth dd ;; Ok (Some dt))
  = if valid_date y mth dd then Ok (Some (mkdate y mth dd))
    else Raise ValueError.
Proof. unfold date_new. now destruct (valid_date y mth dd). Qed.

Lemma patterns_apart :
  pattern_ymd <> pattern_mdy /\ pattern_korean <> pattern_mdy.
Proof. split; discriminate. Qed.

(** The groups of a match of a date pattern, as [int()] reads them, and
    the date built from them. *)
Lemma date_match_reads (p : regex) (s : str) (m : match_obj) :
  In p DATE_PATTERNS -> match_at p s = Some m
  -> exists g0 g1 g2 a b c,
      groups m = [g0; g1; g2]
      /\ py_int g0 = Ok a /\ py_int g1 = Ok b /\ py_int g2 = Ok c
      /\ exists y mth dd,
          (p = pattern_mdy -> y = c /\ mth = a /\ dd = b)
          /\ (p <> pattern_mdy -> y = a /\ mth = b /\ dd = c)
          /\ 2000 <= y <= 2099 /\ 0 <= mth <= 12 /\ 0 <= dd <= 31
          /\ date_of_match m = (dt <- date_new y mth dd ;; Ok (Some dt)).
Proof.
  intros Hp H. destruct patterns_apart as [N1 N2].
  destruct Hp as [<- | [<- | [<- | []]]];
    apply match_at_glang in H as [_ Hg];
    destruct m as [g0 gs rst]; cbn [group0 groups] in Hg;
    unfold date_of_match; cbn [group0 groups].
  - unfold pattern_ymd, seq in Hg. cbn [fold_right] in Hg.
    cbn [glang] in Hg. shapes. cbn [app].
    match goal with
    | Hy : reads_int 4 ?Y _ _ ?y, Hm : reads_int 2 ?M 1 12 ?mth,
      Hd : reads_int 2 ?D 1 31 ?dd |- _ =>
      exists Y, M, D, y, mth, dd;
        destruct Hy as ([Hl _] & Ey & Ry), Hm as (_ & Em & Rm),
                 Hd as (_ & Ed & Rd);
        split; [reflexivity |]; split; [exact Ey |]; split; [exact Em |];
        split; [exact Ed |]; exists y, mth, dd;
        split; [intros E; now contradiction N1 |];
        split; [auto |]; split; [exact Ry |]; split; [lia |]; split; [lia |]
    end.
    rewrite Hl. cbn [Nat.eqb].
    match goal with
    | |- (if ?c then _ else _) = _ => destruct c
    end; now apply bind_dates.
  - unfold pattern_mdy, seq in Hg. cbn [fold_right] in Hg.
    cbn [glang] in Hg. shapes. cbn [app].
    match goal with
    | Hy : reads_int 4 ?Y _ _ ?y, Hm : reads_int 2 ?M 1 12 ?mth,
      Hd : reads_int 2 ?D 1 31 ?dd |- _ =>
      exists M, D, Y, mth, dd, y;
        destruct Hy as (HY & Ey & Ry), Hm as (HM & Em & Rm),
                 Hd as (HD & Ed & Rd);
        split; [reflexivity |]; split; [exact Em |]; split; [exact Ed |];
        split; [exact Ey |]; exists y, mth, dd;
        split; [auto |];
        split; [intros E; now contradiction E |];
        split; [exact Ry |]; split; [lia |]; split; [lia |]
    end.
    rewrite not_year_mark.
    + destruct HM as [Hl _]. rewrite Hl. cbn [Nat.eqb].
      rewrite Ey, Em, Ed. reflexivity.
    + repeat first [ apply Forall_app; split
                   | apply Forall_cons; [now right |]
                   | eapply digits_or_sep; eassumption
                   | apply Forall_nil ].
  - rewrite pattern_korean_eq in Hg. unfold seq in Hg. cbn [fold_right] in Hg.
    cbn [glang] in Hg. shapes. cbn [app].
    match goal with
    | Hy : reads_int 4 ?Y _ _ ?y,
      Hm : reads_int 1 ?M 0 9 ?mth \/ _,
      Hd : reads_int 1 ?D 0 9 ?dd \/ _ |- _ =>
      exists Y, M, D, y, mth, dd;
        destruct Hy as ([Hl _] & Ey & Ry);
        assert (Em : py_int M = Ok mth /\ 0 <= mth <= 12)
          by (destruct Hm as [(_ & Q & ?) | (_ & Q & ?)]; split;
              [exact Q | lia | exact Q | lia]);
        assert (Ed : py_int D = Ok dd /\ 0 <= dd <= 31)
          by (destruct Hd as [(_ & Q & ?) | (_ & Q & ?)]; split;
              [exact Q | lia | exact Q | lia]);
        destruct Em as [Em Rm], Ed as [Ed Rd];
        split; [reflexivity |]; split; [exact Ey |]; split; [exact Em |];
        split; [exact Ed |]; exists y, mth, dd;
        split; [intros E; now contradiction N2 |];
        split; [auto |]; split; [exact Ry |]; split; [exact Rm |];
        split; [exact Rd |]
    end.
    rewrite Hl. cbn [Nat.eqb].
    match goal with
    | |- (if ?c then _ else _) = _ => destruct c
    end; now apply bind_dates.
Qed.

(** X8. Every match of a date pattern in a text has three groups, and
    [int()] reads each of them without raising.  The year is the number
    read from the third group for the month-first pattern and from the
    first group for the other two, the month and the day are the numbers
    read from the two remaining groups in their order; the year is from
    2000 to 2099, the month at most 12, the day at most 31.  The date is
    built from these three numbers, so the only exception the [try] of
    [find_dates] ever catches is the ValueError of [dt.date] for a triple
    that is no date of the calendar, and the [len(g) == 3] test never
    fails. *)
Theorem matches_read_as_numbers (text : str) (p : regex) (m : match_obj) :
  In p DATE_PATTERNS -> In m (finditer p text)
  -> exists g0 g1 g2 a b c,
      groups m = [g0; g1; g2]
      /\ py_int g0 = Ok a /\ py_int g1 = Ok b /\ py_int g2 = Ok c
      /\ exists y mth dd,
          (p = pattern_mdy -> y = c /\ mth = a /\ dd = b)
          /\ (p <> pattern_mdy -> y = a /\ mth = b /\ dd = c)
          /\ 2000 <= y <= 2099 /\ 0 <= mth <= 12 /\ 0 <= dd <= 31
          /\ date_of_match m
             = if valid_date y mth dd then Ok (Some (mkdate y mth dd))
               else Raise ValueError.
Proof.
  intros Hp Hm. apply finditer_In in Hm as (pre & _ & Hm).
  destruct (@date_match_reads _ _ _ Hp Hm)
    as (g0 & g1 & g2 & a & b & c & Hg & Ea & Eb & Ec
        & y & mth & dd & H1 & H2 & Ry & Rm & Rd & E).
  exists g0, g1, g2, a, b, c. repeat (split; [assumption |]).
  exists y, mth, dd. repeat (split; [assumption |]).
  now rewrite <- date_new_cases.
Qed.

Lemma matches_read_as_numbers_witness :
  exists g0 g1 g2 a b c,
    [u "03"; u "15"; u "2024"] = [g0; g1; g2]
    /\ py_int g0 = Ok a /\ py_int g1 = Ok b /\ py_int g2 = Ok c
    /\ exists y mth dd,
        (pattern_mdy = pattern_mdy -> y = c /\ mth = a /\ dd = b)
        /\ (pattern_mdy <> pattern_mdy -> y = a /\ mth = b /\ dd = c)
        /\ 2000 <= y <= 2099 /\ 0 <= mth <= 12 /\ 0 <= dd <= 31
        /\ date_of_match {| group0 := u "03/15/2024";
                            groups := [u "03"; u "15"; u "2024"];
                            rest := u "." |}
           = if valid_date y mth dd then Ok (Some (mkdate y mth dd))
             else Raise ValueError.
Proof.
  apply (@matches_read_as_numbers (u "~ 03/15/2024.") pattern_mdy
           {| group0 := u "03/15/2024"; groups := [u "03"; u "15"; u "2024"];
              rest := u "." |}).
  - right. now left.
  - vm_compute. left. reflexivity.
Defined.

(** Every returned date stands in the text. *)
Lemma find_dates_written (text : str) (dt : date) :
  In dt (find_dates text)
  -> exists pre w post,
      text = pre ++ w ++ post /\ written w (year dt) (month dt) (day dt).
Proof.
  intros H. apply find_dates_In in H as (p & m & Hp & Hm & E).
  apply finditer_In in Hm as (pre & Ht & Hm).
  destruct (@date_match_written _ _ _ Hp Hm) as (y & mth & dd & Hw & E').
  rewrite E in E'. symmetry in E'.
  destruct (date_new y mth dd) as [dt'|] eqn:Ed; [| discriminate].
  cbn [bind] in E'. injection E' as ->.
  apply date_new_valid in Ed as [-> _]. cbn [year month day].
  exists pre, (group0 m), (rest m). split; assumption.
Qed.

(** X9. Every date [find_dates] returns is written in the text in one
    of the three notations, its year is between 2000 and 2099, and it is
    a date of the calendar. *)
Theorem found_date_is_written (text : str) (dt : date) :
  In dt (find_dates text)
  -> (exists pre w post,
         text = pre ++ w ++ post
         /\ written w (year dt) (month dt) (day dt))
     /\ 2000 <= year dt <= 2099
     /\ valid_date (year dt) (month dt) (day dt) = true.
Proof.
  intros H. split; [now apply find_dates_written |].
  pose proof (@find_dates_valid _ _ H) as Hv. split; [| exact Hv].
  apply find_dates_written in H as (pre & w & post & _ & Hw).
  now apply written_ranges in Hw.
Qed.

Lemma found_date_is_written_witness :
  In (mkdate 2024 5 1) (find_dates (u "소독 2024년 5월 1일 실시"))
  /\ (exists pre w post,
         u "소독 2024년 5월 1일 실시" = pre ++ w ++ post
         /\ written w 2024 5 1)
  /\ 2000 <= 2024 <= 2099
  /\ valid_date 2024 5 1 = true.
Proof.
  assert (H : In (mkdate 2024 5 1) (find_dates (u "소독 2024년 5월 1일 실시")))
    by (vm_compute; left; reflexivity).
  split; [exact H |].
  apply (@found_date_is_written (u "소독 2024년 5월 1일 실시") (mkdate 2024 5 1)).
  exact H.
Defined.

Lemma year20_has_20 (w : str) (gs : list str) :
  glang year20 w gs -> exists post, w = [50; 48] ++ post.
Proof.
  intros H. apply year20_shape in H as (_ & a & b & -> & _).
  now exists [a; b].
Qed.

Lemma date_match_has_20 (p : regex) (s : str) (m : match_obj) :
  In p DATE_PATTERNS -> match_at p s = Some m -> occurs [50; 48] (group0 m).
Proof.
  intros Hp Hm. apply match_at_glang in Hm as [_ Hg].
  destruct Hp as [<- | [<- | [<- | []]]].
  - unfold pattern_ymd, seq in Hg. cbn [fold_right glang] in Hg.
    destruct Hg as (w1 & g1 & w2 & g2 & -> & _ & (g & Hy & _) & _).
    apply year20_has_20 in Hy as [post ->].
    exists [], (post ++ w2). reflexivity.
  - unfold pattern_mdy, seq in Hg. cbn [fold_right glang] in Hg.
    destruct Hg as (w1 & g1 & r1 & h1 & -> & _ & _ & Hg).
    destruct Hg as (w2 & g2 & r2 & h2 & -> & _ & _ & Hg).
    destruct Hg as (w3 & g3 & r3 & h3 & -> & _ & _ & Hg).
    destruct Hg as (w4 & g4 & r4 & h4 & -> & _ & _ & Hg).
    destruct Hg as (w5 & g5 & r5 & h5 & -> & _ & (g & Hy & _) & _).
    apply year20_has_20 in Hy as [post ->].
    exists (w1 ++ w2 ++ w3 ++ w4), (post ++ r5).
    rewrite <- !app_assoc. reflexivity.
  - rewrite pattern_korean_eq in Hg. unfold seq in Hg.
    cbn [fold_right] in Hg. cbn [glang] in Hg.
    destruct Hg as (w1 & g1 & w2 & g2 & -> & _ & (g & Hy & _) & _).
    apply year20_has_20 in Hy as [post ->].
    exists [], (post ++ w2). reflexivity.
Qed.

(** X10. A text in which the two characters "20" do not occur has no
    date: every pattern asks for them at the head of the year. *)
Theorem no_20_no_dates (text : str) :
  ~ occurs (u "20") text -> find_dates text = [].
Proof.
  intros Hno. destruct (find_dates text) as [|dt l] eqn:E; [reflexivity |].
  exfalso. apply Hno.
  assert (H : In dt (find_dates text)) by (rewrite E; now left).
  apply find_dates_In in H as (p & m & Hp & Hm & _).
  apply finditer_In in Hm as (pre & Ht & Hm).
  apply (@date_match_has_20 _ _ _ Hp) in Hm. rewrite Ht.
  apply occurs_app_r, occurs_app_l. exact Hm.
Qed.

Lemma no_20_no_dates_witness :
  ~ occurs (u "20") (u "1999-12-31, 24.05.01, ２０２４-05-01")
  /\ find_dates (u "1999-12-31, 24.05.01, ２０２４-05-01") = [].
Proof.
  assert (H : ~ occurs (u "20") (u "1999-12-31, 24.05.01, ２０２４-05-01")).
  { intros H. apply contains_occurs in H. revert H.
    vm_compute. discriminate. }
  split; [exact H | exact (no_20_no_dates H)].
Defined.

(* ================================================================== *)
(** * Dates written month first *)

(** The second date pattern at the head of a month-first form. *)
Lemma mdy_match (y m dd s1 s2 : Z) (post : str) :
  2000 <= y <= 2099 -> 1 <= m <= 12 -> 1 <= dd <= 31
  -> is_sep s1 -> is_sep s2
  -> exists m0,
      match_at pattern_mdy (mdy_form m s1 dd s2 y ++ post) = Some m0
      /\ group0 m0 = mdy_form m s1 dd s2 y
      /\ groups m0 = [zero_pad 2 m; zero_pad 2 dd; zero_pad 4 y]
      /\ rest m0 = post.
Proof.
  intros Hy Hm Hd Hs1 Hs2.
  assert (T : mdy_form m s1 dd s2 y ++ post
              = zero_pad 2 m
                ++ s1 :: zero_pad 2 dd ++ s2 :: zero_pad 4 y ++ post).
  { unfold mdy_form. now rewrite <- !app_assoc. }
  assert (R : run pattern_mdy (start (mdy_form m s1 dd s2 y ++ post))
              = [{| caps := [zero_pad 2 m; zero_pad 2 dd; zero_pad 4 y];
                    pos := 10; todo := post |}]).
  { rewrite T. unfold pattern_mdy, seq, start. cbn [fold_right].
    erewrite run_Cat_single;
      [| eapply run_Grp_single with (w := zero_pad 2 m);
         [apply (month_case Hm) | reflexivity
          | cbn [pos]; now rewrite (proj1 (proj2 (proj2 (month_case Hm [] 0%nat []))))] ].
    cbn [caps pos todo].
    erewrite run_Cat_single; [| now apply sep_case].
    erewrite run_Cat_single;
      [| eapply run_Grp_single with (w := zero_pad 2 dd);
         [apply (day_case Hd) | reflexivity
          | cbn [pos]; now rewrite (proj1 (proj2 (proj2 (day_case Hd [] 0%nat []))))] ].
    cbn [caps pos todo].
    erewrite run_Cat_single; [| now apply sep_case].
    erewrite run_Cat_single;
      [| eapply run_Grp_single with (w := zero_pad 4 y);
         [apply (year_case Hy) | reflexivity
          | cbn [pos]; now rewrite (proj1 (proj2 (proj2 (year_case Hy [] 0%nat []))))] ].
    reflexivity. }
  unfold match_at. fold (start (mdy_form m s1 dd s2 y ++ post)).
  rewrite R. eexists. split; [reflexivity |]. cbn [group0 groups rest pos caps todo].
  split; [| split; reflexivity].
  replace 10%nat with (length (mdy_form m s1 dd s2 y));
    [apply firstn_length_app |].
  unfold mdy_form. rewrite !length_app.
  rewrite (proj1 (proj2 (proj2 (year_case Hy [] 0%nat [])))),
    (proj1 (proj2 (proj2 (month_case Hm [] 0%nat [])))),
    (proj1 (proj2 (proj2 (day_case Hd [] 0%nat [])))).
  reflexivity.
Qed.

Lemma mdy_form_ascii (y m dd s1 s2 : Z) :
  2000 <= y <= 2099 -> 1 <= m <= 12 -> 1 <= dd <= 31
  -> is_sep s1 -> is_sep s2 -> ascii_only (mdy_form m s1 dd s2 y).
Proof.
  intros Hy Hm Hd Hs1 Hs2. unfold mdy_form.
  apply Forall_app; split;
    [exact (proj2 (proj2 (proj2 (month_case Hm [] 0%nat [])))) |].
  apply Forall_app; split;
    [repeat constructor; now apply is_sep_ascii |].
  apply Forall_app; split;
    [exact (proj2 (proj2 (proj2 (day_case Hd [] 0%nat [])))) |].
  apply Forall_app; split;
    [repeat constructor; now apply is_sep_ascii |].
  exact (proj2 (proj2 (proj2 (year_case Hy [] 0%nat [])))).
Qed.

(** X11. A date of the calendar with a year from 2000 to 2099, written
    month first as MM sep DD sep YYYY with separators among '.', '/' and
    '-', is returned by [find_dates] with the year taken from the last
    group, when no match of the second pattern starts in the nine
    characters before it. *)
Theorem numeric_mdy_date_is_found (pre post : str) (y m dd s1 s2 : Z) :
  2000 <= y <= 2099
  -> valid_date y m dd = true
  -> is_sep s1 -> is_sep s2
  -> (forall k, (1 <= k <= 9)%nat -> (k <= length pre)%nat
                -> match_at pattern_mdy
                     (skipn (length pre - k)
                            (pre ++ mdy_form m s1 dd s2 y ++ post))
                   = None)
  -> In (mkdate y m dd)
        (find_dates (pre ++ mdy_form m s1 dd s2 y ++ post)).
Proof.
  intros Hy Hv Hs1 Hs2 Hno.
  destruct (valid_date_ranges _ _ _ Hv) as (_ & Hm & Hd).
  destruct (mdy_match post Hy Hm Hd Hs1 Hs2) as (m0 & Hm0 & Hg0 & Hgs & Hrest).
  apply find_dates_In. exists pattern_mdy, m0.
  split; [right; now left |]. split.
  - unfold finditer.
    apply (@finditer_from_finds pattern_mdy 9 m0
             (mdy_form m s1 dd s2 y ++ post) eq_refl Hm0);
      [lia | exact Hno].
  - unfold date_of_match. rewrite Hgs, Hg0.
    rewrite contains_ascii_only by now apply mdy_form_ascii.
    rewrite (proj1 (proj2 (proj2 (month_case Hm [] 0%nat [])))).
    cbn [Nat.eqb].
    rewrite (proj1 (proj2 (year_case Hy [] 0%nat []))),
      (proj1 (proj2 (month_case Hm [] 0%nat []))),
      (proj1 (proj2 (day_case Hd [] 0%nat []))).
    cbn [bind]. unfold date_new. rewrite Hv. reflexivity.
Qed.

Lemma numeric_mdy_date_is_found_witness :
  In (mkdate 2024 3 15)
     (find_dates (u "검사일 " ++ mdy_form 3 (ch "/") 15 (ch "/") 2024 ++ u " 실시"))
  /\ u "검사일 " ++ mdy_form 3 (ch "/") 15 (ch "/") 2024 ++ u " 실시"
     = u "검사일 03/15/2024 실시".
Proof.
  split; [| vm_compute; reflexivity].
  apply (@numeric_mdy_date_is_found (u "검사일 ") (u " 실시") 2024 3 15 (ch "/") (ch "/")).
  - lia.
  - reflexivity.
  - right; now left.
  - right; now left.
  - intros k Hk Hl.
    destruct k as [|[|[|[|[|k]]]]];
      [exfalso; lia | vm_compute; reflexivity .. | exfalso; cbn in Hl; lia].
Defined.

(* ================================================================== *)
(** * Dates written with 년, 월 and 일 *)

Section Reaching.

Local Open Scope nat_scope.

(** The scan yields a match at a place when no earlier match of the same
    pattern runs over that place. *)
Lemma finditer_from_reaches (r : regex) (m : match_obj) (suf : str) :
  match_at r suf = Some m
  -> forall fuel pre,
      length (pre ++ suf) < fuel
      -> (forall j m', j < length pre
                       -> match_at r (skipn j (pre ++ suf)) = Some m'
                       -> j + length (group0 m') <= length pre)
      -> In m (finditer_from fuel r (pre ++ suf)).
Proof.
  intros Hm. induction fuel as [|fuel IH]; intros pre Hlen Hno; [lia |].
  cbn [finditer_from]. destruct pre as [|c pre].
  - cbn [app]. rewrite Hm. now left.
  - assert (Hnext : In m (finditer_from fuel r (pre ++ suf))).
    { apply IH.
      - cbn [app length] in Hlen. lia.
      - intros j m' Hj E. specialize (Hno (S j) m').
        cbn [length skipn app] in Hno. specialize (Hno ltac:(lia) E). lia. }
    destruct (match_at r ((c :: pre) ++ suf)) as [m0|] eqn:E;
      [| exact Hnext].
    right. pose proof (Hno 0 m0 ltac:(cbn [length]; lia) E) as Hl0.
    apply match_at_Some in E as [Hs _].
    destruct (group0 m0) as [|g0 gs] eqn:Eg; [exact Hnext |].
    set (pre0 := c :: pre) in *. set (g := g0 :: gs) in *.
    pose proof (rest_is_skipn _ _ Hs eq_refl) as Hrest.
    assert (Hsk : skipn (length g) (pre0 ++ suf)
                  = (skipn (length g) pre0 ++ suf)%list).
    { rewrite skipn_app. replace (length g - length pre0) with 0 by lia.
      reflexivity. }
    assert (Hl' : length (skipn (length g) pre0) = length pre0 - length g)
      by apply length_skipn.
    rewrite Hrest, Hsk. apply IH.
    + rewrite length_app, Hl'. rewrite length_app in Hlen.
      subst g. cbn [length] in *. lia.
    + intros j m' Hj E'. rewrite Hl' in Hj |- *.
      rewrite <- Hsk, skipn_skipn in E'.
      specialize (Hno (j + length g) m' ltac:(lia) E'). lia.
Qed.

(** Two readings of one text as a run of [P] characters closed by a
    character outside [P] agree. *)
Lemma span_unique (P : Z -> bool) (a a' x x' : str) (c c' : Z) :
  Forall (fun e => P e = true) a -> Forall (fun e => P e = true) a'
  -> P c = false -> P c' = false
  -> (a ++ c :: x = a' ++ c' :: x')%list
  -> a = a' /\ c = c' /\ x = x'.
Proof.
  intros Ha. revert a'. induction Ha as [|e a He Ha IH]; intros a' Ha' Hc Hc' E.
  - destruct Ha' as [|e' a' He' Ha']; cbn [app] in E.
    + injection E as -> ->. auto.
    + injection E as -> _. congruence.
  - destruct Ha' as [|e' a' He' Ha']; cbn [app] in E.
    + injection E as -> _. congruence.
    + injection E as -> E. destruct (IH a' Ha' Hc Hc' E) as (-> & -> & ->).
      auto.
Qed.

End Reaching.

Lemma isspace_cases (c : Z) :
  isspace c = true
  -> 9 <= c <= 13 \/ 28 <= c <= 32 \/ c = 133 \/ c = 160 \/ c = 5760
     \/ 8192 <= c <= 8202 \/ c = 8232 \/ c = 8233 \/ c = 8239 \/ c = 8287
     \/ c = 12288.
Proof.
  unfold isspace. rewrite !orb_true_iff, !andb_true_iff, !Z.leb_le, !Z.eqb_eq.
  lia.
Qed.

Lemma isdecimal_cases (c : Z) :
  isdecimal c = true -> exists z, In z decimal_zeros /\ z <= c < z + 10.
Proof.
  unfold isdecimal, decimal_value.
  destruct (find _ decimal_zeros) as [z|] eqn:E; [| discriminate].
  intros _. apply find_some in E as [Hin E]. exists z. split; [exact Hin |].
  apply andb_true_iff in E as [E1 E2]. lia.
Qed.

(** No space is a digit. *)
Lemma space_not_decimal (c : Z) : isspace c = true -> isdecimal c = false.
Proof.
  intros Hs. apply isspace_cases in Hs.
  destruct (isdecimal c) eqn:E; [exfalso | reflexivity].
  apply isdecimal_cases in E as (z & Hin & Hz).
  unfold decimal_zeros in Hin. cbn [In] in Hin.
  repeat (destruct Hin as [<- | Hin]; [lia |]). exact Hin.
Qed.

Lemma accepts_glang (r : regex) (w : str) :
  accepts r w = true -> glang r w [].
Proof.
  unfold accepts. intros H. apply existsb_exists in H as (st & Hin & H).
  destruct (todo st) eqn:Et; [| discriminate].
  destruct (caps st) eqn:Ec; [| discriminate].
  apply run_glang in Hin as (w' & gs & Hg & Ht & _ & Hc).
  cbn [start todo caps] in Ht, Hc. rewrite Et, app_nil_r in Ht.
  rewrite Ec in Hc. cbn [app] in Hc. now subst.
Qed.

Lemma glang_match_at (r : regex) (w post : str) (gs : list str) :
  glang r w gs -> exists m, match_at r (w ++ post) = Some m.
Proof.
  intros H.
  assert (Hin : In {| caps := gs; pos := length w; todo := post |}
                   (run r (start (w ++ post)))).
  { apply run_glang. exists w, gs. now repeat split. }
  destruct (match_at r (w ++ post)) as [m|] eqn:E; [now exists m |].
  apply match_at_None in E. rewrite E in Hin. destruct Hin.
Qed.

Lemma glang_Cat (r1 r2 : regex) (w1 w2 : str) (g1 g2 : list str) :
  glang r1 w1 g1 -> glang r2 w2 g2 -> glang (Cat r1 r2) (w1 ++ w2) (g1 ++ g2).
Proof. intros H1 H2. cbn [glang]. now exists w1, g1, w2, g2. Qed.

Lemma glang_Grp (r : regex) (w : str) :
  glang r w [] -> glang (Grp r) w [w].
Proof. intros H. cbn [glang]. now exists []. Qed.

Lemma glang_ws (a : str) : spaces a -> glang ws a [].
Proof.
  intros H. split; [| reflexivity]. eapply Forall_impl; [| exact H].
  intros c Hc. cbn. now rewrite Hc.
Qed.

Lemma glang_lit1 (c : Z) : glang (lits [c]) [c] [].
Proof.
  unfold lits, seq. cbn [map fold_right glang].
  exists [c], [], [], []. now repeat split.
Qed.

Lemma year_glang (y : Z) :
  2000 <= y <= 2099
  -> glang year20 (zero_pad 4 y) [] /\ py_int (zero_pad 4 y) = Ok y.
Proof.
  intros Hy. pattern y; apply (@Z_range_cases _ 2000 100); [| lia].
  clear y Hy. intros i Hi.
  do 100 (destruct i as [|i];
          [split; [apply accepts_glang |]; vm_compute; reflexivity |]).
  exfalso; lia.
Qed.

Lemma kmonth_glang (m : Z) (wm : nat) :
  1 <= m <= 12 -> (1 <= wm <= 2)%nat
  -> glang kmonth (zero_pad wm m) [] /\ py_int (zero_pad wm m) = Ok m.
Proof.
  intros Hm Hw. assert (E : wm = 1%nat \/ wm = 2%nat) by lia. clear Hw.
  pattern m; apply (@Z_range_cases _ 1 12); [| lia].
  clear m Hm. intros i Hi.
  do 12 (destruct i as [|i];
         [destruct E as [-> | ->];
          (split; [apply accepts_glang |]; vm_compute; reflexivity) |]).
  exfalso; lia.
Qed.

Lemma kday_glang (dd : Z) :
  1 <= dd <= 31
  -> glang kday (zero_pad 1 dd) [] /\ py_int (zero_pad 1 dd) = Ok dd.
Proof.
  intros Hd. pattern dd; apply (@Z_range_cases _ 1 31); [| lia].
  clear dd Hd. intros i Hi.
  do 31 (destruct i as [|i];
         [split; [apply accepts_glang |]; vm_compute; reflexivity |]).
  exfalso; lia.
Qed.

(** The third pattern reads the long notation. *)
Lemma korean_form_glang (Y a1 a2 M a3 a4 D a5 : str) :
  glang year20 Y [] -> glang kmonth M [] -> glang kday D []
  -> spaces a1 -> spaces a2 -> spaces a3 -> spaces a4 -> spaces a5
  -> glang pattern_korean (korean_form Y a1 a2 M a3 a4 D a5) [Y; M; D].
Proof.
  intros HY HM HD H1 H2 H3 H4 H5. rewrite pattern_korean_eq.
  unfold seq, korean_form. cbn [fold_right].
  change (u "년") with [45380]. change (u "월") with [50900].
  change (u "일") with [51068].
  apply (@glang_Cat _ _ Y _ [Y] [M; D]); [now apply glang_Grp |].
  apply (@glang_Cat _ _ a1 _ [] [M; D]); [now apply glang_ws |].
  apply (@glang_Cat _ _ [45380] _ [] [M; D]); [apply glang_lit1 |].
  apply (@glang_Cat _ _ a2 _ [] [M; D]); [now apply glang_ws |].
  apply (@glang_Cat _ _ M _ [M] [D]); [now apply glang_Grp |].
  apply (@glang_Cat _ _ a3 _ [] [D]); [now apply glang_ws |].
  apply (@glang_Cat _ _ [50900] _ [] [D]); [apply glang_lit1 |].
  apply (@glang_Cat _ _ a4 _ [] [D]); [now apply glang_ws |].
  apply (@glang_Cat _ _ D _ [D] []); [now apply glang_Grp |].
  apply (@glang_Cat _ _ a5 _ [] []); [now apply glang_ws |].
  rewrite <- (app_nil_r [51068]) at 2.
  apply (@glang_Cat _ _ [51068] [] [] []); [apply glang_lit1 |].
  now split.
Qed.

Lemma decimal_not_space (c : Z) : isdecimal c = true -> isspace c = false.
Proof.
  intros H. destruct (isspace c) eqn:E; [| reflexivity].
  apply space_not_decimal in E. congruence.
Qed.

(** A run of digits, then white space, then a mark that is no digit. *)
Lemma digits_then_mark (A A' b b' x x' : str) (k k' : Z) :
  Forall (fun c => isdecimal c = true) A
  -> Forall (fun c => isdecimal c = true) A'
  -> spaces b -> spaces b' -> isdecimal k = false -> isdecimal k' = false
  -> A ++ b ++ k :: x = A' ++ b' ++ k' :: x'
  -> A = A' /\ b ++ k :: x = b' ++ k' :: x'.
Proof.
  intros HA HA' Hb Hb' Hk Hk' E.
  assert (Hhead : forall b0 k0 x0, spaces b0 -> isdecimal k0 = false
                  -> exists c r, b0 ++ k0 :: x0 = c :: r /\ isdecimal c = false).
  { intros b0 k0 x0 H0 Hk0. destruct H0 as [|e b0 He H0].
    - now exists k0, x0.
    - exists e, (b0 ++ k0 :: x0). split; [reflexivity |].
      now apply space_not_decimal. }
  destruct (Hhead b k x Hb Hk) as (c & r & Ec & Hc).
  destruct (Hhead b' k' x' Hb' Hk') as (c' & r' & Ec' & Hc').
  rewrite Ec, Ec' in E |- *.
  destruct (@span_unique _ _ _ _ _ _ _ HA HA' Hc Hc' E) as (-> & -> & ->). auto.
Qed.

(** White space, then a number. *)
Lemma spaces_then_digits (b b' A A' x x' : str) :
  spaces b -> spaces b'
  -> Forall (fun c => isdecimal c = true) A
  -> Forall (fun c => isdecimal c = true) A'
  -> A <> [] -> A' <> []
  -> b ++ A ++ x = b' ++ A' ++ x'
  -> b = b' /\ A ++ x = A' ++ x'.
Proof.
  intros Hb Hb' HA HA' Hn Hn' E.
  destruct HA as [|c A Hc HA]; [congruence |].
  destruct HA' as [|c' A' Hc' HA']; [congruence |].
  cbn [app] in E |- *.
  destruct (@span_unique _ _ _ _ _ _ _ Hb Hb' (@decimal_not_space _ Hc)
              (@decimal_not_space _ Hc') E) as (-> & -> & ->).
  auto.
Qed.

Lemma digits_nonempty (n : nat) (w : str) : digits (S n) w -> w <> [].
Proof. intros [H _] ->. discriminate. Qed.

Lemma reads_int_digits (n : nat) (w : str) (lo hi v : Z) :
  reads_int n w lo hi v
  -> Forall (fun c => isdecimal c = true) w /\ py_int w = Ok v.
Proof. intros ([_ H] & E & _). auto. Qed.

Lemma reads_int_nonempty (n : nat) (w : str) (lo hi v : Z) :
  reads_int (S n) w lo hi v -> w <> [].
Proof. intros (H & _). exact (@digits_nonempty _ _ H). Qed.

(** The numbers of a text in the long notation are read in one way
    only. *)
Lemma korean_form_unique (w r post Y a1 a2 M a3 a4 D a5 : str)
      (y mth dd y' mth' dd' : Z) :
  written_korean w y' mth' dd'
  -> w ++ r = korean_form Y a1 a2 M a3 a4 D a5 ++ post
  -> spaces a1 -> spaces a2 -> spaces a3 -> spaces a4 -> spaces a5
  -> reads_int 4 Y 2000 2099 y
  -> reads_int 1 M 0 9 mth \/ reads_int 2 M 0 12 mth
  -> reads_int 1 D 0 9 dd \/ reads_int 2 D 10 31 dd
  -> y' = y /\ mth' = mth /\ dd' = dd.
Proof.
  intros (Y' & b1 & b2 & M' & b3 & b4 & D' & b5 & -> & B1 & B2 & B3 & B4 & B5
          & HY' & HM' & HD') E A1 A2 A3 A4 A5 HY HM HD.
  unfold korean_form in E.
  change (u "년") with [45380] in E. change (u "월") with [50900] in E.
  change (u "일") with [51068] in E.
  rewrite <- !app_assoc in E. cbn [app] in E.
  assert (K1 : isdecimal 45380 = false) by (vm_compute; reflexivity).
  assert (K2 : isdecimal 50900 = false) by (vm_compute; reflexivity).
  assert (K3 : isdecimal 51068 = false) by (vm_compute; reflexivity).
  assert (S1 : isspace 45380 = false) by (vm_compute; reflexivity).
  assert (S2 : isspace 50900 = false) by (vm_compute; reflexivity).
  apply reads_int_digits in HY as [DY EY], HY' as [DY' EY'].
  assert (HMd : Forall (fun c => isdecimal c = true) M /\ py_int M = Ok mth
                /\ M <> []).
  { destruct HM as [H | H]; pose proof (@reads_int_nonempty _ _ _ _ _ H);
      apply reads_int_digits in H; tauto. }
  assert (HMd' : Forall (fun c => isdecimal c = true) M' /\ py_int M' = Ok mth'
                 /\ M' <> []).
  { destruct HM' as [H | H]; pose proof (@reads_int_nonempty _ _ _ _ _ H);
      apply reads_int_digits in H; tauto. }
  assert (HDd : Forall (fun c => isdecimal c = true) D /\ py_int D = Ok dd
                /\ D <> []).
  { destruct HD as [H | H]; pose proof (@reads_int_nonempty _ _ _ _ _ H);
      apply reads_int_digits in H; tauto. }
  assert (HDd' : Forall (fun c => isdecimal c = true) D' /\ py_int D' = Ok dd'
                 /\ D' <> []).
  { destruct HD' as [H | H]; pose proof (@reads_int_nonempty _ _ _ _ _ H);
      apply reads_int_digits in H; tauto. }
  clear HM HM' HD HD'.
  destruct HMd as (DM & EM & NM), HMd' as (DM' & EM' & NM'),
           HDd as (DD & ED & ND), HDd' as (DD' & ED' & ND').
  destruct (@digits_then_mark _ _ _ _ _ _ _ _ DY' DY B1 A1 K1 K1 E) as [-> E1].
  destruct (@span_unique _ _ _ _ _ _ _ B1 A1 S1 S1 E1) as (_ & _ & E2).
  destruct (@spaces_then_digits _ _ _ _ _ _ B2 A2 DM' DM NM' NM E2) as [_ E3].
  destruct (@digits_then_mark _ _ _ _ _ _ _ _ DM' DM B3 A3 K2 K2 E3) as [-> E4].
  destruct (@span_unique _ _ _ _ _ _ _ B3 A3 S2 S2 E4) as (_ & _ & E5).
  destruct (@spaces_then_digits _ _ _ _ _ _ B4 A4 DD' DD ND' ND E5) as [_ E6].
  destruct (@digits_then_mark _ _ _ _ _ _ _ _ DD' DD B5 A5 K3 K3 E6) as [-> _].
  repeat split; congruence.
Qed.

(** X12. A date of the calendar with a year from 2000 to 2099 written
    in the long notation, the year in four digits, the month plain or
    zero-padded to two digits, the day plain, with any white space around
    the words 년, 월 and 일, is returned by [find_dates], when no earlier
    match of the third pattern runs into the place where it stands. *)
Theorem korean_date_is_found
        (pre post a1 a2 a3 a4 a5 : str) (y m dd : Z) (wm : nat) :
  2000 <= y <= 2099
  -> valid_date y m dd = true
  -> (1 <= wm <= 2)%nat
  -> spaces a1 -> spaces a2 -> spaces a3 -> spaces a4 -> spaces a5
  -> (forall j m', (j < length pre)%nat
         -> match_at pattern_korean
              (skipn j (pre ++ korean_form (zero_pad 4 y) a1 a2 (zero_pad wm m)
                                           a3 a4 (zero_pad 1 dd) a5 ++ post))
            = Some m'
         -> (j + length (group0 m') <= length pre)%nat)
  -> In (mkdate y m dd)
        (find_dates (pre ++ korean_form (zero_pad 4 y) a1 a2 (zero_pad wm m)
                                        a3 a4 (zero_pad 1 dd) a5 ++ post)).
Proof.
  intros Hy Hv Hw A1 A2 A3 A4 A5 Hno.
  destruct (valid_date_ranges _ _ _ Hv) as (_ & Hm & Hd).
  destruct (year_glang Hy) as [GY EY].
  destruct (kmonth_glang Hm Hw) as [GM EM].
  destruct (kday_glang Hd) as [GD ED].
  set (Y := zero_pad 4 y) in *. set (M := zero_pad wm m) in *.
  set (D := zero_pad 1 dd) in *.
  pose proof (korean_form_glang GY GM GD A1 A2 A3 A4 A5) as G.
  destruct (@glang_match_at _ _ post _ G) as [m0 Hm0].
  destruct (@korean_match_written _ _ Hm0) as (y' & mth' & dd' & Hwr & E).
  pose proof (proj1 (match_at_Some _ _ Hm0)) as Hs.
  apply year20_int in GY as [_ [y0 HY]].
  apply kmonth_int in GM as [_ [m1 HM]].
  apply kday_int in GD as [_ [d1 HD]].
  assert (Qy : y0 = y)
    by (destruct HY as (_ & Q & _); rewrite EY in Q; congruence).
  assert (Qm : m1 = m)
    by (destruct HM as [(_ & Q & _) | (_ & Q & _)]; rewrite EM in Q;
        congruence).
  assert (Qd : d1 = dd)
    by (destruct HD as [(_ & Q & _) | (_ & Q & _)]; rewrite ED in Q;
        congruence).
  subst y0 m1 d1.
  destruct (@korean_form_unique _ _ _ _ _ _ _ _ _ _ _ _ _ _ _ _ _
              Hwr (eq_sym Hs) A1 A2 A3 A4 A5 HY HM HD) as (-> & -> & ->).
  apply find_dates_In. exists pattern_korean, m0.
  split; [right; right; now left |]. split.
  - unfold finditer.
    apply (@finditer_from_reaches pattern_korean m0 _ Hm0); [lia | exact Hno].
  - rewrite E. unfold date_new. rewrite Hv. reflexivity.
Qed.

Lemma korean_date_is_found_witness :
  In (mkdate 2024 5 1)
     (find_dates (u "소독 " ++ korean_form (zero_pad 4 2024) [] (u " ")
                                 (zero_pad 1 5) [] (u "  ") (zero_pad 1 1) []
                           ++ u " 실시"))
  /\ u "소독 " ++ korean_form (zero_pad 4 2024) [] (u " ")
                   (zero_pad 1 5) [] (u "  ") (zero_pad 1 1) []
        ++ u " 실시"
     = u "소독 2024년 5월  1일 실시".
Proof.
  split; [| vm_compute; reflexivity].
  apply (@korean_date_is_found (u "소독 ") (u " 실시") [] (u " ") [] (u "  ") []
                               2024 5 1 1%nat).
  - lia.
  - reflexivity.
  - lia.
  - apply Forall_nil.
  - apply Forall_cons; [reflexivity | apply Forall_nil].
  - apply Forall_nil.
  - apply Forall_cons; [reflexivity |].
    apply Forall_cons; [reflexivity | apply Forall_nil].
  - apply Forall_nil.
  - intros j m' Hj.
    destruct j as [|[|[|j]]];
      [vm_compute; discriminate .. | exfalso; cbn in Hj; lia].
Defined.

(* ================================================================== *)
(** * A day written with a leading zero *)

Lemma unique_mark (k : Z) (A A' B B' : str) :
  ~ In k A -> ~ In k B -> A ++ k :: B = A' ++ k :: B'
  -> A = A' /\ B = B'.
Proof.
  revert A'. induction A as [|a A IH]; intros [|e A'] HA HB E; cbn [app] in E.
  - injection E as ->. auto.
  - injection E as -> ->. exfalso. apply HB, in_or_app. right. now left.
  - injection E as -> _. exfalso. apply HA. now left.
  - injection E as -> E. destruct (IH A') as [-> ->]; auto.
    intros H. apply HA. now right.
Qed.

Lemma Forall_not_In (P : Z -> bool) (l : str) (k : Z) :
  Forall (fun c => P c = true) l -> P k = false -> ~ In k l.
Proof.
  intros H Hk Hin. rewrite Forall_forall in H. apply H in Hin. congruence.
Qed.

Lemma korean_form_chars (Y a1 a2 M a3 a4 D a5 : str) :
  Forall (fun c => isdecimal c = true) Y
  -> Forall (fun c => isdecimal c = true) M
  -> Forall (fun c => isdecimal c = true) D
  -> spaces a1 -> spaces a2 -> spaces a3 -> spaces a4 -> spaces a5
  -> Forall long_char (korean_form Y a1 a2 M a3 a4 D a5).
Proof.
  intros HY HM HD A1 A2 A3 A4 A5. unfold korean_form.
  change (u "년") with [45380]. change (u "월") with [50900].
  change (u "일") with [51068].
  assert (Dg : forall l, Forall (fun c => isdecimal c = true) l
                         -> Forall long_char l)
    by (intros l H; eapply Forall_impl; [| exact H]; intros c Hc; now left).
  assert (Sp : forall l, spaces l -> Forall long_char l)
    by (intros l H; eapply Forall_impl; [| exact H]; intros c Hc;
        right; now left).
  assert (Mk : forall k, In k [45380; 50900; 51068] -> Forall long_char [k])
    by (intros k H; apply Forall_cons; [right; now right | apply Forall_nil]).
  apply Forall_app; split; [now apply Dg |].
  apply Forall_app; split; [now apply Sp |].
  apply Forall_app; split; [apply Mk; now left |].
  apply Forall_app; split; [now apply Sp |].
  apply Forall_app; split; [now apply Dg |].
  apply Forall_app; split; [now apply Sp |].
  apply Forall_app; split; [apply Mk; right; now left |].
  apply Forall_app; split; [now apply Sp |].
  apply Forall_app; split; [now apply Dg |].
  apply Forall_app; split; [now apply Sp |].
  apply Mk; right; right; now left.
Qed.

Lemma sep_not_long_char (c : Z) : is_sep c -> ~ long_char c.
Proof.
  unfold is_sep. change (u "./-") with [46; 47; 45].
  intros [<- | [<- | [<- | []]]] [H | [H | [H | [H | [H | []]]]]];
    discriminate.
Qed.

(** The two numeric notations hold a separator. *)
Lemma numeric_has_sep (w : str) (y mth dd : Z) :
  written_ymd w y mth dd \/ written_mdy w y mth dd
  -> exists c, In c w /\ is_sep c.
Proof.
  intros [(Y & s1 & M & s2 & D & -> & H1 & _)
         | (M & s1 & D & s2 & Y & -> & H1 & _)];
    exists s1; (split; [| exact H1]);
    apply in_or_app; right; now left.
Qed.

(** No part of a text in the long notation whose day has a leading zero
    reads as a date in that notation. *)
Lemma padded_day_unread (pre w r Y a1 a2 M a3 a4 a5 : str) (c y mth dd : Z) :
  Forall (fun e => isdecimal e = true) Y
  -> Forall (fun e => isdecimal e = true) M -> M <> []
  -> isdecimal c = true
  -> spaces a1 -> spaces a2 -> spaces a3 -> spaces a4 -> spaces a5
  -> pre ++ w ++ r = korean_form Y a1 a2 M a3 a4 [48; c] a5
  -> ~ written_korean w y mth dd.
Proof.
  intros DY DM NM Hc A1 A2 A3 A4 A5 E
         (Y' & b1 & b2 & M' & b3 & b4 & D' & b5 & -> & B1 & B2 & B3 & B4 & B5
          & HY' & HM' & HD').
  unfold korean_form in E.
  change (u "년") with [45380] in E. change (u "월") with [50900] in E.
  change (u "일") with [51068] in E.
  assert (K1 : isdecimal 45380 = false) by (vm_compute; reflexivity).
  assert (K2 : isdecimal 50900 = false) by (vm_compute; reflexivity).
  assert (K3 : isdecimal 51068 = false) by (vm_compute; reflexivity).
  assert (S1 : isspace 45380 = false) by (vm_compute; reflexivity).
  assert (S2 : isspace 50900 = false) by (vm_compute; reflexivity).
  assert (D0 : isdecimal 48 = true) by (vm_compute; reflexivity).
  apply reads_int_digits in HY' as [DY' _].
  assert (HMd' : Forall (fun e => isdecimal e = true) M' /\ M' <> []).
  { destruct HM' as [H | H]; pose proof (@reads_int_nonempty _ _ _ _ _ H);
      apply reads_int_digits in H; tauto. }
  destruct HMd' as [DM' NM'].
  assert (DD : Forall (fun e => isdecimal e = true) [48; c])
    by (repeat constructor; assumption).
  assert (HDd' : Forall (fun e => isdecimal e = true) D' /\ D' <> []).
  { destruct HD' as [H | H]; pose proof (@reads_int_nonempty _ _ _ _ _ H);
      apply reads_int_digits in H; tauto. }
  destruct HDd' as [DD' ND'].
  assert (E0 : (pre ++ Y' ++ b1) ++ 45380 :: b2 ++ M' ++ b3 ++ 50900
                 :: b4 ++ D' ++ b5 ++ 51068 :: r
               = (Y ++ a1) ++ 45380 :: a2 ++ M ++ a3 ++ 50900
                   :: a4 ++ [48; c] ++ a5 ++ [51068]).
  { repeat (rewrite <- app_assoc in E; cbn [app] in E).
    repeat (rewrite <- app_assoc; cbn [app]). exact E. }
  clear E.
  apply eq_sym, unique_mark in E0 as [_ E2].
  - destruct (@spaces_then_digits _ _ _ _ _ _ A2 B2 DM DM' NM NM' E2) as [_ E3].
    destruct (@digits_then_mark _ _ _ _ _ _ _ _ DM DM' A3 B3 K2 K2 E3) as [_ E4].
    destruct (@span_unique _ _ _ _ _ _ _ A3 B3 S2 S2 E4) as (_ & _ & E5).
    destruct (@spaces_then_digits _ _ _ _ _ _ A4 B4 DD DD' ltac:(discriminate)
                ND' E5) as [_ E6].
    change ([51068]) with ([] ++ 51068 :: []) in E6.
    rewrite (app_assoc a5) in E6.
    assert (A5' : spaces (a5 ++ [])) by now rewrite app_nil_r.
    destruct (@digits_then_mark _ _ _ _ _ _ _ _ DD DD' A5' B5 K3 K3 E6)
      as [<- _].
    destruct (isdecimal_value _ Hc) as (v & Ev & Hv).
    destruct HD' as [([Hl _] & _) | (_ & Ed & Hr)]; [discriminate |].
    rewrite (@py_int_2 48 c 0 v eq_refl Ev) in Ed. injection Ed as <-. lia.
  - intros H. apply in_app_or in H as [H | H]; revert H.
    + now apply Forall_not_In with (P := isdecimal).
    + now apply Forall_not_In with (P := isspace).
  - assert (Hall : Forall (fun e => e <> 45380)
                     (a2 ++ M ++ a3 ++ 50900 :: a4 ++ [48; c] ++ a5 ++ [51068])).
    { assert (Dg : forall l, Forall (fun e => isdecimal e = true) l
                             -> Forall (fun e => e <> 45380) l)
        by (intros l H; eapply Forall_impl; [| exact H];
            intros e He ->; congruence).
      assert (Sp : forall l, spaces l -> Forall (fun e => e <> 45380) l)
        by (intros l H; eapply Forall_impl; [| exact H];
            intros e He ->; congruence).
      apply Forall_app; split; [now apply Sp |].
      apply Forall_app; split; [now apply Dg |].
      apply Forall_app; split; [now apply Sp |].
      apply Forall_cons; [discriminate |].
      apply Forall_app; split; [now apply Sp |].
      apply Forall_app; split; [now apply Dg |].
      apply Forall_app; split; [now apply Sp |].
      apply Forall_cons; [discriminate | apply Forall_nil]. }
    intros H. rewrite Forall_forall in Hall. now apply (Hall _ H).
Qed.

(** X13. In the long notation a day written with a leading zero is not
    read: on a text that is a year, 년, a month, 월, a two-digit day that
    begins with 0, 일, with any white space around the words,
    [find_dates] returns nothing, whereas a month with a leading zero is
    read. *)
Theorem padded_day_is_not_found (Y a1 a2 M a3 a4 a5 : str) (c : Z) :
  Forall (fun e => isdecimal e = true) Y
  -> Forall (fun e => isdecimal e = true) M -> M <> []
  -> isdecimal c = true
  -> spaces a1 -> spaces a2 -> spaces a3 -> spaces a4 -> spaces a5
  -> find_dates (korean_form Y a1 a2 M a3 a4 [48; c] a5) = [].
Proof.
  intros DY DM NM Hc A1 A2 A3 A4 A5.
  destruct (find_dates _) as [|dt l] eqn:E; [reflexivity | exfalso].
  assert (H : In dt (find_dates (korean_form Y a1 a2 M a3 a4 [48; c] a5)))
    by (rewrite E; now left).
  apply find_dates_written in H as (pre & w & post & Ht & Hw).
  assert (Hall : Forall long_char (korean_form Y a1 a2 M a3 a4 [48; c] a5)).
  { apply korean_form_chars; try assumption.
    apply Forall_cons; [reflexivity |].
    apply Forall_cons; [assumption | apply Forall_nil]. }
  assert (Hsep : forall s, In s w -> is_sep s -> False).
  { intros s Hin Hs. apply (@sep_not_long_char s Hs).
    rewrite Forall_forall in Hall. apply Hall. rewrite Ht.
    apply in_or_app. right. apply in_or_app. now left. }
  destruct Hw as [Hw | [Hw | Hw]].
  - destruct (@numeric_has_sep _ _ _ _ (or_introl Hw)) as (s & Hin & Hs).
    exact (Hsep s Hin Hs).
  - destruct (@numeric_has_sep _ _ _ _ (or_intror Hw)) as (s & Hin & Hs).
    exact (Hsep s Hin Hs).
  - exact (@padded_day_unread pre w post Y a1 a2 M a3 a4 a5 c _ _ _
             DY DM NM Hc A1 A2 A3 A4 A5 (eq_sym Ht) Hw).
Qed.

Lemma padded_day_is_not_found_witness :
  find_dates (korean_form (u "2024") [] (u " ") (u "05") [] (u " ") [48; 53] [])
  = []
  /\ korean_form (u "2024") [] (u " ") (u "05") [] (u " ") [48; 53] []
     = u "2024년 05월 05일"
  /\ find_dates (u "2024년 05월 5일") = [mkdate 2024 5 5].
Proof.
  split; [| split; vm_compute; reflexivity].
  apply (@padded_day_is_not_found (u "2024") [] (u " ") (u "05") [] (u " ") [] 53).
  - repeat constructor.
  - repeat constructor.
  - discriminate.
  - reflexivity.
  - apply Forall_nil.
  - apply Forall_cons; [reflexivity | apply Forall_nil].
  - apply Forall_nil.
  - apply Forall_cons; [reflexivity | apply Forall_nil].
  - apply Forall_nil.
Defined.

(* ================================================================== *)
(** * More text around a business registration *)

Lemma format_check_passed (text : str) :
  passed (format_check text) = true
  <-> exists pre w post, text = pre ++ w ++ post /\ brn_form w.
Proof.
  destruct (reads_search text reads_brn) as [Hnone Hsome].
  cbn [format_check passed].
  destruct (search brn_pattern text) as [m|] eqn:E; cbn [is_some].
  - split; [intros _ | reflexivity].
    destruct (Hsome m eq_refl) as (pre & post & Hs & Hw & _).
    now exists pre, (group0 m), post.
  - split; [discriminate |]. intros H. exfalso.
    now apply (proj1 Hnone eq_refl).
Qed.

Lemma Forall2_map_both {A B} (R : B -> B -> Prop) (f g : A -> B) (l : list A) :
  (forall x, In x l -> R (f x) (g x)) -> Forall2 R (map f l) (map g l).
Proof.
  induction l as [|x l IH]; intros H; cbn [map]; constructor.
  - apply H. now left.
  - apply IH. intros y Hy. apply H. now right.
Qed.

(** X14. Text added before or after a business registration never
    turns a passed check into a failed one: the checker returns the same
    checks in the same order, and each check that passed on the text
    passes on the longer text. *)
Theorem business_checks_survive_more_text (before text after : str) :
  exists rs rs',
    check_business_registration text = Ok rs
    /\ check_business_registration (before ++ text ++ after) = Ok rs'
    /\ Forall2 (fun r r' => name r = name r'
                            /\ (passed r = true -> passed r' = true))
               rs rs'.
Proof.
  exists (map (field_check text) business_fields ++ [format_check text]),
         (map (field_check (before ++ text ++ after)) business_fields
          ++ [format_check (before ++ text ++ after)]).
  split; [apply check_business_registration_unfold |].
  split; [apply check_business_registration_unfold |].
  apply Forall2_app.
  - apply Forall2_map_both. intros kw _. split; [cbn [field_check name]; reflexivity |].
    cbn [field_check passed]. rewrite !contains_occurs. intros H.
    now apply occurs_app_r, occurs_app_l.
  - constructor; [| constructor].
    split; [cbn [format_check name]; reflexivity |].
    rewrite !format_check_passed. intros (pre & w & post & -> & Hw).
    exists (before ++ pre), w, (post ++ after). split; [| exact Hw].
    now rewrite <- !app_assoc.
Qed.

(* ================================================================== *)
(** * A certificate as the days pass *)

Lemma date_lt_le_trans (a b c : date) :
  ~ date_lt b a -> date_le b c = true -> ~ date_lt c a.
Proof. intros H1 H2 H3. date_order. Qed.

(** X15. The checks of a disinfection certificate on a later day.  A
    date found on a day is still found on every later day, and the date
    the period is counted from never moves back; a certificate without a
    future date on a day has none on any later day. *)
Theorem checks_as_days_pass (t1 t2 : date) (text : str) :
  date_le t1 t2 = true
  -> (passed (date_found_check (latest_of t1 text)) = true
      -> passed (date_found_check (latest_of t2 text)) = true)
     /\ (forall l1 l2,
            latest_of t1 text = Some l1 -> latest_of t2 text = Some l2
            -> date_le l1 l2 = true)
     /\ (passed (future_check t1 text) = true
         -> passed (future_check t2 text) = true).
Proof.
  intros Hle. split; [| split].
  - cbn [date_found_check passed].
    destruct (latest_of t1 text) as [l1|] eqn:E1; [intros _ | discriminate].
    destruct (latest_of t2 text) as [l2|] eqn:E2; [reflexivity | exfalso].
    apply latest_of_Some in E1 as (Hin & Hpast & _).
    apply (proj1 (latest_of_None t2 text)) with (dt := l1) in E2; [| exact Hin].
    revert E2. now apply date_lt_le_trans with (b := t1).
  - intros l1 l2 E1 E2.
    apply latest_of_Some in E1 as (Hin1 & Hpast1 & _).
    apply latest_of_Some in E2 as (_ & _ & Hbest).
    apply date_le_not_lt. apply Hbest; [exact Hin1 |].
    now apply date_lt_le_trans with (b := t1).
  - rewrite !future_check_passed. intros H dt Hin.
    apply date_lt_le_trans with (b := t1); [now apply H | exact Hle].
Qed.

Lemma checks_as_days_pass_witness :
  date_le (mkdate 2024 6 15) (mkdate 2024 9 1) = true
  /\ (passed (date_found_check
                (latest_of (mkdate 2024 6 15) (u "소독 2024년 5월 1일 실시")))
      = true
      -> passed (date_found_check
                   (latest_of (mkdate 2024 9 1) (u "소독 2024년 5월 1일 실시")))
         = true)
  /\ (forall l1 l2,
         latest_of (mkdate 2024 6 15) (u "소독 2024년 5월 1일 실시") = Some l1
         -> latest_of (mkdate 2024 9 1) (u "소독 2024년 5월 1일 실시") = Some l2
         -> date_le l1 l2 = true)
  /\ (passed (future_check (mkdate 2024 6 15) (u "소독 2024년 5월 1일 실시"))
      = true
      -> passed (future_check (mkdate 2024 9 1) (u "소독 2024년 5월 1일 실시"))
         = true).
Proof.
  split; [reflexivity |].
  apply (@checks_as_days_pass (mkdate 2024 6 15) (mkdate 2024 9 1)
           (u "소독 2024년 5월 1일 실시")).
  reflexivity.
Defined.

(* ================================================================== *)
(** * Places where a date pattern reads *)

Lemma date_like_at_spec (text pre w post : str) :
  text = pre ++ w ++ post -> date_like w
  -> In (length pre, length w) (date_like_at text).
Proof.
  intros -> (p & gs & Hp & Hg). unfold date_like_at.
  apply in_flat_map. exists (length pre). split.
  - apply in_seq. rewrite length_app. lia.
  - apply in_flat_map. exists p. split; [exact Hp |].
    apply in_map_iff.
    exists {| caps := gs; pos := length w; todo := post |}.
    split; [reflexivity |].
    rewrite skipn_app, skipn_all, Nat.sub_diag. cbn [skipn app].
    apply run_glang. exists w, gs. now repeat split.
Qed.

Lemma split_by_length {A} (text pre rest : list A) (n : nat) :
  text = pre ++ rest -> length pre = n
  -> pre = firstn n text /\ rest = skipn n text.
Proof.
  intros -> <-. rewrite firstn_app, firstn_all, Nat.sub_diag.
  rewrite skipn_app, skipn_all, Nat.sub_diag. cbn [firstn skipn app].
  now rewrite app_nil_r.
Qed.

(* ================================================================== *)
(** * The scenario of 1 May 2024 *)

Lemma may_first_korean (post : str) :
  match_at pattern_korean (u "2024년 5월 1일" ++ post)
  = Some {| group0 := u "2024년 5월 1일";
            groups := [u "2024"; u "5"; u "1"]; rest := post |}.
Proof. vm_compute. reflexivity. Qed.

Lemma may_first_numeric (post : str) :
  match_at pattern_ymd (u "2024년 5월 1일" ++ post) = None
  /\ match_at pattern_mdy (u "2024년 5월 1일" ++ post) = None.
Proof. split; vm_compute; reflexivity. Qed.

Lemma may_first_date (post : str) :
  date_of_match {| group0 := u "2024년 5월 1일";
                   groups := [u "2024"; u "5"; u "1"]; rest := post |}
  = Ok (Some may_first).
Proof. vm_compute. reflexivity. Qed.

(** On a text whose only date-like part is "2024년 5월 1일", the dates
    found are that day and no other. *)
Lemma only_may_first (text pre post : str) :
  text = pre ++ u "2024년 5월 1일" ++ post
  -> (forall pre' w' post',
         text = pre' ++ w' ++ post' -> date_like w'
         -> pre' = pre /\ w' = u "2024년 5월 1일")
  -> In may_first (find_dates text)
     /\ forall dt, In dt (find_dates text) -> dt = may_first.
Proof.
  intros Ht Honly. split.
  - apply find_dates_In.
    exists pattern_korean,
      {| group0 := u "2024년 5월 1일"; groups := [u "2024"; u "5"; u "1"];
         rest := post |}.
    split; [right; right; now left |]. split; [| apply may_first_date].
    unfold finditer. rewrite Ht.
    apply (@finditer_from_reaches pattern_korean _ _ (may_first_korean post));
      [lia |].
    intros j m' Hj Hm. exfalso. rewrite <- Ht in Hm.
    apply match_at_glang in Hm as [Hs Hg].
    assert (Hj' : (j <= length text)%nat)
      by (rewrite Ht, length_app; lia).
    destruct (Honly (firstn j text) (group0 m') (rest m')) as [Hpre _].
    + now rewrite <- Hs, firstn_skipn.
    + exists pattern_korean, (groups m'). split; [right; right; now left | exact Hg].
    + apply (f_equal (@length Z)) in Hpre. rewrite length_firstn in Hpre. lia.
  - intros dt Hin. apply find_dates_In in Hin as (p & m & Hp & Hm & E).
    apply finditer_In in Hm as (pre' & Hs & Hm).
    pose proof (proj2 (match_at_glang _ _ Hm)) as Hg.
    destruct (Honly pre' (group0 m) (rest m) Hs) as [-> Hw].
    { exists p, (groups m). split; assumption. }
    rewrite Ht in Hs. apply app_inv_head in Hs. rewrite Hw in Hs, Hm.
    apply app_inv_head in Hs. rewrite <- Hs in Hm.
    destruct (may_first_numeric post) as [N1 N2].
    destruct Hp as [<- | [<- | [<- | []]]]; [congruence | congruence |].
    rewrite may_first_korean in Hm. injection Hm as <-.
    rewrite may_first_date in E. now injection E as <-.
Qed.

(** C6. For a text that contains "2024년 5월 1일" and in which no other
    part, at any place, is read by a date pattern: the dates found are
    2024-05-01 and no other; with today = 2024-06-15 the latest past date
    is 2024-05-01, the elapsed months are the float nearest 1 + 14/30
    (1.47 to two decimals, shown as 1.5), and the compliance result passes
    under the summer bound; with today = 2024-09-01 the elapsed months are
    exactly 4.0 and the compliance result fails. *)
Theorem scenario_may_first (text pre post : str) :
  text = pre ++ u "2024년 5월 1일" ++ post
  -> (forall pre' w' post',
         text = pre' ++ w' ++ post' -> date_like w'
         -> pre' = pre /\ w' = u "2024년 5월 1일")
  -> (In may_first (find_dates text)
      /\ forall dt, In dt (find_dates text) -> dt = may_first)
     /\ (is_latest (mkdate 2024 6 15) text may_first
         /\ (1465 # 1000 <= Float.to_Q (month_diff (mkdate 2024 6 15) may_first)
             <= 1475 # 1000)%Q
         /\ threshold may_first = 2
         /\ check_disinfection_certificate (mkdate 2024 6 15) text
            = Ok (map (field_check text) disinfection_fields
                  ++ [ {| name := u "소독일(최신 과거일자) 추출"; passed := true;
                          detail := u "감지값: 2024-05-01" |};
                       {| name := u "소독주기 충족 여부"; passed := true;
                          detail := u "판정기준: 하절기(2개월), 경과: 1.5개월" |};
                       {| name := u "미래 날짜 등록 여부"; passed := true;
                          detail := u "미발견" |} ]))
     /\ (is_latest (mkdate 2024 9 1) text may_first
         /\ month_diff (mkdate 2024 9 1) may_first = Float.of_int 4
         /\ check_disinfection_certificate (mkdate 2024 9 1) text
            = Ok (map (field_check text) disinfection_fields
                  ++ [ {| name := u "소독일(최신 과거일자) 추출"; passed := true;
                          detail := u "감지값: 2024-05-01" |};
                       {| name := u "소독주기 충족 여부"; passed := false;
                          detail := u "판정기준: 하절기(2개월), 경과: 4.0개월" |};
                       {| name := u "미래 날짜 등록 여부"; passed := true;
                          detail := u "미발견" |} ])).
Proof.
  intros Ht Honly. destruct (@only_may_first _ _ _ Ht Honly) as [Hin Hall].
  split; [split; assumption |].
  assert (L : forall today, date_le may_first today = true
                            -> latest_of today text = Some may_first).
  { intros today Hle. apply latest_of_Some. split; [exact Hin |].
    split; [now apply date_le_not_lt |].
    intros dt Hdt _. rewrite (Hall dt Hdt). apply date_le_not_lt.
    apply date_le_refl. }
  assert (F : forall today, date_gt may_first today = false
                            -> future_check today text
                               = {| name := u "미래 날짜 등록 여부"; passed := true;
                                    detail := u "미발견" |}).
  { intros today Hgt. unfold future_check.
    assert (E : existsb (fun dt => date_gt dt today) (find_dates text) = false).
    { destruct (existsb _ _) eqn:E; [| reflexivity].
      apply existsb_exists in E as (dt & Hdt & E).
      rewrite (Hall dt Hdt) in E. congruence. }
    rewrite E. reflexivity. }
  split.
  - split; [apply latest_of_Some, L; reflexivity |].
    split; [split; vm_compute; discriminate |].
    split; [reflexivity |].
    rewrite check_disinfection_certificate_unfold, L, F by reflexivity.
    do 2 f_equal; vm_compute; reflexivity.
  - split; [apply latest_of_Some, L; reflexivity |].
    split; [vm_compute; reflexivity |].
    rewrite check_disinfection_certificate_unfold, L, F by reflexivity.
    do 2 f_equal; vm_compute; reflexivity.
Qed.

Lemma may_first_text_places :
  date_like_at (u "소독 2024년 5월 1일 실시") = [(3%nat, 11%nat)].
Proof. vm_compute. reflexivity. Qed.

Lemma may_first_text_only (pre' w' post' : str) :
  u "소독 2024년 5월 1일 실시" = pre' ++ w' ++ post' -> date_like w'
  -> pre' = u "소독 " /\ w' = u "2024년 5월 1일".
Proof.
  intros E Hd. pose proof (@date_like_at_spec _ _ _ _ E Hd) as Hin.
  rewrite may_first_text_places in Hin. destruct Hin as [Hin | []].
  injection Hin as Hp Hw.
  destruct (@split_by_length _ _ _ _ _ E (eq_sym Hp)) as [-> Er].
  destruct (@split_by_length _ _ _ _ _ (eq_sym Er) (eq_sym Hw)) as [-> _].
  split; vm_compute; reflexivity.
Qed.

Lemma scenario_may_first_witness :
  (In may_first (find_dates (u "소독 2024년 5월 1일 실시"))
   /\ forall dt, In dt (find_dates (u "소독 2024년 5월 1일 실시"))
                 -> dt = may_first)
  /\ check_disinfection_certificate (mkdate 2024 6 15) (u "소독 2024년 5월 1일 실시")
     = Ok (map (field_check (u "소독 2024년 5월 1일 실시")) disinfection_fields
           ++ [ {| name := u "소독일(최신 과거일자) 추출"; passed := true;
                   detail := u "감지값: 2024-05-01" |};
                {| name := u "소독주기 충족 여부"; passed := true;
                   detail := u "판정기준: 하절기(2개월), 경과: 1.5개월" |};
                {| name := u "미래 날짜 등록 여부"; passed := true;
                   detail := u "미발견" |} ]).
Proof.
  assert (E : u "소독 2024년 5월 1일 실시"
              = u "소독 " ++ u "2024년 5월 1일" ++ u " 실시")
    by (vm_compute; reflexivity).
  pose proof (@scenario_may_first _ _ _ E may_first_text_only) as T.
  split; [exact (proj1 T) |].
  exact (proj2 (proj2 (proj2 (proj1 (proj2 T))))).
Defined.
